(** * napari-metadata reader: a shallow embedding of [_reader.py]

    The reader walks the nodes of an OME-Zarr dataset and turns each one
    into a napari layer tuple.  The Python code works on dictionaries and
    lists that are shared and updated in place, so the embedding keeps an
    explicit store of objects: containers live in the store and values
    refer to them by location. *)

From Stdlib Require Import ZArith String Ascii Lia.
From stdpp Require Import base list strings.

Local Open Scope string_scope.
Local Open Scope list_scope.
Local Open Scope nat_scope.

(** ** Python values and the object store *)

Abbreviation loc := nat.

(** Dictionary keys of the metadata: strings (JSON) and integers (label
    identifiers). *)
Inductive key :=
| KStr (s : string)
| KInt (z : Z).

#[global] Instance key_eq_dec : EqDecision key.
Proof. solve_decision. Defined.

(** Immediate values.  Every container (dict, list, tuple) and every
    object is a location in the store.  A float literal is kept as a
    decimal mantissa and exponent, the reader never computes with it. *)
Inductive val :=
| VNone
| VBool (b : bool)
| VInt (z : Z)
| VFloat (m e : Z)
| VStr (s : string)
| VRef (l : loc).

#[global] Instance val_eq_dec : EqDecision val.
Proof. solve_decision. Defined.

Definition key_val (k : key) : val :=
  match k with KStr s => VStr s | KInt z => VInt z end.

(** Insertion-ordered dictionaries, as Python's [dict]. *)
Definition dict (V : Type) := list (key * V).

Fixpoint dict_get {V} (k : key) (d : dict V) : option V :=
  match d with
  | [] => None
  | (k', v) :: d' => if decide (k = k') then Some v else dict_get k d'
  end.

(** [d[k] = v]: an existing key keeps its position, a new key goes last. *)
Fixpoint dict_set {V} (k : key) (v : V) (d : dict V) : dict V :=
  match d with
  | [] => [(k, v)]
  | (k', v') :: d' =>
      if decide (k = k') then (k', v) :: d' else (k', v') :: dict_set k v d'
  end.

Fixpoint dict_del {V} (k : key) (d : dict V) : dict V :=
  match d with
  | [] => []
  | (k', v') :: d' =>
      if decide (k = k') then d' else (k', v') :: dict_del k d'
  end.

Definition dict_has {V} (k : key) (d : dict V) : bool :=
  bool_decide (is_Some (dict_get k d)).

Definition dict_keys {V} (d : dict V) : list key := d.*1.

(** ** The imported modules [_model], [_space_units], [_time_units]

    Only [_reader.py] is part of the development; what it imports is an
    interface. *)

(** Modelled from the spec: the unit registries of [_space_units] and
    [_time_units] (closed enumerations with a total [from_name] and a
    [NONE] sentinel, spec 4.1), the unit name that [Axis.get_unit_name]
    reports for a space axis (one name per canonical unit, spec 4.3), and
    the reserved key [EXTRA_METADATA_KEY] of [_model] (spec 6). *)
Class Imports := {
  SpaceUnits : Type;
  TimeUnits : Type;
  SpaceUnits_NONE : SpaceUnits;
  SpaceUnits_from_name : val → SpaceUnits;
  TimeUnits_from_name : val → TimeUnits;
  SpaceUnits_str : SpaceUnits → string;
  SpaceUnits_str_inj : ∀ u v, SpaceUnits_str u = SpaceUnits_str v → u = v;
  EXTRA_METADATA_KEY : string
}.

(** Pixel arrays are opaque: an identity and a shape. *)
Record array := { arr_id : nat; arr_shape : list nat }.

(** [Node] of ome_zarr: a pyramid (or None), a metadata dict in the store,
    and the answer of [node.load(Label)]. *)
Record Node := {
  node_data : option (list array);
  node_metadata : loc;
  node_is_label : bool
}.

(** The first component of a layer tuple: the pyramid or its only level. *)
Inductive layer_data :=
| DArray (a : array)
| DList (levels : list array).

Inductive layer_type := image | labels.

Definition LayerData : Type := layer_data * dict val * layer_type.

Inductive level := DEBUG | ERROR.

Inductive message :=
| SkippingNonData (n : Node)
| Transforming (n : Node)
| NodeMetadata (md : loc)
| ErrorReadingAxes
| Transformed (rv : LayerData).

Inductive warning :=
| MixedSpatialUnits (units : list string).

Inductive exn :=
| KeyError (k : key)
| IndexError
| TypeError
| AttributeError
| ValueError
| RuntimeError
| RecursionError.

Inductive outcome (A : Type) :=
| Ok (a : A)
| Raise (e : exn).
Arguments Ok {A} a.
Arguments Raise {A} e.

Section Reader.
Context {imports : Imports}.

(** Modelled from the spec: [Axis] of [_model] is missing; spec 3 gives a
    space or a time axis with its name and its canonical unit. *)
Inductive Axis :=
| SpaceAxis (name : val) (unit : SpaceUnits)
| TimeAxis (name : val) (unit : TimeUnits).

(** Modelled from the spec: the classes [OriginalMetadata] and
    [ExtraMetadata] of [_model] are missing; their objects carry the fields
    that spec 3 lists and that [make_extras] passes to the constructors,
    the axes being a list object of their own.  The other objects of the
    store are Python's dict, list and tuple and the Colormap of vispy, of
    which the reader only asks [isinstance]. *)
Inductive obj :=
| ODict (d : dict val)
| OList (xs : list val)
| OTuple (xs : list val)
| OColormap (spec : val)
| OAxes (axes : list Axis)
| OOriginal (axes : loc) (name scale translate : val)
| OExtra (axes : loc) (original : loc).

Abbreviation heap := (list obj).

Record state := {
  st_heap : heap;
  st_log : list (level * message);
  st_warnings : list warning
}.

(** ** A state and exception monad

    An exception keeps the store as it was when it was raised: what the
    code wrote before stays written. *)
Definition M (A : Type) : Type := state → outcome A * state.

Definition ret {A} (a : A) : M A := λ s, (Ok a, s).
Definition raise {A} (e : exn) : M A := λ s, (Raise e, s).
Definition bind {A B} (m : M A) (k : A → M B) : M B :=
  λ s, match m s with
       | (Ok a, s') => k a s'
       | (Raise e, s') => (Raise e, s')
       end.

(** [try: m except Exception: h]. *)
Definition try_except {A} (m : M A) (h : exn → M A) : M A :=
  λ s, match m s with
       | (Ok a, s') => (Ok a, s')
       | (Raise e, s') => h e s'
       end.

Definition read {A} (f : heap → outcome A) : M A := λ s, (f (st_heap s), s).

Definition rbind {A B} (r : heap → outcome A) (k : A → heap → outcome B)
  : heap → outcome B :=
  λ h, match r h with Ok a => k a h | Raise e => Raise e end.
Definition rret {A} (a : A) : heap → outcome A := λ _, Ok a.

Notation "'let!' x ':=' m 'in' k" := (bind m (λ x, k))
  (at level 10, x name, m at level 100, k at level 200, only parsing).
Notation "'let?' x ':=' m 'in' k" := (rbind m (λ x, k))
  (at level 10, x name, m at level 100, k at level 200, only parsing).

Definition set_heap (h : heap) (s : state) : state :=
  {| st_heap := h; st_log := st_log s; st_warnings := st_warnings s |}.

Definition alloc (o : obj) : M loc :=
  λ s, (Ok (length (st_heap s)), set_heap (st_heap s ++ [o]) s).

Definition store (l : loc) (o : obj) : M unit :=
  λ s, (Ok tt, set_heap (<[l := o]> (st_heap s)) s).

Definition log_msg (lvl : level) (m : message) : M unit :=
  λ s, (Ok tt, {| st_heap := st_heap s; st_log := st_log s ++ [(lvl, m)];
                  st_warnings := st_warnings s |}).

Definition warn (w : warning) : M unit :=
  λ s, (Ok tt, {| st_heap := st_heap s; st_log := st_log s;
                  st_warnings := st_warnings s ++ [w] |}).

Fixpoint foldM {A T} (body : A → T → M T) (xs : list A) (acc : T) : M T :=
  match xs with
  | [] => ret acc
  | x :: xs' => let! acc' := body x acc in foldM body xs' acc'
  end.

Fixpoint rfoldM {A T} (body : A → T → heap → outcome T) (xs : list A) (acc : T)
  : heap → outcome T :=
  match xs with
  | [] => rret acc
  | x :: xs' => let? acc' := body x acc in rfoldM body xs' acc'
  end.

Fixpoint rmapM {A B} (f : A → heap → outcome B) (xs : list A)
  : heap → outcome (list B) :=
  match xs with
  | [] => rret []
  | x :: xs' => let? y := f x in let? ys := rmapM f xs' in rret (y :: ys)
  end.

(** ** Python operations on values *)

Definition chars (s : string) : list val :=
  (λ c, VStr (String c EmptyString)) <$> list_ascii_of_string s.

(** [xs[i]] with Python's negative indices. *)
Definition index_list {A} (xs : list A) (i : Z) : option A :=
  if (0 <=? i)%Z then xs !! Z.to_nat i
  else if (0 <=? i + Z.of_nat (length xs))%Z
       then xs !! Z.to_nat (i + Z.of_nat (length xs))
       else None.

(** [v[k]]. *)
Definition subscript (v : val) (k : key) : heap → outcome val :=
  λ h,
  let at_index xs :=
    match k with
    | KInt i => match index_list xs i with
                | Some x => Ok x
                | None => Raise IndexError
                end
    | KStr _ => Raise TypeError
    end in
  match v with
  | VRef l =>
      match h !! l with
      | Some (ODict d) =>
          match dict_get k d with
          | Some x => Ok x
          | None => Raise (KeyError k)
          end
      | Some (OList xs) => at_index xs
      | Some (OTuple xs) => at_index xs
      | _ => Raise TypeError
      end
  | VStr s => at_index (chars s)
  | _ => Raise TypeError
  end.

Definition str_eq (s : string) (v : val) : bool :=
  match v with VStr s' => bool_decide (s = s') | _ => false end.

Fixpoint is_substring (p s : string) : bool :=
  String.prefix p s ||
  match s with
  | EmptyString => false
  | String _ s' => is_substring p s'
  end.

(** ["s" in v]. *)
Definition contains (s : string) (v : val) : heap → outcome bool :=
  λ h,
  match v with
  | VRef l =>
      match h !! l with
      | Some (ODict d) => Ok (dict_has (KStr s) d)
      | Some (OList xs) => Ok (existsb (str_eq s) xs)
      | Some (OTuple xs) => Ok (existsb (str_eq s) xs)
      | _ => Raise TypeError
      end
  | VStr s' => Ok (is_substring s s')
  | _ => Raise TypeError
  end.

(** The elements an iteration over [v] yields when the loop body leaves
    [v] itself alone. *)
Definition iterate (v : val) : heap → outcome (list val) :=
  λ h,
  match v with
  | VRef l =>
      match h !! l with
      | Some (ODict d) => Ok (key_val <$> dict_keys d)
      | Some (OList xs) => Ok xs
      | Some (OTuple xs) => Ok xs
      | _ => Raise TypeError
      end
  | VStr s => Ok (chars s)
  | _ => Raise TypeError
  end.

(** The receiver of a dict method ([get], [items], [keys]). *)
Definition as_dict (v : val) : heap → outcome (dict val) :=
  λ h,
  match v with
  | VRef l =>
      match h !! l with
      | Some (ODict d) => Ok d
      | _ => Raise AttributeError
      end
  | _ => Raise AttributeError
  end.

(** [v.get(k, default)]. *)
Definition method_get (v : val) (k : key) (default : val) : heap → outcome val :=
  let? d := as_dict v in
  rret (match dict_get k d with Some x => x | None => default end).

Definition is_list (h : heap) (v : val) : bool :=
  match v with
  | VRef l => match h !! l with Some (OList _) => true | _ => false end
  | _ => false
  end.

Definition is_str (v : val) : bool :=
  match v with VStr _ => true | _ => false end.

Definition is_colormap (h : heap) (v : val) : bool :=
  match v with
  | VRef l => match h !! l with Some (OColormap _) => true | _ => false end
  | _ => false
  end.

Definition truthy (h : heap) (v : val) : bool :=
  match v with
  | VNone => false
  | VBool b => b
  | VInt z => negb (z =? 0)%Z
  | VFloat m _ => negb (m =? 0)%Z
  | VStr s => negb (bool_decide (s = ""))
  | VRef l =>
      match h !! l with
      | Some (ODict d) => negb (bool_decide (d = []))
      | Some (OList xs) => negb (bool_decide (xs = []))
      | Some (OTuple xs) => negb (bool_decide (xs = []))
      | _ => true
      end
  end.

(** [v[k] = x]. *)
Definition setitem (v : val) (k : key) (x : val) : M unit :=
  λ s,
  match v with
  | VRef l =>
      match st_heap s !! l with
      | Some (ODict d) => store l (ODict (dict_set k x d)) s
      | Some (OList xs) =>
          match k with
          | KInt i =>
              if (0 <=? i)%Z && (i <? Z.of_nat (length xs))%Z
              then store l (OList (<[Z.to_nat i := x]> xs)) s
              else if (i <? 0)%Z && (0 <=? i + Z.of_nat (length xs))%Z
              then store l (OList (<[Z.to_nat (i + Z.of_nat (length xs)) := x]> xs)) s
              else (Raise IndexError, s)
          | KStr _ => (Raise TypeError, s)
          end
      | _ => (Raise TypeError, s)
      end
  | _ => (Raise TypeError, s)
  end.

(** [v.pop(i)] with a non-negative [i], the result dropped. *)
Definition method_pop (v : val) (i : nat) : M unit :=
  λ s,
  match v with
  | VRef l =>
      match st_heap s !! l with
      | Some (OList xs) =>
          if bool_decide (i < length xs)
          then store l (OList (delete i xs)) s
          else (Raise IndexError, s)
      | Some (ODict d) =>
          if dict_has (KInt (Z.of_nat i)) d
          then store l (ODict (dict_del (KInt (Z.of_nat i)) d)) s
          else (Raise (KeyError (KInt (Z.of_nat i))), s)
      | _ => (Raise AttributeError, s)
      end
  | _ => (Raise AttributeError, s)
  end.

(** [tuple(v)]: a tuple is returned as it is, anything else iterable is
    copied into a new tuple. *)
Definition py_tuple (v : val) : M val :=
  λ s,
  match v with
  | VRef l =>
      match st_heap s !! l with
      | Some (OTuple _) => (Ok v, s)
      | Some (OList xs) => (let! t := alloc (OTuple xs) in ret (VRef t)) s
      | Some (ODict d) =>
          (let! t := alloc (OTuple (key_val <$> dict_keys d)) in ret (VRef t)) s
      | _ => (Raise TypeError, s)
      end
  | VStr str => (let! t := alloc (OTuple (chars str)) in ret (VRef t)) s
  | _ => (Raise TypeError, s)
  end.

Definition rlift {A} (o : outcome A) : heap → outcome A := λ _, o.

(** [try: r except Exception: pass] around a read. *)
Definition rtry {A} (r : heap → outcome A) (otherwise : A) : heap → outcome A :=
  λ h, match r h with Ok a => Ok a | Raise _ => Ok otherwise end.

(** [d[k]] on a local dictionary. *)
Definition local_get {V} (k : key) (d : dict V) : outcome V :=
  match dict_get k d with
  | Some v => Ok v
  | None => Raise (KeyError k)
  end.

Definition enumerate {A} (xs : list A) : list (nat * A) :=
  zip (seq 0 (length xs)) xs.

(** A [for] loop over the list at [l].  Python reads the list anew at each
    step and stops when the index passes its end; no loop body of the
    reader makes a list longer, so the initial length bounds the steps. *)
Fixpoint for_list {T} (fuel : nat) (l : loc) (i : nat)
    (body : nat → val → T → M T) (acc : T) : M T :=
  match fuel with
  | 0 => ret acc
  | S fuel' =>
      λ s,
      match st_heap s !! l with
      | Some (OList xs) =>
          match xs !! i with
          | Some x =>
              (let! acc' := body i x acc in
               for_list fuel' l (S i) body acc') s
          | None => (Ok acc, s)
          end
      | _ => (Ok acc, s)
      end
  end.

(** [for i, x in enumerate(v)]. *)
Definition for_each {T} (v : val) (body : nat → val → T → M T) (acc : T) : M T :=
  λ s,
  match v with
  | VRef l =>
      match st_heap s !! l with
      | Some (OList xs) => for_list (length xs) l 0 body acc s
      | _ =>
          (let! xs := read (iterate v) in
           foldM (λ ix, body ix.1 ix.2) (enumerate xs) acc) s
      end
  | _ =>
      (let! xs := read (iterate v) in
       foldM (λ ix, body ix.1 ix.2) (enumerate xs) acc) s
  end.

(** ** [copy.deepcopy]

    Containers are rebuilt, immediate values are returned as they are, and
    the memo keeps the sharing inside the copied structure.  The fuel
    stands for Python's recursion limit. *)
Definition memo := list (loc * loc).

Fixpoint memo_get (l : loc) (mm : memo) : option loc :=
  match mm with
  | [] => None
  | (a, b) :: mm' => if decide (l = a) then Some b else memo_get l mm'
  end.

Definition list_append (l : loc) (x : val) : M unit :=
  λ s,
  match st_heap s !! l with
  | Some (OList xs) => store l (OList (xs ++ [x])) s
  | _ => (Raise AttributeError, s)
  end.

Definition ref_loc (v : val) : M loc :=
  match v with VRef l => ret l | _ => raise TypeError end.

Fixpoint deepcopy_rec (fuel : nat) (v : val) (mm : memo) : M (val * memo) :=
  match fuel with
  | 0 => raise RecursionError
  | S fuel' =>
      match v with
      | VRef l =>
          match memo_get l mm with
          | Some l' => ret (VRef l', mm)
          | None =>
              λ s,
              match st_heap s !! l with
              | Some (ODict d) =>
                  (let! y := alloc (ODict []) in
                   let! mm' :=
                     foldM (λ kx mm1,
                              let! r := deepcopy_rec fuel' kx.2 mm1 in
                              let! _ := setitem (VRef y) kx.1 r.1 in
                              ret r.2) d ((l, y) :: mm) in
                   ret (VRef y, mm')) s
              | Some (OList xs) =>
                  (let! y := alloc (OList []) in
                   let! mm' :=
                     foldM (λ x mm1,
                              let! r := deepcopy_rec fuel' x mm1 in
                              let! _ := list_append y r.1 in
                              ret r.2) xs ((l, y) :: mm) in
                   ret (VRef y, mm')) s
              | Some (OTuple xs) =>
                  (let! r :=
                     foldM (λ x acc,
                              let! r := deepcopy_rec fuel' x acc.2 in
                              ret (acc.1 ++ [r.1], r.2)) xs ([], mm) in
                   match memo_get l r.2 with
                   | Some l' => ret (VRef l', r.2)
                   | None =>
                       if bool_decide (r.1 = xs) then ret (v, r.2)
                       else
                         let! y := alloc (OTuple r.1) in
                         ret (VRef y, (l, y) :: r.2)
                   end) s
              | Some (OColormap spec) =>
                  (let! y := alloc (OColormap VNone) in
                   let! r := deepcopy_rec fuel' spec ((l, y) :: mm) in
                   let! _ := store y (OColormap r.1) in
                   ret (VRef y, r.2)) s
              | Some (OAxes axes) =>
                  (let! y := alloc (OAxes axes) in
                   ret (VRef y, (l, y) :: mm)) s
              | Some (OOriginal axes name scale translate) =>
                  (let! y := alloc (OOriginal axes name scale translate) in
                   let! ra := deepcopy_rec fuel' (VRef axes) ((l, y) :: mm) in
                   let! axes' := ref_loc ra.1 in
                   let! rn := deepcopy_rec fuel' name ra.2 in
                   let! rs := deepcopy_rec fuel' scale rn.2 in
                   let! rt := deepcopy_rec fuel' translate rs.2 in
                   let! _ := store y (OOriginal axes' rn.1 rs.1 rt.1) in
                   ret (VRef y, rt.2)) s
              | Some (OExtra axes original) =>
                  (let! y := alloc (OExtra axes original) in
                   let! ra := deepcopy_rec fuel' (VRef axes) ((l, y) :: mm) in
                   let! axes' := ref_loc ra.1 in
                   let! ro := deepcopy_rec fuel' (VRef original) ra.2 in
                   let! original' := ref_loc ro.1 in
                   let! _ := store y (OExtra axes' original') in
                   ret (VRef y, ro.2)) s
              | None => (Raise TypeError, s)
              end
          end
      | _ => ret (v, mm)
      end
  end.

Definition deepcopy (v : val) : M val :=
  λ s,
  (let! r := deepcopy_rec (2 * length (st_heap s) + 2) v [] in ret r.1) s.

(** [np.squeeze(level, axis=axis)]: the axis must exist and have size 1. *)
Definition squeeze (a : array) (axis : nat) : outcome array :=
  match arr_shape a !! axis with
  | Some 1 => Ok {| arr_id := arr_id a; arr_shape := delete axis (arr_shape a) |}
  | _ => Raise ValueError
  end.

(** [Colormap(cm)] of vispy: an opaque object that remembers its
    specification.  Subscripting or iterating one is outside the reader's
    use of it and counts as a TypeError. *)
Definition Colormap (cm : val) : M val :=
  let! c := alloc (OColormap cm) in ret (VRef c).

(** ** The reader *)

Definition METADATA_KEYS : list string :=
  ["name"; "visible"; "contrast_limits"; "colormap"; "color"; "metadata"].

(** *** [transform_properties]

    [properties] is a local dictionary of local lists: nothing else holds a
    reference to them while the function runs, so they are kept as values
    and the caller places the result in the store. *)

(** The body of the first loop: a list for every key of the label. *)
Definition create_lists (item : key * val) (properties : dict (list val))
  : heap → outcome (dict (list val)) :=
  let? props_dict := as_dict item.2 in
  rret (foldl (λ p key, dict_set key [] p) properties (dict_keys props_dict)).

(** [properties[key].append(props_dict.get(key, None))] *)
Definition append_value (props_dict : val) (key : key)
    (properties : dict (list val)) : heap → outcome (dict (list val)) :=
  let? column := rlift (local_get key properties) in
  let? x := method_get props_dict key VNone in
  rret (dict_set key (column ++ [x]) properties).

(** The body of the second loop: the label goes to ["index"], then every
    key takes the label's value or None. *)
Definition append_values (keys : list key) (item : key * val)
    (properties : dict (list val)) : heap → outcome (dict (list val)) :=
  let? index := rlift (local_get (KStr "index") properties) in
  let properties :=
    dict_set (KStr "index") (index ++ [key_val item.1]) properties in
  rfoldM (append_value item.2) keys properties.

Definition transform_properties (props : val)
  : heap → outcome (option (dict (list val))) :=
  match props with
  | VNone => rret None
  | _ =>
      let? items := as_dict props in
      let? properties := rfoldM create_lists items [] in
      let keys := dict_keys properties in
      let properties := dict_set (KStr "index") [] properties in
      let? properties := rfoldM (append_values keys) items properties in
      rret (Some properties)
  end.

(** The pivoted table as a dict of lists in the store. *)
Definition store_properties (properties : dict (list val)) : M val :=
  let! d :=
    foldM (λ kc d, let! l := alloc (OList kc.2) in ret (d ++ [(kc.1, VRef l)]))
          properties [] in
  let! p := alloc (ODict d) in
  ret (VRef p).

(** *** [transform_scale]

    One of the two [if] blocks of the loop body: [field] is ["scale"] or
    ["translation"], [target] the key of the output metadata. *)
Definition transform_scale_field (field target : string)
    (channel_axis : option nat) (transf : val) (metadata : dict val)
  : M (dict val) :=
  let! present := read (contains field transf) in
  if (present : bool) then
    let! arr := read (subscript transf (KStr field)) in
    let! _ := match channel_axis with
              | Some c => method_pop arr c
              | None => ret tt
              end in
    let! t := py_tuple arr in
    ret (dict_set (KStr target) t metadata)
  else ret metadata.

(** The body of the loop over the transforms of level 0. *)
Definition transform_scale_step (channel_axis : option nat) (transf : val)
    (metadata : dict val) : M (dict val) :=
  let! metadata :=
    transform_scale_field "scale" "scale" channel_axis transf metadata in
  transform_scale_field "translation" "translate" channel_axis transf metadata.

Definition transform_scale (node_metadata : val) (metadata : dict val)
    (channel_axis : option nat) : M (dict val) :=
  let! present := read (contains "coordinateTransformations" node_metadata) in
  if (present : bool) then
    let! cts := read (subscript node_metadata (KStr "coordinateTransformations")) in
    let! level_0_transforms := read (subscript cts (KInt 0)) in
    for_each level_0_transforms
      (λ _, transform_scale_step channel_axis) metadata
  else ret metadata.

(** *** [get_axis] and [get_axes] *)
Definition get_axis (axis : val) : heap → outcome (option Axis) :=
  let? name := subscript axis (KStr "name") in
  let? unit := method_get axis (KStr "unit") (VStr "none") in
  let? axis_type := method_get axis (KStr "type") VNone in
  if str_eq "time" axis_type
  then rret (Some (TimeAxis name (TimeUnits_from_name unit)))
  else if negb (str_eq "channel" axis_type)
  then rret (Some (SpaceAxis name (SpaceUnits_from_name unit)))
  else rret None.

Definition is_space (a : Axis) : bool :=
  match a with SpaceAxis _ _ => true | TimeAxis _ _ => false end.

(** [axis.get_unit_name()] on a space axis. *)
Definition space_unit_name (a : Axis) : option string :=
  match a with
  | SpaceAxis _ u => Some (SpaceUnits_str u)
  | TimeAxis _ _ => None
  end.

(** [axis.unit = SpaceUnits.NONE] for the space axes. *)
Definition clear_space_unit (a : Axis) : Axis :=
  match a with
  | SpaceAxis n _ => SpaceAxis n SpaceUnits_NONE
  | TimeAxis _ _ => a
  end.

(** The loop of [get_axes] that classifies the descriptors. *)
Definition classify_axes (metadata : val) : heap → outcome (list Axis) :=
  let? descriptors := subscript metadata (KStr "axes") in
  let? descriptors := iterate descriptors in
  rfoldM (λ a axes,
            let? axis := get_axis a in
            rret (match axis with Some axis => axes ++ [axis] | None => axes end))
         descriptors [].

Definition get_axes (metadata : val) : M (list Axis) :=
  let! axes := read (classify_axes metadata) in
  let space_axes := filter (λ a, is_space a = true) axes in
  let space_units := remove_dups (omap space_unit_name space_axes) in
  if bool_decide (1 < length space_units) then
    let! _ := warn (MixedSpatialUnits space_units) in
    ret (clear_space_unit <$> axes)
  else ret axes.

(** *** [make_extras] *)
Definition make_extras (metadata : dict val) (axes : list Axis) (name : val)
  : M val :=
  let! scale :=
    if dict_has (KStr "scale") metadata
    then let! v := read (rlift (local_get (KStr "scale") metadata)) in py_tuple v
    else ret VNone in
  let! translate :=
    if dict_has (KStr "translate") metadata
    then let! v := read (rlift (local_get (KStr "translate") metadata)) in py_tuple v
    else ret VNone in
  let! axes1 := alloc (OAxes axes) in
  let! original_meta := alloc (OOriginal axes1 name scale translate) in
  let! axes2 := alloc (OAxes axes) in
  let! extra := alloc (OExtra axes2 original_meta) in
  ret (VRef extra).

(** *** [transform]: the body of the loop over the nodes *)

(** The [try] block: the types of the axes and the position of the first
    ["channel"] among them. *)
Definition read_channel_axis (node_metadata : val) : heap → outcome (option nat) :=
  let? axes := subscript node_metadata (KStr "axes") in
  let? axes := iterate axes in
  let? ch_types := rmapM (λ axis, subscript axis (KStr "type")) axes in
  if existsb (str_eq "channel") ch_types
  then match list_find (λ t, str_eq "channel" t = true) ch_types with
       | Some r => rret (Some r.1)
       | None => rlift (Raise ValueError)
       end
  else rret None.

(** The [try] statement: log and re-raise. *)
Definition detect_channel_axis (node_metadata : val) : M (option nat) :=
  try_except (read (read_channel_axis node_metadata))
             (λ e, let! _ := log_msg ERROR ErrorReadingAxes in raise e).

(** [if name := node.metadata.get("name"): ...]: a string name of a node
    without channel axis is replaced, in the node's metadata, by a list. *)
Definition wrap_name (node_metadata : val) (channel_axis : option nat) : M unit :=
  let! name := read (method_get node_metadata (KStr "name") VNone) in
  λ s,
  if truthy (st_heap s) name
  then if bool_decide (channel_axis = None) && is_str name
       then (let! l := alloc (OList [name]) in
             setitem node_metadata (KStr "name") (VRef l)) s
       else (Ok tt, s)
  else (Ok tt, s).

(** [if x in node.metadata: metadata[x] = node.metadata[x]] *)
Definition copy_field (node_metadata : val) (x : string) (metadata : dict val)
  : heap → outcome (dict val) :=
  let? present := contains x node_metadata in
  if (present : bool) then
    let? v := subscript node_metadata (KStr x) in
    rret (dict_set (KStr x) v metadata)
  else rret metadata.

(** [for x in METADATA_KEYS: ...] of the label and multi-channel branches. *)
Definition copy_fields (node_metadata : val) (metadata : dict val)
  : heap → outcome (dict val) :=
  rfoldM (copy_field node_metadata) METADATA_KEYS metadata.

(** The same with [node.metadata[x][0]] inside [try ... except: pass]. *)
Definition copy_first_item (node_metadata : val) (x : string)
    (metadata : dict val) : heap → outcome (dict val) :=
  let? present := contains x node_metadata in
  if (present : bool) then
    rtry (let? v := subscript node_metadata (KStr x) in
          let? v0 := subscript v (KInt 0) in
          rret (dict_set (KStr x) v0 metadata))
         metadata
  else rret metadata.

(** [for x in METADATA_KEYS: ...] of the single-channel branch. *)
Definition copy_first_items (node_metadata : val) (metadata : dict val)
  : heap → outcome (dict val) :=
  rfoldM (copy_first_item node_metadata) METADATA_KEYS metadata.

Fixpoint squeeze_levels (levels : list array) (axis : nat) : outcome (list array) :=
  match levels with
  | [] => Ok []
  | a :: rest =>
      match squeeze a axis with
      | Ok a' =>
          match squeeze_levels rest axis with
          | Ok rest' => Ok (a' :: rest')
          | Raise e => Raise e
          end
      | Raise e => Raise e
      end
  end.

(** [if not isinstance(cm, Colormap): cms[idx] = Colormap(cm)] *)
Definition colormap_step (cms : val) (idx : nat) (cm : val) (_ : unit) : M unit :=
  λ s,
  if is_colormap (st_heap s) cm then (Ok tt, s)
  else (let! c := Colormap cm in setitem cms (KInt (Z.of_nat idx)) c) s.

(** The colormap loop over a dict: the keys are the elements, and a key
    that the assignment adds makes the next step of the iteration fail. *)
Fixpoint colormap_dict_loop (cms : val) (idx : nat) (keys : list key) : M unit :=
  match keys with
  | [] => ret tt
  | k :: keys' =>
      let! d := read (as_dict cms) in
      let! _ := colormap_step cms idx (key_val k) tt in
      if dict_has (KInt (Z.of_nat idx)) d
      then colormap_dict_loop cms (S idx) keys'
      else raise RuntimeError
  end.

Definition colormap_loop (cms : val) : M unit :=
  λ s,
  match as_dict cms (st_heap s) with
  | Ok d => colormap_dict_loop cms 0 (dict_keys d) s
  | Raise _ => for_each cms (colormap_step cms) tt s
  end.

(** The shim for colormaps: [cms = node.metadata.get("colormap", [])] and
    the loop; the default is a new empty list that nothing else sees. *)
Definition shim_colormaps (node_metadata : val) : M unit :=
  let! d := read (as_dict node_metadata) in
  match dict_get (KStr "colormap") d with
  | Some cms => colormap_loop cms
  | None => ret tt
  end.

(** The branch [channel_axis is None] of the extra metadata. *)
Definition attach_extras_single (metadata : dict val) (axes : list Axis)
  : M (dict val) :=
  let! metadata :=
    if dict_has (KStr "metadata") metadata then ret metadata
    else let! d := alloc (ODict []) in
         ret (dict_set (KStr "metadata") (VRef d) metadata) in
  let name := default VNone (dict_get (KStr "name") metadata) in
  let! extras := make_extras metadata axes name in
  let! m := read (rlift (local_get (KStr "metadata") metadata)) in
  let! _ := setitem m (KStr EXTRA_METADATA_KEY) extras in
  ret metadata.

(** [(data[0] if isinstance(data, list) else data).shape[channel_axis]] *)
Definition channel_count (data : layer_data) (channel_axis : nat) : outcome nat :=
  let shape_at a :=
    match arr_shape a !! channel_axis with
    | Some n => Ok n
    | None => Raise IndexError
    end in
  match data with
  | DArray a => shape_at a
  | DList (a :: _) => shape_at a
  | DList [] => Raise IndexError
  end.

(** The branch with a channel axis: one metadata mapping per channel. *)
Definition attach_extras_multi (data : layer_data) (metadata : dict val)
    (axes : list Axis) (channel_axis : nat) : M (dict val) :=
  let! n_channels := read (rlift (channel_count data channel_axis)) in
  let! meta :=
    match dict_get (KStr "metadata") metadata with
    | Some meta => ret meta
    | None => let! d := alloc (ODict []) in ret (VRef d)
    end in
  let! metadata :=
    λ s,
    if is_list (st_heap s) meta then (Ok metadata, s)
    else (let! copy := deepcopy meta in
          let! l := alloc (OList (replicate n_channels copy)) in
          ret (dict_set (KStr "metadata") (VRef l) metadata)) s in
  let name := default VNone (dict_get (KStr "name") metadata) in
  let! names :=
    λ s,
    if is_list (st_heap s) name then read (iterate name) s
    else (Ok (replicate n_channels name), s) in
  let! ms := read (let? m := rlift (local_get (KStr "metadata") metadata) in
                   iterate m) in
  let! _ :=
    foldM (λ nm _,
             let! extras := make_extras metadata axes nm.1 in
             setitem nm.2 (KStr EXTRA_METADATA_KEY) extras)
          (zip names ms) tt in
  ret metadata.

(** The [else] branch of the loop body: a node with data. *)
Definition transform_node (node : Node) (levels : list array) : M LayerData :=
  let! _ := log_msg DEBUG (Transforming node) in
  let! _ := log_msg DEBUG (NodeMetadata (node_metadata node)) in
  let node_metadata := VRef (node_metadata node) in
  let! channel_axis := detect_channel_axis node_metadata in
  let! metadata := transform_scale node_metadata [] channel_axis in
  let data :=
    match levels with
    | [a] => DArray a
    | _ => DList levels
    end in
  let! _ := wrap_name node_metadata channel_axis in
  let! r :=
    if node_is_label node then
      let! metadata := read (copy_fields node_metadata metadata) in
      let! data :=
        match channel_axis with
        | Some c =>
            let! squeezed := read (rlift (squeeze_levels levels c)) in
            ret (DList squeezed)
        | None => ret data
        end in
      let! props := read (method_get node_metadata (KStr "properties") VNone) in
      let! properties := read (transform_properties props) in
      let! metadata :=
        match properties with
        | Some p =>
            let! v := store_properties p in
            ret (dict_set (KStr "properties") v metadata)
        | None => ret metadata
        end in
      ret (data, metadata, labels)
    else
      let! _ := shim_colormaps node_metadata in
      let! metadata :=
        match channel_axis with
        | Some c =>
            read (copy_fields node_metadata
                    (dict_set (KStr "channel_axis") (VInt (Z.of_nat c)) metadata))
        | None => read (copy_first_items node_metadata metadata)
        end in
      ret (data, metadata, image) in
  let '(data, metadata, layer_type) := r in
  let! axes := get_axes node_metadata in
  let! metadata :=
    match channel_axis with
    | None => attach_extras_single metadata axes
    | Some c => attach_extras_multi data metadata axes c
    end in
  ret (data, metadata, layer_type).

Definition has_data (node : Node) : bool :=
  match node_data node with
  | None => false
  | Some levels => negb (bool_decide (length levels < 1))
  end.

(** The body of the loop of [f], [results] being the list built so far. *)
Definition f_body (node : Node) (results : list LayerData)
  : M (list LayerData) :=
  match node_data node with
  | Some levels =>
      if bool_decide (length levels < 1)
      then let! _ := log_msg DEBUG (SkippingNonData node) in ret results
      else
        let! rv := transform_node node levels in
        let! _ := log_msg DEBUG (Transformed rv) in
        ret (results ++ [rv])
  | None => let! _ := log_msg DEBUG (SkippingNonData node) in ret results
  end.

Fixpoint f_loop (nodes : list Node) (results : list LayerData)
  : M (list LayerData) :=
  match nodes with
  | [] => ret results
  | node :: rest =>
      let! results := f_body node results in
      f_loop rest results
  end.

(** [transform(nodes)] returns the reader function [f]; [f] takes no
    argument that it uses, so [transform nodes] is the run of [f]. *)
Definition transform (nodes : list Node) : M (list LayerData) :=
  f_loop nodes [].

End Reader.

Abbreviation heap := (list obj).
Notation "'let!' x ':=' m 'in' k" := (bind m (λ x, k))
  (at level 10, x name, m at level 100, k at level 200, only parsing).
Notation "'let?' x ':=' m 'in' k" := (rbind m (λ x, k))
  (at level 10, x name, m at level 100, k at level 200, only parsing).

(** ** [napari_get_reader] *)

(** The argument of the entry point: one path or a list of paths. *)
Inductive PathLike :=
| Path (p : string)
| Paths (ps : list string).

(** [warnings.warn("more than one path is not currently supported")] *)
Inductive reader_warning := MoreThanOnePath.

Section EntryPoint.
Context {imports : Imports}.

(** [parse_url] and [Reader] belong to ome-zarr: the location that a path
    resolves to, None for a path that is not supported, and the nodes that
    a reader of a location yields. *)
Variable Location : Type.
Variable parse_url : string → option Location.
Variable Reader : Location → list Node.

(** [zarr = parse_url(path)] and what follows it. *)
Definition open_path (path : string) : option (M (list LayerData)) :=
  match parse_url path with
  | Some zarr => Some (transform (Reader zarr))
  | None => None
  end.

(** The entry point gives the warnings it issues and the reader function,
    or None for a path to ignore. *)
Definition napari_get_reader (path : PathLike)
  : list reader_warning * outcome (option (M (list LayerData))) :=
  match path with
  | Paths ps =>
      let warnings :=
        if bool_decide (1 < length ps) then [MoreThanOnePath] else [] in
      match ps !! 0 with
      | Some p => (warnings, Ok (open_path p))
      | None => (warnings, Raise IndexError)
      end
  | Path p => ([], Ok (open_path p))
  end.

End EntryPoint.

(** ** A small unit registry to run the reader on examples *)

Inductive DemoSpace := D_NONE | D_MICROMETER | D_MILLIMETER | D_NANOMETER.
Inductive DemoTime := D_TNONE | D_SECOND | D_MILLISECOND.

Definition demo_space_from_name (v : val) : DemoSpace :=
  match v with
  | VStr "micrometer" => D_MICROMETER
  | VStr "millimeter" => D_MILLIMETER
  | VStr "nanometer" => D_NANOMETER
  | _ => D_NONE
  end.

Definition demo_time_from_name (v : val) : DemoTime :=
  match v with
  | VStr "second" => D_SECOND
  | VStr "millisecond" => D_MILLISECOND
  | _ => D_TNONE
  end.

Definition demo_space_str (u : DemoSpace) : string :=
  match u with
  | D_NONE => "none"
  | D_MICROMETER => "micrometer"
  | D_MILLIMETER => "millimeter"
  | D_NANOMETER => "nanometer"
  end.

Definition demo_imports : Imports := {|
  SpaceUnits := DemoSpace;
  TimeUnits := DemoTime;
  SpaceUnits_NONE := D_NONE;
  SpaceUnits_from_name := demo_space_from_name;
  TimeUnits_from_name := demo_time_from_name;
  SpaceUnits_str := demo_space_str;
  SpaceUnits_str_inj := ltac:(by intros [] []);
  EXTRA_METADATA_KEY := "napari-metadata-plugin"
|}.

(** ** Sample datasets

    The stores below hold the metadata of small OME-Zarr nodes, laid out
    as a JSON parser would build them: one object per location, no
    sharing. *)

Definition initial {imports : Imports} (h : heap) : state :=
  {| st_heap := h; st_log := []; st_warnings := [] |}.

Definition axis_descriptor {imports : Imports} (name type : string) : obj :=
  ODict [(KStr "name", VStr name); (KStr "type", VStr type);
         (KStr "unit", VStr "micrometer")].

(** An image with axes [c, y, x], two channels named "a" and "b", and
    [coordinateTransformations = [[{"scale": [1, 0.2, 0.2]}]]]. *)
Definition two_channel_store : list (@obj demo_imports) := [
  ODict [(KStr "axes", VRef 1); (KStr "coordinateTransformations", VRef 5);
         (KStr "name", VRef 9)];
  OList [VRef 2; VRef 3; VRef 4];
  ODict [(KStr "name", VStr "c"); (KStr "type", VStr "channel")];
  axis_descriptor "y" "space";
  axis_descriptor "x" "space";
  OList [VRef 6];
  OList [VRef 7];
  ODict [(KStr "scale", VRef 8)];
  OList [VInt 1; VFloat 2 (-1); VFloat 2 (-1)];
  OList [VStr "a"; VStr "b"]
].

Definition two_channel_node : Node :=
  {| node_data := Some [{| arr_id := 0; arr_shape := [2; 4; 4] |}];
     node_metadata := 0;
     node_is_label := false |}.

(** An image with axes [c, y, x], three channels, the single name "ch" and
    a single [metadata] mapping [{"note": 1}]. *)
Definition three_channel_store : list (@obj demo_imports) := [
  ODict [(KStr "axes", VRef 1); (KStr "name", VStr "ch");
         (KStr "metadata", VRef 5)];
  OList [VRef 2; VRef 3; VRef 4];
  ODict [(KStr "name", VStr "c"); (KStr "type", VStr "channel")];
  axis_descriptor "y" "space";
  axis_descriptor "x" "space";
  ODict [(KStr "note", VInt 1)]
].

Definition three_channel_node : Node :=
  {| node_data := Some [{| arr_id := 0; arr_shape := [3; 4; 4] |}];
     node_metadata := 0;
     node_is_label := false |}.

(** The same image with a per-channel [metadata] list of two mappings. *)
Definition per_channel_store : list (@obj demo_imports) := [
  ODict [(KStr "axes", VRef 1); (KStr "name", VRef 5);
         (KStr "metadata", VRef 6)];
  OList [VRef 2; VRef 3; VRef 4];
  ODict [(KStr "name", VStr "c"); (KStr "type", VStr "channel")];
  axis_descriptor "y" "space";
  axis_descriptor "x" "space";
  OList [VStr "a"; VStr "b"];
  OList [VRef 7; VRef 8];
  ODict [];
  ODict []
].

(** A single-channel image with axes [y, x] and the name "nuclei". *)
Definition named_image_store : list (@obj demo_imports) := [
  ODict [(KStr "axes", VRef 1); (KStr "name", VStr "nuclei")];
  OList [VRef 2; VRef 3];
  axis_descriptor "y" "space";
  axis_descriptor "x" "space"
].


(** A label node with axes [y, x], [visible = [True, False]] and the
    properties [{1: {"roiId": 10}, 2: {"roiId": 11, "shapeId": 99}}]. *)
Definition label_store : list (@obj demo_imports) := [
  ODict [(KStr "axes", VRef 1); (KStr "visible", VRef 4);
         (KStr "properties", VRef 5)];
  OList [VRef 2; VRef 3];
  axis_descriptor "y" "space";
  axis_descriptor "x" "space";
  OList [VBool true; VBool false];
  ODict [(KInt 1, VRef 6); (KInt 2, VRef 7)];
  ODict [(KStr "roiId", VInt 10)];
  ODict [(KStr "roiId", VInt 11); (KStr "shapeId", VInt 99)]
].


(** The properties [{1: {"index": 5}}]: a label with a property that is
    itself called "index". *)
Definition index_property_store : list (@obj demo_imports) := [
  ODict [(KInt 1, VRef 1)];
  ODict [(KStr "index", VInt 5)]
].

(** A node whose only axis descriptor has a name and no type. *)
Definition untyped_axis_store : list (@obj demo_imports) := [
  ODict [(KStr "axes", VRef 1)];
  OList [VRef 2];
  ODict [(KStr "name", VStr "x")]
].

Definition untyped_axis_node : Node :=
  {| node_data := Some [{| arr_id := 1; arr_shape := [4] |}];
     node_metadata := 0;
     node_is_label := false |}.

(** Axes [y] in micrometer and [x] in millimeter. *)
Definition mixed_units_store : list (@obj demo_imports) := [
  ODict [(KStr "axes", VRef 1)];
  OList [VRef 2; VRef 3];
  ODict [(KStr "name", VStr "y"); (KStr "type", VStr "space");
         (KStr "unit", VStr "micrometer")];
  ODict [(KStr "name", VStr "x"); (KStr "type", VStr "space");
         (KStr "unit", VStr "millimeter")]
].

(** The axes [get_axes] first builds from them. *)
Definition mixed_axes : list (@Axis demo_imports) :=
  [SpaceAxis (imports := demo_imports) (VStr "y") D_MICROMETER;
   SpaceAxis (imports := demo_imports) (VStr "x") D_MILLIMETER].

(** Nodes without data: [data is None] and [len(data) < 1]. *)
Definition no_data_node : Node :=
  {| node_data := None; node_metadata := 0; node_is_label := false |}.

Definition empty_data_node : Node :=
  {| node_data := Some []; node_metadata := 0; node_is_label := false |}.

(** Axes [t, c, y]: a time axis in seconds, a channel axis and a space
    axis. *)
Definition time_axes_store : list (@obj demo_imports) := [
  ODict [(KStr "axes", VRef 1)];
  OList [VRef 2; VRef 3; VRef 4];
  ODict [(KStr "name", VStr "t"); (KStr "type", VStr "time");
         (KStr "unit", VStr "second")];
  ODict [(KStr "name", VStr "c"); (KStr "type", VStr "channel")];
  axis_descriptor "y" "space"
].

(** Axes [y, ?]: the second descriptor has a type and no name. *)
Definition nameless_axis_store : list (@obj demo_imports) := [
  ODict [(KStr "axes", VRef 1)];
  OList [VRef 2; VRef 3];
  axis_descriptor "y" "space";
  ODict [(KStr "type", VStr "space")]
].

(** A single-channel image whose name is the empty string. *)
Definition unnamed_image_store : list (@obj demo_imports) := [
  ODict [(KStr "axes", VRef 1); (KStr "name", VStr "")];
  OList [VRef 2];
  axis_descriptor "x" "space"
].

(** An image with the colormaps [[Colormap("red"), [0, 1]]]: the first is
    a Colormap already, the second is the list that ome-zarr gives without
    vispy. *)
Definition colormap_store : list (@obj demo_imports) := [
  ODict [(KStr "axes", VRef 1); (KStr "colormap", VRef 3)];
  OList [VRef 2];
  axis_descriptor "x" "space";
  OList [VRef 4; VRef 5];
  OColormap (VStr "red");
  OList [VInt 0; VInt 1]
].

(** A store in which the output scale is already a tuple. *)
Definition scale_tuple_store : list (@obj demo_imports) := [
  OTuple [VFloat 2 (-1); VFloat 2 (-1)]
].

(** A labels node on the metadata of the two-channel image, with one level
    whose channel axis has length one. *)
Definition label_channel_node : Node :=
  {| node_data := Some [{| arr_id := 5; arr_shape := [1; 4; 4] |}];
     node_metadata := 0;
     node_is_label := true |}.

(** A store in which the metadata of a layer is a list of mappings. *)
Definition metadata_list_store : list (@obj demo_imports) := [
  OList [VRef 1];
  ODict []
].

(** The properties [{1: {"roiId": 10}, 2: 5}]: the second label does not
    map to a mapping. *)
Definition scalar_property_store : list (@obj demo_imports) := [
  ODict [(KInt 1, VRef 1); (KInt 2, VInt 5)];
  ODict [(KStr "roiId", VInt 10)]
].

(** ** Vocabulary of the statements *)

(** The identities of the pixel arrays of a layer. *)
Definition layer_ids (d : layer_data) : list nat :=
  match d with
  | DArray a => [arr_id a]
  | DList levels => arr_id <$> levels
  end.

Section Vocabulary.
Context {imports : Imports}.

(** The state after [LOGGER.debug] of a skipped node. *)
Definition skipped (node : Node) (s : state) : state :=
  {| st_heap := st_heap s;
     st_log := st_log s ++ [(DEBUG, SkippingNonData node)];
     st_warnings := st_warnings s |}.

(** [rv] is the layer that the loop body builds from [node]: the body ran
    on the node to its end, the layer holds the node's arrays and has the
    node's kind. *)
Definition layer_of (node : Node) (rv : LayerData) : Prop :=
  ∃ levels s1 s2,
    node_data node = Some levels
    ∧ transform_node node levels s1 = (Ok rv, s2)
    ∧ layer_ids rv.1.1 = arr_id <$> levels
    ∧ rv.2 = (if node_is_label node then labels else image).

(** The canonical units that the space axes of [axes] carry. *)
Definition space_units (axes : list Axis) : list SpaceUnits :=
  omap (λ a, match a with SpaceAxis _ u => Some u | TimeAxis _ _ => None end) axes.

(** Two or more distinct canonical units among the space axes. *)
Definition mixed_units (axes : list Axis) : Prop :=
  ∃ u v, u ∈ space_units axes ∧ v ∈ space_units axes ∧ u ≠ v.

(** The state after [warnings.warn] about mixed units. *)
Definition warned (names : list string) (s : state) : state :=
  {| st_heap := st_heap s;
     st_log := st_log s;
     st_warnings := st_warnings s ++ [MixedSpatialUnits names] |}.

(** The labels of a properties mapping with their property mappings read
    from the store, in the order of the mapping. *)
Definition label_rows (h : heap) (items : dict val)
    (rows : list (key * dict val)) : Prop :=
  Forall2 (λ item row, row.1 = item.1 ∧ as_dict item.2 h = Ok row.2) items rows.

(** What a label contributes to the column of [k]: its value or None. *)
Definition cell (k : key) (row : key * dict val) : val :=
  default VNone (dict_get k row.2).

(** The metadata mapping of channel [i] in the output metadata. *)
Definition channel_metadata (h : heap) (metadata : dict val) (i : nat)
  : option val :=
  match dict_get (KStr "metadata") metadata with
  | Some (VRef l) =>
      match h !! l with
      | Some (OList ms) => ms !! i
      | _ => None
      end
  | _ => None
  end.

(** The ExtraMetadata stored in a metadata mapping under the reserved key:
    the locations of its axes list and of its OriginalMetadata. *)
Definition extra_metadata (h : heap) (m : val) : option (loc * loc) :=
  match m with
  | VRef lm =>
      match h !! lm with
      | Some (ODict d) =>
          match dict_get (KStr EXTRA_METADATA_KEY) d with
          | Some (VRef e) =>
              match h !! e with
              | Some (OExtra axes original) => Some (axes, original)
              | _ => None
              end
          | _ => None
          end
      | _ => None
      end
  | _ => None
  end.

(** The name that the ExtraMetadata of channel [i] was constructed with. *)
Definition channel_extra_name (h : heap) (metadata : dict val) (i : nat)
  : option val :=
  match channel_metadata h metadata i with
  | Some m =>
      match extra_metadata h m with
      | Some (_, original) =>
          match h !! original with
          | Some (OOriginal _ name _ _) => Some name
          | _ => None
          end
      | None => None
      end
  | None => None
  end.


(** The array that the transform [e] holds under [field], with its place
    in the store. *)
Definition transform_array (h : heap) (field : string) (e : val)
  : option (loc * list val) :=
  match e with
  | VRef le =>
      match h !! le with
      | Some (ODict de) =>
          match dict_get (KStr field) de with
          | Some (VRef la) =>
              match h !! la with
              | Some (OList xs) => Some (la, xs)
              | _ => None
              end
          | _ => None
          end
      | _ => None
      end
  | _ => None
  end.

(** The places of the scale and translation arrays of a transform, and of
    all the transforms of a level. *)
Definition entry_arrays (h : heap) (e : val) : list loc :=
  omap (λ field, fst <$> transform_array h field e) ["scale"; "translation"].

Definition array_locs (h : heap) (entries : list val) : list loc :=
  entries ≫= entry_arrays h.

(** The array of the last transform that has [field]. *)
Definition last_array (h : heap) (field : string) (entries : list val)
  : option (list val) :=
  last (omap (λ e, snd <$> transform_array h field e) entries).

(** A transform as OME-Zarr writes it: a mapping whose scale and
    translation, when present, are arrays with an entry at the channel
    axis. *)
Definition well_formed_transform (h : heap) (c : option nat) (e : val) : Prop :=
  ∃ le de,
    e = VRef le ∧ h !! le = Some (ODict de)
    ∧ ∀ field v, field ∈ ["scale"; "translation"] →
        dict_get (KStr field) de = Some v →
        ∃ la xs, v = VRef la ∧ h !! la = Some (OList xs)
                 ∧ ∀ i, c = Some i → i < length xs.

Definition drop_channel (c : option nat) (xs : list val) : list val :=
  match c with
  | Some i => delete i xs
  | None => xs
  end.

(** The contents of the tuple that the output metadata holds under [k]. *)
Definition tuple_at (h : heap) (metadata : dict val) (k : string)
  : option (list val) :=
  match dict_get (KStr k) metadata with
  | Some (VRef t) =>
      match h !! t with
      | Some (OTuple xs) => Some xs
      | _ => None
      end
  | _ => None
  end.

(** The store grew from [h] to [h'] and kept every object outside [P]. *)
Definition frame (P : list loc) (h h' : heap) : Prop :=
  length h ≤ length h' ∧ ∀ l, l < length h → l ∉ P → h' !! l = h !! l.

(** A computation keeps the objects of [h0]: started in a store that
    extends [h0] it ends in one that does, and its result satisfies [Q]. *)
Definition keeps_result {A} (h0 : heap) (Q : A → Prop) (p : outcome A * state)
  : Prop :=
  h0 `prefix_of` st_heap p.2 ∧ ∀ a, p.1 = Ok a → Q a.

Definition keeps {A} (h0 : heap) (m : M A) (Q : A → Prop) : Prop :=
  ∀ s, h0 `prefix_of` st_heap s → keeps_result h0 Q (m s).

(** ** Vocabulary for the axes *)

(** The axis descriptors of a node as the store has them: every element of
    the list is a mapping. *)
Definition descriptors (h : heap) (descs : list val) (dds : list (dict val))
  : Prop :=
  Forall2 (λ v dd, ∃ l, v = VRef l ∧ h !! l = Some (ODict dd)) descs dds.

Definition descriptor_type (dd : dict val) : val :=
  default VNone (dict_get (KStr "type") dd).

Definition descriptor_unit (dd : dict val) : val :=
  default (VStr "none") (dict_get (KStr "unit") dd).

Definition is_channel (dd : dict val) : bool :=
  str_eq "channel" (descriptor_type dd).

(** The axis that belongs to a descriptor that is not a channel. *)
Definition axis_of (dd : dict val) (a : Axis) : Prop :=
  ∃ name,
    dict_get (KStr "name") dd = Some name
    ∧ a = if str_eq "time" (descriptor_type dd)
          then TimeAxis name (TimeUnits_from_name (descriptor_unit dd))
          else SpaceAxis name (SpaceUnits_from_name (descriptor_unit dd)).

(** A computation that returns, returns a result with [Q]. *)
Definition returns {A} (m : M A) (Q : A → Prop) : Prop :=
  ∀ s a s', m s = (Ok a, s') → Q a.

(** [metadata'] differs from [metadata] at most under the keys [ks]. *)
Definition only_changes (ks : list string) (metadata metadata' : dict val)
  : Prop :=
  ∀ k, k ∉ KStr <$> ks → dict_get k metadata' = dict_get k metadata.

(** The keys in order of first appearance. *)
Definition first_seen (ks : list key) : list key :=
  foldl (λ seen k, if decide (k ∈ seen) then seen else seen ++ [k]) [] ks.


(** The field [k] of the output metadata is a tuple of the store, if the
    metadata has it. *)
Definition tuple_or_absent (h : heap) (metadata : dict val) (k : string)
  : Prop :=
  ∀ v, dict_get (KStr k) metadata = Some v →
       ∃ l xs, v = VRef l ∧ h !! l = Some (OTuple xs).


(** The keys that the output metadata of a layer can have. *)
Definition output_keys : list string :=
  ["scale"; "translate"; "channel_axis"; "properties"] ++ METADATA_KEYS.


(** A reference is to an object of the store. *)
Definition in_store (h : heap) (v : val) : Prop :=
  ∀ l, v = VRef l → l < length h.

(** What the colormap shim leaves in the place of the entry [cm]: a
    Colormap stays, anything else gives way to a new Colormap built from
    it. *)
Definition shimmed (h h' : heap) (cm c : val) : Prop :=
  if is_colormap h cm then c = cm
  else ∃ l, c = VRef l ∧ length h ≤ l ∧ h' !! l = Some (OColormap cm).


(** The names that the loop over the channels goes through: the elements
    of the name of the layer if it is a list, or else that name once for
    every channel. *)
Definition channel_names (h : heap) (metadata : dict val) (n_channels : nat)
  : list val :=
  let name := default VNone (dict_get (KStr "name") metadata) in
  match name with
  | VRef l =>
      match h !! l with
      | Some (OList names) => names
      | _ => replicate n_channels name
      end
  | _ => replicate n_channels name
  end.


(** The data of a layer whose levels are passed on as they are: the one
    level of a node with one level, and the list of levels otherwise. *)
Definition levels_as_data (levels : list array) : layer_data :=
  match levels with
  | [a] => DArray a
  | _ => DList levels
  end.

(** [a'] is [a] without its axis [c], which has length one. *)
Definition squeezed_at (c : nat) (a a' : array) : Prop :=
  arr_id a' = arr_id a
  ∧ arr_shape a !! c = Some 1
  ∧ arr_shape a' = delete c (arr_shape a).


(** A computation that returns has logged nothing. *)
Definition quiet {A} (m : M A) : Prop :=
  ∀ s a s', m s = (Ok a, s') → st_log s' = st_log s.

(** The log of a run that returns [layers] for [nodes]: one message for a
    node without data, three for a node with data, the last of them with
    the layer of the node. *)
Fixpoint run_log (nodes : list Node) (layers : list LayerData)
  : list (level * message) :=
  match nodes with
  | [] => []
  | node :: rest =>
      if has_data node then
        match layers with
        | rv :: layers' =>
            [(DEBUG, Transforming node);
             (DEBUG, NodeMetadata (node_metadata node));
             (DEBUG, Transformed rv)] ++ run_log rest layers'
        | [] => []
        end
      else (DEBUG, SkippingNonData node) :: run_log rest layers
  end.


(** The mapping that the extras of a layer without channel axis are
    written into, as it is before: the mapping under 'metadata', or an
    empty one if the output metadata has none. *)
Definition metadata_mapping (h : heap) (metadata : dict val)
  : option (dict val) :=
  match dict_get (KStr "metadata") metadata with
  | Some (VRef m) =>
      match h !! m with
      | Some (ODict d) => Some d
      | _ => None
      end
  | Some _ => None
  | None => Some []
  end.

(** The node metadata at [md] has, at its first level, one transform, whose
    only array is the scale [xs] at [la], an object of its own. *)
Definition scale_only_node (h : heap) (md la : loc) (xs : list val) : Prop :=
  ∃ d cts others l0 le de,
    h !! md = Some (ODict d)
    ∧ dict_get (KStr "coordinateTransformations") d = Some (VRef cts)
    ∧ h !! cts = Some (OList (VRef l0 :: others))
    ∧ h !! l0 = Some (OList [VRef le])
    ∧ h !! le = Some (ODict de)
    ∧ dict_get (KStr "scale") de = Some (VRef la)
    ∧ dict_get (KStr "translation") de = None
    ∧ h !! la = Some (OList xs)
    ∧ la ≠ cts ∧ la ≠ l0.

End Vocabulary.

(** * Properties *)

Section Facts.
Context {imports : Imports}.

(** ** The monad *)

Lemma bind_Ok {A B} (m : M A) (k : A → M B) s b s' :
  bind m k s = (Ok b, s') →
  ∃ a s1, m s = (Ok a, s1) ∧ k a s1 = (Ok b, s').
Proof.
  unfold bind. destruct (m s) as [[a|e] s1]; [eauto | discriminate].
Qed.

Lemma bind_run {A B} (m : M A) (k : A → M B) s a s1 :
  m s = (Ok a, s1) → bind m k s = k a s1.
Proof. unfold bind. by intros ->. Qed.

Lemma bind_assoc {A B C} (m : M A) (k : A → M B) (k' : B → M C) s :
  bind (bind m k) k' s = bind m (λ a, bind (k a) k') s.
Proof. unfold bind. by destruct (m s) as [[a|e] s1]. Qed.

Lemma read_Ok {A} (r : heap → outcome A) s a s' :
  read r s = (Ok a, s') → r (st_heap s) = Ok a ∧ s' = s.
Proof. unfold read. by intros [= -> <-]. Qed.

(** ** The loop over the nodes *)

Lemma squeeze_levels_ids levels c squeezed :
  squeeze_levels levels c = Ok squeezed → arr_id <$> squeezed = arr_id <$> levels.
Proof.
  revert squeezed. induction levels as [|a rest IH]; intros squeezed; simpl.
  - by intros [= <-].
  - unfold squeeze. destruct (arr_shape a !! c) as [[|[|n]]|]; try discriminate.
    destruct (squeeze_levels rest c) as [rest'|]; [|discriminate].
    intros [= <-]. simpl. f_equal. by apply IH.
Qed.

Lemma transform_node_shape node (levels : list array) s rv s' :
  1 ≤ length levels →
  transform_node node levels s = (Ok rv, s') →
  layer_ids rv.1.1 = arr_id <$> levels
  ∧ rv.2 = (if node_is_label node then labels else image).
Proof.
  intros Hlen Hrun. unfold transform_node in Hrun.
  apply bind_Ok in Hrun as (_ & s1 & _ & Hrun).
  apply bind_Ok in Hrun as (_ & s2 & _ & Hrun).
  apply bind_Ok in Hrun as (channel_axis & s3 & _ & Hrun).
  apply bind_Ok in Hrun as (metadata & s4 & _ & Hrun).
  apply bind_Ok in Hrun as (_ & s5 & _ & Hrun).
  apply bind_Ok in Hrun as ([[data md] kind] & s6 & Hbranch & Hrun).
  apply bind_Ok in Hrun as (axes & s7 & _ & Hrun).
  apply bind_Ok in Hrun as (md' & s8 & _ & Hrun).
  injection Hrun as <- <-. simpl.
  assert (Hsingle : layer_ids
            match levels with [a] => DArray a | _ => DList levels end
          = arr_id <$> levels).
  { destruct levels as [|a [|b rest]]; done. }
  destruct (node_is_label node).
  - apply bind_Ok in Hbranch as (md1 & t1 & _ & Hbranch).
    apply bind_Ok in Hbranch as (data1 & t2 & Hdata & Hbranch).
    apply bind_Ok in Hbranch as (props & t3 & _ & Hbranch).
    apply bind_Ok in Hbranch as (properties & t4 & _ & Hbranch).
    apply bind_Ok in Hbranch as (md2 & t5 & _ & Hbranch).
    injection Hbranch as <- <- <- <-. split; [|done].
    destruct channel_axis as [c|].
    + apply bind_Ok in Hdata as (squeezed & t6 & Hsq & Hdata).
      injection Hdata as <- <-.
      apply read_Ok in Hsq as [Hsq _]. simpl. by eapply squeeze_levels_ids.
    + by injection Hdata as <- <-.
  - apply bind_Ok in Hbranch as (_ & t1 & _ & Hbranch).
    apply bind_Ok in Hbranch as (md1 & t2 & _ & Hbranch).
    by injection Hbranch as <- <- <- <-.
Qed.

Lemma f_loop_skip node rest results s :
  has_data node = false →
  f_loop (node :: rest) results s = f_loop rest results (skipped node s).
Proof.
  unfold has_data. intros Hskip. cbn [f_loop]. unfold f_body.
  destruct (node_data node) as [levels|]; [|done].
  by destruct (bool_decide (length levels < 1)).
Qed.

Lemma f_loop_data node (levels : list array) rest results s :
  node_data node = Some levels → 1 ≤ length levels →
  f_loop (node :: rest) results s =
  (let! rv := transform_node node levels in
   let! _ := log_msg DEBUG (Transformed rv) in
   f_loop rest (results ++ [rv])) s.
Proof.
  intros Hdata Hlen. cbn [f_loop]. unfold f_body. rewrite Hdata.
  rewrite bool_decide_eq_false_2 by lia.
  unfold bind. by destruct (transform_node node levels s) as [[rv|e] s1].
Qed.

Lemma has_data_levels node :
  has_data node = true →
  ∃ levels, node_data node = Some levels ∧ 1 ≤ length levels.
Proof.
  unfold has_data. destruct (node_data node) as [levels|]; [|done].
  intros Hlen. exists levels. split; [done|].
  apply negb_true_iff, bool_decide_eq_false in Hlen. lia.
Qed.

Lemma f_loop_app pre post results s :
  f_loop (pre ++ post) results s =
  (let! results' := f_loop pre results in f_loop post results') s.
Proof.
  revert results s. induction pre as [|node pre IH]; intros results s.
  - done.
  - rewrite <- app_comm_cons. cbn [f_loop]. rewrite bind_assoc.
    unfold bind. destruct (f_body node results s) as [[r|e] s1]; [|done].
    by rewrite IH.
Qed.

Lemma f_loop_layers nodes results s out s' :
  f_loop nodes results s = (Ok out, s') →
  ∃ new, out = results ++ new ∧ Forall2 layer_of (filter (λ n, has_data n = true) nodes) new.
Proof.
  revert results s. induction nodes as [|node rest IH]; intros results s Hrun.
  - injection Hrun as <- <-. exists []. by rewrite app_nil_r.
  - destruct (has_data node) eqn:Hd.
    + rewrite filter_cons_True by done.
      destruct (has_data_levels _ Hd) as (levels & Hdata & Hlen).
      rewrite (f_loop_data _ levels) in Hrun by done.
      apply bind_Ok in Hrun as (rv & s1 & Hnode & Hrun).
      apply bind_Ok in Hrun as (_ & s2 & _ & Hrun).
      apply IH in Hrun as (new & -> & Hnew).
      exists (rv :: new). split; [by rewrite <- app_assoc|].
      constructor; [|done].
      exists levels, s, s1. split; [done|]. split; [done|].
      by eapply transform_node_shape.
    + rewrite filter_cons_False by (by rewrite Hd).
      rewrite f_loop_skip in Hrun by done. by apply IH in Hrun.
Qed.

(** A failure of the [try] block in the body of a node with data ends the
    run there: the error is logged and comes out of [transform]. *)
Lemma detect_failure_aborts pre node (levels : list array) post s results s1 e :
  transform pre s = (Ok results, s1) →
  node_data node = Some levels → 1 ≤ length levels →
  read_channel_axis (VRef (node_metadata node)) (st_heap s1) = Raise e →
  ∃ s2, transform (pre ++ node :: post) s = (Raise e, s2)
        ∧ st_heap s2 = st_heap s1
        ∧ st_warnings s2 = st_warnings s1
        ∧ st_log s2 = st_log s1 ++ [(DEBUG, Transforming node);
                                     (DEBUG, NodeMetadata (node_metadata node));
                                     (ERROR, ErrorReadingAxes)].
Proof.
  intros Hpre Hdata Hlen Hread. unfold transform in *.
  rewrite f_loop_app. rewrite (bind_run _ _ _ _ _ Hpre).
  rewrite (f_loop_data _ levels) by done.
  unfold transform_node, detect_channel_axis, try_except, read, log_msg, bind.
  cbn. rewrite Hread. cbn. eexists. split; [done|]. cbn.
  split; [done|]. split; [done|]. by rewrite <- !app_assoc.
Qed.

Lemma rmapM_raise {A B} (f : A → heap → outcome B) xs i x h :
  xs !! i = Some x → (∃ e, f x h = Raise e) → ∃ e, rmapM f xs h = Raise e.
Proof.
  revert i. induction xs as [|y xs IH]; intros i Hi Hx; [done|].
  cbn. unfold rbind. destruct i as [|i]; simpl in Hi.
  - injection Hi as ->. destruct Hx as [e ->]. eauto.
  - destruct (f y h); [|eauto].
    destruct (IH _ Hi Hx) as [e ->]. eauto.
Qed.

(** C9: the reader function returns one layer tuple per node whose data is
    present and non-empty, in the order of the nodes; a node whose data is
    None or empty adds nothing to the list, is logged at debug level and
    raises nothing. *)
Theorem reader_one_layer_per_data_node nodes s results s' :
  transform nodes s = (Ok results, s') →
  Forall2 layer_of (filter (λ n, has_data n = true) nodes) results
  ∧ length results = length (filter (λ n, has_data n = true) nodes)
  ∧ ∀ node acc t, node ∈ nodes → has_data node = false →
      f_body node acc t = (Ok acc, skipped node t).
Proof.
  intros Hrun. apply f_loop_layers in Hrun as (new & -> & Hnew).
  split; [done|]. split; [symmetry; by eapply Forall2_length|].
  intros node acc t _ Hskip. unfold f_body, has_data in *.
  destruct (node_data node) as [levels|]; [|done].
  by destruct (bool_decide (length levels < 1)).
Qed.

(** C7: when the axis schema of a node cannot be read to find the channel
    axis, the error is logged at error severity and raised again; it ends
    the whole run, which returns no list of results. *)
Theorem axis_schema_error_is_fatal pre node (levels : list array) post s results s1 e :
  transform pre s = (Ok results, s1) →
  node_data node = Some levels → 1 ≤ length levels →
  read_channel_axis (VRef (node_metadata node)) (st_heap s1) = Raise e →
  ∃ s2, transform (pre ++ node :: post) s = (Raise e, s2)
        ∧ last (st_log s2) = Some (ERROR, ErrorReadingAxes)
        ∧ st_heap s2 = st_heap s1.
Proof.
  intros Hpre Hdata Hlen Hread.
  destruct (detect_failure_aborts pre node levels post s results s1 e)
    as (s2 & Hrun & Hheap & _ & Hlog); try done.
  exists s2. split; [done|]. split; [|done].
  rewrite Hlog.
  change [(DEBUG, Transforming node); (DEBUG, NodeMetadata (node_metadata node));
          (ERROR, ErrorReadingAxes)]
    with ([(DEBUG, Transforming node); (DEBUG, NodeMetadata (node_metadata node))]
          ++ [(ERROR, ErrorReadingAxes)]).
  rewrite app_assoc. apply last_snoc.
Qed.

(** C10: a node whose axes contain a descriptor without a 'type' key makes
    the reader function raise during the detection of the channel axis and
    ends the run, although the classifier [get_axis] reads a descriptor
    without type as a space axis. *)
Theorem untyped_axis_is_fatal pre node (levels : list array) post s results s1
    d axes (descs : list val) i ld dd :
  transform pre s = (Ok results, s1) →
  node_data node = Some levels → 1 ≤ length levels →
  st_heap s1 !! node_metadata node = Some (ODict d) →
  dict_get (KStr "axes") d = Some (VRef axes) →
  st_heap s1 !! axes = Some (OList descs) →
  descs !! i = Some (VRef ld) →
  st_heap s1 !! ld = Some (ODict dd) →
  dict_get (KStr "type") dd = None →
  (∃ e s2, transform (pre ++ node :: post) s = (Raise e, s2)
           ∧ last (st_log s2) = Some (ERROR, ErrorReadingAxes))
  ∧ ∀ name, dict_get (KStr "name") dd = Some name →
      get_axis (VRef ld) (st_heap s1) =
      Ok (Some (SpaceAxis name
                  (SpaceUnits_from_name
                     (default (VStr "none") (dict_get (KStr "unit") dd))))).
Proof.
  intros Hpre Hdata Hlen Hmd Haxes Hdescs Hi Hld Htype. split.
  - assert (∃ e, read_channel_axis (VRef (node_metadata node)) (st_heap s1) = Raise e)
      as [e Hread].
    { unfold read_channel_axis, rbind, subscript, iterate.
      rewrite Hmd, Haxes, Hdescs.
      destruct (rmapM_raise (λ axis h, subscript axis (KStr "type") h)
                  descs i (VRef ld) (st_heap s1) Hi) as [e He].
      - exists (KeyError (KStr "type")). unfold subscript. by rewrite Hld, Htype.
      - exists e. unfold subscript in He. by rewrite He. }
    destruct (detect_failure_aborts pre node levels post s results s1 e)
      as (s2 & Hrun & _ & _ & Hlog); try done.
    exists e, s2. split; [done|]. rewrite Hlog.
    change [(DEBUG, Transforming node); (DEBUG, NodeMetadata (node_metadata node));
            (ERROR, ErrorReadingAxes)]
      with ([(DEBUG, Transforming node); (DEBUG, NodeMetadata (node_metadata node))]
            ++ [(ERROR, ErrorReadingAxes)]).
    rewrite app_assoc. apply last_snoc.
  - intros name Hname.
    unfold get_axis, rbind, method_get, rbind, as_dict, subscript, rret.
    rewrite Hld, Hname, Htype. cbn. by destruct (dict_get (KStr "unit") dd).
Qed.

(** ** Reconciliation of the units *)

Lemma remove_dups_two (l : list string) :
  1 < length (remove_dups l) ↔ ∃ x y, x ∈ l ∧ y ∈ l ∧ x ≠ y.
Proof.
  split.
  - intros Hlen. pose proof (NoDup_remove_dups l) as Hnd.
    destruct (remove_dups l) as [|a [|b rest]] eqn:Hrd; simpl in Hlen; try lia.
    exists a, b. repeat split.
    + apply elem_of_remove_dups. rewrite Hrd. apply elem_of_cons. by left.
    + apply elem_of_remove_dups. rewrite Hrd. rewrite !elem_of_cons. auto.
    + apply NoDup_cons in Hnd as [Hnot _]. intros ->.
      apply Hnot, elem_of_cons. by left.
  - intros (x & y & Hx & Hy & Hne).
    apply elem_of_remove_dups in Hx, Hy.
    destruct (remove_dups l) as [|a [|b rest]]; simpl; try lia.
    + by apply elem_of_nil in Hx.
    + apply list_elem_of_singleton in Hx, Hy. congruence.
Qed.

Lemma unit_names_of_space_axes axes :
  omap space_unit_name (filter (λ a, is_space a = true) axes)
  = SpaceUnits_str <$> space_units axes.
Proof.
  unfold space_units. induction axes as [|[n u|n u] axes IH]; [done| |].
  - rewrite filter_cons_True by done. cbn. f_equal. exact IH.
  - rewrite filter_cons_False by done. done.
Qed.

Lemma mixed_units_names axes :
  1 < length (remove_dups (omap space_unit_name
                             (filter (λ a, is_space a = true) axes)))
  ↔ mixed_units axes.
Proof.
  rewrite remove_dups_two, unit_names_of_space_axes. unfold mixed_units. split.
  - intros (x & y & Hx & Hy & Hne).
    apply list_elem_of_fmap in Hx as (u & -> & Hu).
    apply list_elem_of_fmap in Hy as (v & -> & Hv).
    exists u, v. repeat split; [done..|]. congruence.
  - intros (u & v & Hu & Hv & Hne).
    exists (SpaceUnits_str u), (SpaceUnits_str v).
    repeat split; [by apply list_elem_of_fmap_2..|].
    intros Heq. by apply Hne, SpaceUnits_str_inj.
Qed.

(** C5: when the space axes that [get_axes] builds carry two or more
    distinct canonical units, it returns every space axis with unit NONE
    and emits one warning that names the set of conflicting units, and it
    does not raise; when the units do not conflict every axis keeps the
    unit it was resolved to. *)
Theorem get_axes_reconciles_units metadata s axes :
  classify_axes metadata (st_heap s) = Ok axes →
  (mixed_units axes →
     ∃ names,
       get_axes metadata s = (Ok (clear_space_unit <$> axes), warned names s)
       ∧ (∀ u, u ∈ space_units (clear_space_unit <$> axes) → u = SpaceUnits_NONE)
       ∧ NoDup names
       ∧ ∀ n, n ∈ names ↔ ∃ u, u ∈ space_units axes ∧ n = SpaceUnits_str u)
  ∧ (¬ mixed_units axes → get_axes metadata s = (Ok axes, s)).
Proof.
  intros Hclass. unfold get_axes, bind, read. rewrite Hclass. split.
  - intros Hmixed. apply mixed_units_names in Hmixed as Hlen.
    rewrite bool_decide_eq_true_2 by done.
    eexists. split; [reflexivity|]. split; [|split].
    + intros u Hu. unfold space_units in Hu.
      apply list_elem_of_omap in Hu as (a & Ha & Hu).
      apply list_elem_of_fmap in Ha as (b & -> & _).
      destruct b; simpl in Hu; congruence.
    + apply NoDup_remove_dups.
    + intros n. rewrite elem_of_remove_dups, unit_names_of_space_axes.
      rewrite list_elem_of_fmap. split; intros (u & ? & ?); eauto.
  - intros Hnot. rewrite bool_decide_eq_false_2; [done|].
    by rewrite mixed_units_names.
Qed.

(** ** Dictionaries *)

Lemma dict_get_set {V} k k' (v : V) d :
  dict_get k' (dict_set k v d) = if decide (k' = k) then Some v else dict_get k' d.
Proof.
  induction d as [|[k0 v0] d IH]; simpl.
  - by destruct (decide (k' = k)).
  - destruct (decide (k = k0)) as [->|Hne]; simpl.
    + by destruct (decide (k' = k0)).
    + destruct (decide (k' = k0)) as [->|Hne'].
      * by rewrite decide_False by done.
      * done.
Qed.

Lemma dict_keys_get {V} k (d : dict V) :
  k ∈ dict_keys d ↔ is_Some (dict_get k d).
Proof.
  unfold dict_keys. induction d as [|[k0 v0] d IH]; simpl.
  - rewrite elem_of_nil. split; [done | by intros [? ?]].
  - rewrite elem_of_cons, IH. destruct (decide (k = k0)) as [->|Hne].
    + split; [eauto | by left].
    + split; [by intros [?|?] | by right].
Qed.

Lemma dict_keys_set {V} k (v : V) d :
  dict_keys (dict_set k v d)
  = if decide (k ∈ dict_keys d) then dict_keys d else dict_keys d ++ [k].
Proof.
  unfold dict_keys. induction d as [|[k0 v0] d IH].
  - done.
  - cbn [dict_set]. destruct (decide (k = k0)) as [->|Hne].
    + rewrite decide_True; [done | rewrite fmap_cons; by left].
    + rewrite !fmap_cons. cbn [fst]. rewrite IH.
      destruct (decide (k ∈ d.*1)) as [Hin|Hnot].
      * rewrite decide_True; [done | by right].
      * rewrite decide_False; [done|]. rewrite not_elem_of_cons. done.
Qed.

Lemma dict_keys_set_elem {V} k k' (v : V) d :
  k' ∈ dict_keys (dict_set k v d) ↔ k' = k ∨ k' ∈ dict_keys d.
Proof.
  rewrite dict_keys_set. destruct (decide (k ∈ dict_keys d)).
  - split; [auto | by intros [->|?]].
  - rewrite elem_of_app, list_elem_of_singleton. tauto.
Qed.

Lemma dict_keys_set_NoDup {V} k (v : V) d :
  NoDup (dict_keys d) → NoDup (dict_keys (dict_set k v d)).
Proof.
  intros Hnd. rewrite dict_keys_set. destruct (decide (k ∈ dict_keys d)); [done|].
  apply NoDup_app. split; [done|]. split; [|apply NoDup_singleton].
  intros x Hx ->%list_elem_of_singleton. done.
Qed.

(** ** The properties pivot *)

Lemma blank_lists ks (acc : dict (list val)) :
  NoDup (dict_keys acc) →
  (∀ k v, dict_get k acc = Some v → v = []) →
  let t := foldl (λ p key, dict_set key [] p) acc ks in
  NoDup (dict_keys t)
  ∧ (∀ k, k ∈ dict_keys t ↔ k ∈ dict_keys acc ∨ k ∈ ks)
  ∧ (∀ k v, dict_get k t = Some v → v = []).
Proof.
  revert acc. induction ks as [|k0 ks IH]; intros acc Hnd Hblank; cbn.
  - split; [done|]. split; [|done]. intros k. rewrite elem_of_nil. tauto.
  - destruct (IH (dict_set k0 [] acc)) as (Hnd' & Hkeys & Hblank').
    + by apply dict_keys_set_NoDup.
    + intros k v. rewrite dict_get_set.
      destruct (decide (k = k0)); [congruence | apply Hblank].
    + split; [done|]. split; [|done].
      intros k. rewrite Hkeys, dict_keys_set_elem, elem_of_cons. tauto.
Qed.

Lemma create_lists_loop h items rows (acc : dict (list val)) :
  label_rows h items rows →
  NoDup (dict_keys acc) →
  (∀ k v, dict_get k acc = Some v → v = []) →
  ∃ t, rfoldM create_lists items acc h = Ok t
       ∧ NoDup (dict_keys t)
       ∧ (∀ k, k ∈ dict_keys t ↔
               k ∈ dict_keys acc ∨ ∃ row, row ∈ rows ∧ k ∈ dict_keys row.2)
       ∧ (∀ k v, dict_get k t = Some v → v = []).
Proof.
  intros Hrows. revert acc.
  induction Hrows as [|item row items rows [_ Hrow] _ IH]; intros acc Hnd Hblank.
  - exists acc. split; [done|]. split; [done|]. split; [|done].
    intros k. split; [auto|]. intros [?|(row & Hin & _)]; [done|].
    by apply elem_of_nil in Hin.
  - cbn. unfold rbind, create_lists at 1, rbind, rret. rewrite Hrow.
    destruct (blank_lists (dict_keys row.2) acc Hnd Hblank) as (Hnd1 & Hkeys1 & Hblank1).
    destruct (IH _ Hnd1 Hblank1) as (t & Hrun & Hnd2 & Hkeys2 & Hblank2).
    exists t. split; [done|]. split; [done|]. split; [|done].
    intros k. rewrite Hkeys2, Hkeys1. split.
    + intros [[?|?]|(r & Hin & Hk)]; [by left|right..].
      * exists row. split; [by left | done].
      * exists r. split; [by right | done].
    + intros [?|(r & Hin & Hk)]; [by left; left|].
      apply elem_of_cons in Hin as [->|Hin]; [by left; right|].
      right. by exists r.
Qed.

Lemma append_value_loop h props_dict d ks (t : dict (list val)) :
  as_dict props_dict h = Ok d →
  NoDup ks →
  (∀ k, k ∈ ks → k ∈ dict_keys t) →
  ∃ t', rfoldM (append_value props_dict) ks t h = Ok t'
        ∧ dict_keys t' = dict_keys t
        ∧ ∀ k, dict_get k t' =
               if decide (k ∈ ks)
               then (λ column, column ++ [default VNone (dict_get k d)]) <$> dict_get k t
               else dict_get k t.
Proof.
  intros Hd. revert t. induction ks as [|k0 ks IH]; intros t Hnd Hsub.
  - exists t. split; [done|]. split; [done|]. intros k.
    rewrite decide_False; [done | apply not_elem_of_nil].
  - apply NoDup_cons in Hnd as [Hk0 Hnd].
    assert (k0 ∈ dict_keys t) as Hin by (apply Hsub; by left).
    pose proof Hin as [column Hcol]%dict_keys_get.
    cbn. unfold rbind, append_value at 1, rbind, rlift, local_get, method_get, rbind, rret.
    rewrite Hcol, Hd.
    destruct (IH (dict_set k0 (column ++ [default VNone (dict_get k0 d)]) t))
      as (t' & Hrun & Hkeys & Hget); [done| |].
    { intros k Hk. apply dict_keys_set_elem. right. apply Hsub. by right. }
    exists t'. split; [done|]. split.
    { rewrite Hkeys, dict_keys_set. by rewrite decide_True. }
    intros k. rewrite Hget, dict_get_set.
    destruct (decide (k = k0)) as [->|Hne].
    + rewrite decide_False by done. rewrite decide_True by (by left).
      by rewrite Hcol.
    + destruct (decide (k ∈ ks)) as [Hks|Hks].
      * rewrite decide_True by (by right). done.
      * rewrite decide_False; [done|]. rewrite not_elem_of_cons. done.
Qed.

Lemma append_values_loop h ks items rows (t : dict (list val)) :
  label_rows h items rows →
  NoDup ks → KStr "index" ∉ ks →
  (∀ k, k ∈ ks → k ∈ dict_keys t) →
  KStr "index" ∈ dict_keys t →
  ∃ t', rfoldM (append_values ks) items t h = Ok t'
        ∧ dict_keys t' = dict_keys t
        ∧ (∀ k, k ∈ ks →
             dict_get k t' = (λ column, column ++ (cell k <$> rows)) <$> dict_get k t)
        ∧ dict_get (KStr "index") t'
          = (λ column, column ++ (key_val <$> rows.*1)) <$> dict_get (KStr "index") t.
Proof.
  intros Hrows Hnd Hindex. revert t.
  induction Hrows as [|item row items rows [Hid Hrow] _ IH]; intros t Hsub Hin.
  - exists t. split; [done|]. split; [done|]. split.
    + intros k _. destruct (dict_get k t); cbn; [by rewrite app_nil_r | done].
    + destruct (dict_get (KStr "index") t); cbn; [by rewrite app_nil_r | done].
  - pose proof Hin as [index Hidx]%dict_keys_get.
    cbn. unfold rbind, append_values at 1, rbind, rlift, local_get. rewrite Hidx.
    set (t1 := dict_set (KStr "index") (index ++ [key_val item.1]) t).
    assert (dict_keys t1 = dict_keys t) as Hkeys1.
    { unfold t1. rewrite dict_keys_set. by rewrite decide_True. }
    destruct (append_value_loop h item.2 row.2 ks t1 Hrow Hnd)
      as (t2 & Hrun2 & Hkeys2 & Hget2).
    { intros k Hk. rewrite Hkeys1. by apply Hsub. }
    rewrite Hrun2.
    destruct (IH t2) as (t' & Hrun & Hkeys & Hcols & Hidx').
    { intros k Hk. rewrite Hkeys2, Hkeys1. by apply Hsub. }
    { by rewrite Hkeys2, Hkeys1. }
    exists t'. split; [done|]. split; [congruence|]. split.
    + intros k Hk. rewrite (Hcols k Hk), Hget2. rewrite decide_True by done.
      unfold t1. rewrite dict_get_set.
      rewrite decide_False by (intros ->; done).
      destruct (dict_get k t); cbn; [|done].
      by rewrite <- app_assoc.
    + rewrite Hidx', Hget2. rewrite decide_False by done.
      unfold t1. rewrite dict_get_set. rewrite decide_True by done. cbn.
      by rewrite <- app_assoc, Hid.
Qed.

(** C6 (as amended): for a properties mapping none of whose labels has a
    property named 'index', the pivot returns a mapping whose keys are the
    property names of all labels and 'index'; a property maps to one
    element per label, in the order of the mapping, None where the label
    lacks the property, and 'index' maps to the label identifiers in that
    order.  For None it returns None. *)
Theorem properties_pivot h p items rows :
  h !! p = Some (ODict items) →
  label_rows h items rows →
  (∀ row, row ∈ rows → KStr "index" ∉ dict_keys row.2) →
  transform_properties VNone h = Ok None
  ∧ ∃ table,
      transform_properties (VRef p) h = Ok (Some table)
      ∧ NoDup (dict_keys table)
      ∧ (∀ k, k ∈ dict_keys table ↔
              k = KStr "index" ∨ ∃ row, row ∈ rows ∧ k ∈ dict_keys row.2)
      ∧ (∀ k, k ≠ KStr "index" → k ∈ dict_keys table →
              dict_get k table = Some (cell k <$> rows))
      ∧ dict_get (KStr "index") table = Some (key_val <$> rows.*1).
Proof.
  intros Hp Hrows Hnoindex. split; [done|].
  destruct (create_lists_loop h items rows [] Hrows) as (t & Hrun1 & Hnd & Hkeys & Hblank).
  { apply NoDup_nil_2. }
  { intros k v. done. }
  assert (KStr "index" ∉ dict_keys t) as Hfresh.
  { rewrite Hkeys. intros [Hin|(row & Hin & Hk)].
    - by apply elem_of_nil in Hin.
    - by apply (Hnoindex row). }
  set (t0 := dict_set (KStr "index") [] t).
  destruct (append_values_loop h (dict_keys t) items rows t0 Hrows Hnd Hfresh)
    as (table & Hrun2 & Hkeys2 & Hcols & Hidx).
  { intros k Hk. apply dict_keys_set_elem. by right. }
  { apply dict_keys_set_elem. by left. }
  exists table. split.
  { unfold transform_properties, rbind, as_dict. rewrite Hp, Hrun1.
    fold t0. by rewrite Hrun2. }
  split. { rewrite Hkeys2. by apply dict_keys_set_NoDup. }
  split.
  { intros k. rewrite Hkeys2. unfold t0. rewrite dict_keys_set_elem, Hkeys.
    rewrite elem_of_nil. tauto. }
  split.
  - intros k Hne Hk. rewrite Hkeys2 in Hk. unfold t0 in Hk.
    apply dict_keys_set_elem in Hk as [?|Hk]; [done|].
    rewrite (Hcols k Hk). unfold t0. rewrite dict_get_set.
    rewrite decide_False by done.
    pose proof Hk as [column Hcol]%dict_keys_get. rewrite Hcol.
    by rewrite (Hblank _ _ Hcol).
  - rewrite Hidx. unfold t0. rewrite dict_get_set. by rewrite decide_True.
Qed.

(** ** Copying the display fields *)

Lemma dict_has_get {V} k (d : dict V) :
  dict_has k d = match dict_get k d with Some _ => true | None => false end.
Proof.
  unfold dict_has. destruct (dict_get k d).
  - by rewrite bool_decide_eq_true_2.
  - rewrite bool_decide_eq_false_2; [done | by intros [? ?]].
Qed.

Lemma contains_dict h md d x :
  h !! md = Some (ODict d) → contains x (VRef md) h = Ok (dict_has (KStr x) d).
Proof. unfold contains. by intros ->. Qed.

Lemma subscript_dict h md d k :
  h !! md = Some (ODict d) →
  subscript (VRef md) k h =
  match dict_get k d with Some v => Ok v | None => Raise (KeyError k) end.
Proof. unfold subscript. by intros ->. Qed.

Lemma copy_first_item_run h md d x metadata :
  h !! md = Some (ODict d) →
  copy_first_item (VRef md) x metadata h =
  Ok match dict_get (KStr x) d with
     | Some v => match subscript v (KInt 0) h with
                 | Ok v0 => dict_set (KStr x) v0 metadata
                 | Raise _ => metadata
                 end
     | None => metadata
     end.
Proof.
  intros Hmd. unfold copy_first_item, rbind, rtry, rret.
  rewrite (contains_dict _ _ _ _ Hmd), dict_has_get.
  destruct (dict_get (KStr x) d) as [v|] eqn:Hx; [|done].
  unfold rbind. rewrite (subscript_dict _ _ _ _ Hmd), Hx.
  by destruct (subscript v (KInt 0) h).
Qed.


Lemma copy_first_item_loop h md d ks metadata :
  h !! md = Some (ODict d) → NoDup ks →
  ∃ out, rfoldM (copy_first_item (VRef md)) ks metadata h = Ok out
    ∧ ∀ x, dict_get (KStr x) out =
           if decide (x ∈ ks) then
             match dict_get (KStr x) d with
             | Some v =>
                 match subscript v (KInt 0) h with
                 | Ok v0 => Some v0
                 | Raise _ => dict_get (KStr x) metadata
                 end
             | None => dict_get (KStr x) metadata
             end
           else dict_get (KStr x) metadata.
Proof.
  intros Hmd. revert metadata. induction ks as [|x0 ks IH]; intros metadata Hnd.
  - exists metadata. split; [done|]. intros x.
    rewrite decide_False; [done | apply not_elem_of_nil].
  - apply NoDup_cons in Hnd as [Hx0 Hnd]. cbn.
    unfold rbind. rewrite (copy_first_item_run _ _ _ _ _ Hmd).
    set (step := match dict_get (KStr x0) d with
                 | Some v => match subscript v (KInt 0) h with
                             | Ok v0 => dict_set (KStr x0) v0 metadata
                             | Raise _ => metadata
                             end
                 | None => metadata
                 end).
    destruct (IH step Hnd) as (out & Hrun & Hget).
    exists out. split; [done|].
    intros x. rewrite Hget. destruct (decide (x = x0)) as [->|Hne].
    + rewrite decide_False by done. rewrite decide_True by (by left).
      unfold step. destruct (dict_get (KStr x0) d) as [v|]; [|done].
      destruct (subscript v (KInt 0) h); [|done].
      rewrite dict_get_set. by rewrite decide_True.
    + assert (dict_get (KStr x) step = dict_get (KStr x) metadata) as Hstep.
      { unfold step. destruct (dict_get (KStr x0) d) as [v|]; [|done].
        destruct (subscript v (KInt 0) h); [|done].
        rewrite dict_get_set. rewrite decide_False; [done | congruence]. }
      rewrite Hstep. destruct (decide (x ∈ ks)) as [Hks|Hks].
      * by rewrite decide_True by (by right).
      * rewrite decide_False; [done|]. by rewrite not_elem_of_cons.
Qed.


Lemma METADATA_KEYS_NoDup : NoDup METADATA_KEYS.
Proof. apply (bool_decide_unpack _). by vm_compute. Qed.


(** ** The geometry extractor *)

Lemma frame_refl P h : frame P h h.
Proof. by split. Qed.

Lemma frame_trans P h1 h2 h3 : frame P h1 h2 → frame P h2 h3 → frame P h1 h3.
Proof.
  intros [Hlen1 Hkeep1] [Hlen2 Hkeep2]. split; [lia|].
  intros l Hl HP. rewrite Hkeep2 by (done || lia). by apply Hkeep1.
Qed.

Lemma frame_mono P Q h h' :
  (∀ l, l ∈ P → l ∈ Q) → frame P h h' → frame Q h h'.
Proof. intros Hsub [Hlen Hkeep]. split; [done|]. intros l Hl HQ. apply Hkeep; auto. Qed.

Lemma frame_lookup P h h' l o :
  frame P h h' → h !! l = Some o → l ∉ P → h' !! l = Some o.
Proof.
  intros [_ Hkeep] Hl HP. rewrite Hkeep; [done| |done].
  by eapply lookup_lt_Some.
Qed.

Lemma method_pop_list la xs i s :
  st_heap s !! la = Some (OList xs) → i < length xs →
  method_pop (VRef la) i s
  = (Ok tt, set_heap (<[la := OList (delete i xs)]> (st_heap s)) s).
Proof.
  intros Hla Hi. unfold method_pop, store. rewrite Hla.
  by rewrite bool_decide_eq_true_2.
Qed.

Lemma py_tuple_list la xs s :
  st_heap s !! la = Some (OList xs) →
  py_tuple (VRef la) s
  = (Ok (VRef (length (st_heap s))), set_heap (st_heap s ++ [OTuple xs]) s).
Proof. intros Hla. unfold py_tuple. by rewrite Hla. Qed.

Lemma field_step field target c le de metadata s :
  st_heap s !! le = Some (ODict de) →
  (∀ v, dict_get (KStr field) de = Some v →
     ∃ la xs, v = VRef la ∧ st_heap s !! la = Some (OList xs)
              ∧ ∀ i, c = Some i → i < length xs) →
  ∃ metadata' s',
    transform_scale_field field target c (VRef le) metadata s = (Ok metadata', s')
    ∧ (∀ k, k ≠ KStr target → dict_get k metadata' = dict_get k metadata)
    ∧ match dict_get (KStr field) de with
      | Some v =>
          ∃ la xs, v = VRef la ∧ st_heap s !! la = Some (OList xs)
            ∧ frame (match c with Some _ => [la] | None => [] end) (st_heap s) (st_heap s')
            ∧ dict_get (KStr target) metadata' = Some (VRef (length (st_heap s)))
            ∧ st_heap s' !! length (st_heap s) = Some (OTuple (drop_channel c xs))
      | None => metadata' = metadata ∧ s' = s
      end.
Proof.
  intros Hle Hwf. unfold transform_scale_field.
  rewrite (bind_run _ _ s (dict_has (KStr field) de) s)
    by (unfold read; by rewrite (contains_dict _ _ _ _ Hle)).
  rewrite dict_has_get.
  destruct (dict_get (KStr field) de) as [v|] eqn:Hfield.
  2: { exists metadata, s. unfold ret. by repeat split. }
  destruct (Hwf v eq_refl) as (la & xs & -> & Hla & Hrange).
  rewrite (bind_run _ _ s (VRef la) s)
    by (unfold read; by rewrite (subscript_dict _ _ _ _ Hle), Hfield).
  pose proof (lookup_lt_Some _ _ _ Hla) as Hlt.
  destruct c as [i|].
  - rewrite (bind_run _ _ _ _ _ (method_pop_list _ _ _ _ Hla (Hrange i eq_refl))).
    set (s1 := set_heap (<[la:=OList (delete i xs)]> (st_heap s)) s).
    assert (st_heap s1 !! la = Some (OList (delete i xs))) as Hla1.
    { unfold s1. cbn. by apply list_lookup_insert_eq. }
    rewrite (bind_run _ _ _ _ _ (py_tuple_list _ _ _ Hla1)).
    assert (length (st_heap s1) = length (st_heap s)) as Hlen1.
    { unfold s1. cbn. apply length_insert. }
    eexists _, _. split; [reflexivity|]. split.
    { intros k Hk. rewrite dict_get_set. by rewrite decide_False. }
    exists la, xs. split; [done|]. split; [done|]. split; [|split].
    + split; [cbn [st_heap set_heap]; rewrite length_app; lia|].
      intros l Hl Hnot. cbn [st_heap set_heap]. rewrite lookup_app_l by lia.
      unfold s1. cbn [st_heap set_heap].
      apply list_lookup_insert_ne. intros ->. apply Hnot. by left.
    + rewrite dict_get_set, Hlen1. by rewrite decide_True.
    + cbn [st_heap set_heap]. rewrite lookup_app_r by lia.
      by rewrite Hlen1, Nat.sub_diag.
  - rewrite (bind_run _ _ s tt s) by done.
    rewrite (bind_run _ _ _ _ _ (py_tuple_list _ _ _ Hla)).
    eexists _, _. split; [reflexivity|]. split.
    { intros k Hk. rewrite dict_get_set. by rewrite decide_False. }
    exists la, xs. split; [done|]. split; [done|]. split; [|split].
    + split; [cbn [st_heap set_heap]; rewrite length_app; lia|].
      intros l Hl _. cbn [st_heap set_heap]. by rewrite lookup_app_l.
    + rewrite dict_get_set. by rewrite decide_True.
    + cbn [st_heap set_heap]. rewrite lookup_app_r by lia.
      by rewrite Nat.sub_diag.
Qed.

Lemma transform_scale_step_run c e metadata s :
  well_formed_transform (st_heap s) c e →
  (is_Some c → NoDup (entry_arrays (st_heap s) e)) →
  ∃ metadata' s',
    transform_scale_step c e metadata s = (Ok metadata', s')
    ∧ frame (match c with Some _ => entry_arrays (st_heap s) e | None => [] end)
            (st_heap s) (st_heap s')
    ∧ (∀ k, k ≠ KStr "scale" → k ≠ KStr "translate" →
         dict_get k metadata' = dict_get k metadata)
    ∧ ∀ field target,
        (field, target) ∈ [("scale", "scale"); ("translation", "translate")] →
        match transform_array (st_heap s) field e with
        | Some (_, xs) =>
            tuple_at (st_heap s') metadata' target = Some (drop_channel c xs)
        | None =>
            dict_get (KStr target) metadata' = dict_get (KStr target) metadata
        end.
Proof.
  intros (le & de & -> & Hle & Hwf) Hdisj.
  assert (Hscale : ∀ v, dict_get (KStr "scale") de = Some v →
            ∃ la xs, v = VRef la ∧ st_heap s !! la = Some (OList xs)
                     ∧ ∀ i, c = Some i → i < length xs).
  { intros v. apply Hwf. by left. }
  assert (Htrans : ∀ v, dict_get (KStr "translation") de = Some v →
            ∃ la xs, v = VRef la ∧ st_heap s !! la = Some (OList xs)
                     ∧ ∀ i, c = Some i → i < length xs).
  { intros v. apply Hwf. right. by left. }
  assert (Hpairs : ∀ (Q : string → string → Prop),
            Q "scale" "scale" → Q "translation" "translate" →
            ∀ field target,
              (field, target) ∈ [("scale", "scale"); ("translation", "translate")] →
              Q field target).
  { intros Q Hs Ht field target Hin.
    apply elem_of_cons in Hin as [[= -> ->]|Hin]; [done|].
    by apply list_elem_of_singleton in Hin as [= -> ->]. }
  unfold transform_scale_step, entry_arrays in *. cbn [omap list_omap] in *.
  unfold transform_array in *. rewrite Hle in Hdisj |- *.
  destruct (field_step "scale" "scale" c le de metadata s Hle Hscale)
    as (md1 & s1 & Hrun1 & Hother1 & Hout1).
  rewrite (bind_run _ _ _ _ _ Hrun1).
  destruct (dict_get (KStr "scale") de) as [vs|] eqn:Hsc.
  - destruct Hout1 as (la & xs & -> & Hla & Hframe1 & Hget1 & Htuple1).
    rewrite Hla in Hdisj |- *. cbn [fmap option_fmap option_map fst] in Hdisj |- *.
    assert (st_heap s1 !! le = Some (ODict de)) as Hle1.
    { eapply frame_lookup; [done..|]. destruct c; [|apply not_elem_of_nil].
      intros ->%list_elem_of_singleton. congruence. }
    destruct (dict_get (KStr "translation") de) as [vt|] eqn:Htr.
    + destruct (Htrans vt eq_refl) as (lb & ys & -> & Hlb & Hrange).
      rewrite Hlb in Hdisj |- *. cbn [fmap option_fmap option_map fst] in Hdisj |- *.
      assert (is_Some c → la ≠ lb) as Hne.
      { intros Hc Heq. specialize (Hdisj Hc).
        apply NoDup_cons in Hdisj as [Hnot _]. apply Hnot. subst. by left. }
      assert (st_heap s1 !! lb = Some (OList ys)) as Hlb1.
      { eapply frame_lookup; [done..|]. destruct c; [|apply not_elem_of_nil].
        intros ->%list_elem_of_singleton. by apply Hne. }
      destruct (field_step "translation" "translate" c le de md1 s1 Hle1)
        as (md2 & s2 & Hrun2 & Hother2 & Hout2).
      { intros v. rewrite Htr. intros [= <-]. eauto. }
      rewrite Htr in Hout2.
      destruct Hout2 as (lb' & ys' & [= <-] & Hlb' & Hframe2 & Hget2 & Htuple2).
      assert (ys' = ys) as -> by congruence.
      exists md2, s2. split; [done|]. split; [|split].
      * eapply frame_trans; (eapply frame_mono; [|done]).
        -- intros l Hl. destruct c; [|done].
           apply list_elem_of_singleton in Hl as ->. by left.
        -- intros l Hl. destruct c; [|done].
           apply list_elem_of_singleton in Hl as ->. right. by left.
      * intros k Hk1 Hk2. by rewrite Hother2, Hother1.
      * apply Hpairs.
        -- rewrite Hsc, Hla. unfold tuple_at. rewrite Hother2 by done.
           rewrite Hget1.
           rewrite (frame_lookup _ _ _ _ _ Hframe2 Htuple1); [done|].
           pose proof (lookup_lt_Some _ _ _ Hlb).
           destruct c; [|apply not_elem_of_nil].
           intros ?%list_elem_of_singleton. lia.
        -- rewrite Htr, Hlb. unfold tuple_at. by rewrite Hget2, Htuple2.
    + destruct (field_step "translation" "translate" c le de md1 s1 Hle1)
        as (md2 & s2 & Hrun2 & Hother2 & Hout2).
      { intros v. by rewrite Htr. }
      rewrite Htr in Hout2. destruct Hout2 as [-> ->].
      exists md1, s1. split; [done|]. split; [|split].
      * done.
      * intros k Hk1 Hk2. by rewrite Hother1.
      * apply Hpairs.
        -- rewrite Hsc, Hla. unfold tuple_at. by rewrite Hget1, Htuple1.
        -- rewrite Htr. by rewrite Hother1.
  - destruct Hout1 as [-> ->].
    destruct (field_step "translation" "translate" c le de metadata s Hle Htrans)
      as (md2 & s2 & Hrun2 & Hother2 & Hout2).
    destruct (dict_get (KStr "translation") de) as [vt|] eqn:Htr.
    + destruct Hout2 as (lb & ys & -> & Hlb & Hframe2 & Hget2 & Htuple2).
      rewrite Hlb. cbn [fmap option_fmap option_map fst].
      exists md2, s2. split; [done|]. split; [done|]. split.
      * intros k Hk1 Hk2. by rewrite Hother2.
      * apply Hpairs.
        -- rewrite Hsc. by rewrite Hother2.
        -- rewrite Htr, Hlb. unfold tuple_at. by rewrite Hget2, Htuple2.
    + destruct Hout2 as [-> ->].
      exists metadata, s. split; [done|]. split; [|split].
      * destruct c; apply frame_refl.
      * done.
      * apply Hpairs; [by rewrite Hsc | by rewrite Htr].
Qed.

Lemma transform_array_Some h field e la xs :
  transform_array h field e = Some (la, xs) →
  h !! la = Some (OList xs)
  ∧ ∃ le de, e = VRef le ∧ h !! le = Some (ODict de)
             ∧ dict_get (KStr field) de = Some (VRef la).
Proof.
  unfold transform_array. destruct e as [| | | | |le]; try done.
  destruct (h !! le) as [[de| | | | | |]|] eqn:Hle; try done.
  destruct (dict_get (KStr field) de) as [[| | | | |la']|] eqn:Hfield; try done.
  destruct (h !! la') as [[|xs'| | | | |]|] eqn:Hla; try done.
  intros [= -> ->]. split; [done|]. by exists le, de.
Qed.

Lemma entry_arrays_elem h e la :
  la ∈ entry_arrays h e ↔
  ∃ field xs, field ∈ ["scale"; "translation"]
              ∧ transform_array h field e = Some (la, xs).
Proof.
  unfold entry_arrays. rewrite list_elem_of_omap. split.
  - intros (field & Hfield & Hla).
    destruct (transform_array h field e) as [[la' xs]|] eqn:Harr; [|done].
    injection Hla as ->. by exists field, xs.
  - intros (field & xs & Hfield & Harr). exists field. by rewrite Harr.
Qed.

Lemma entry_arrays_list h e la :
  la ∈ entry_arrays h e → ∃ xs, h !! la = Some (OList xs).
Proof.
  intros (field & xs & _ & Harr)%entry_arrays_elem.
  exists xs. by apply transform_array_Some in Harr as [? _].
Qed.

(** A transform that shares nothing with the arrays of [P] reads the same
    before and after they are written. *)
Lemma transform_kept P h h1 c e :
  frame P h h1 →
  well_formed_transform h c e →
  (∀ l, l ∈ P → ∃ xs, h !! l = Some (OList xs)) →
  (∀ l, l ∈ entry_arrays h e → l ∉ P) →
  well_formed_transform h1 c e
  ∧ ∀ field, field ∈ ["scale"; "translation"] →
      transform_array h1 field e = transform_array h field e.
Proof.
  intros Hframe (le & de & -> & Hle & Hwf) Hlists Hdisj.
  assert (h1 !! le = Some (ODict de)) as Hle1.
  { eapply frame_lookup; [done..|]. intros [xs Hxs]%Hlists. congruence. }
  assert (∀ field v, field ∈ ["scale"; "translation"] →
            dict_get (KStr field) de = Some v →
            ∃ la xs, v = VRef la ∧ h !! la = Some (OList xs)
                     ∧ h1 !! la = Some (OList xs)
                     ∧ ∀ i, c = Some i → i < length xs) as Hboth.
  { intros field v Hfield Hv.
    destruct (Hwf field v Hfield Hv) as (la & xs & -> & Hla & Hrange).
    exists la, xs. repeat split; [done| |done].
    eapply frame_lookup; [done..|]. apply Hdisj.
    apply entry_arrays_elem. exists field, xs. split; [done|].
    unfold transform_array. by rewrite Hle, Hv, Hla. }
  split.
  - exists le, de. split; [done|]. split; [done|].
    intros field v Hfield Hv.
    destruct (Hboth field v Hfield Hv) as (la & xs & -> & _ & Hla1 & Hrange).
    by exists la, xs.
  - intros field Hfield. unfold transform_array. rewrite Hle, Hle1.
    destruct (dict_get (KStr field) de) as [v|] eqn:Hv; [|done].
    destruct (Hboth field v Hfield Hv) as (la & xs & -> & Hla & Hla1 & _).
    by rewrite Hla, Hla1.
Qed.

Lemma omap_ext_in {A B} (f g : A → option B) (l : list A) :
  (∀ x, x ∈ l → f x = g x) → omap f l = omap g l.
Proof.
  induction l as [|x l IH]; intros Hext; [done|]. cbn.
  rewrite (Hext x) by (by left).
  rewrite IH; [done|]. intros y Hy. apply Hext. by right.
Qed.

Lemma tuple_at_Some h metadata k xs :
  tuple_at h metadata k = Some xs →
  ∃ t, dict_get (KStr k) metadata = Some (VRef t) ∧ h !! t = Some (OTuple xs).
Proof.
  unfold tuple_at.
  destruct (dict_get (KStr k) metadata) as [[| | | | |t]|]; try done.
  destruct (h !! t) as [[| |xs'| | | |]|] eqn:Ht; try done.
  intros [= ->]. by exists t.
Qed.

Lemma for_list_cons {T} n l0 i (body : nat → val → T → M T) acc s xs x :
  st_heap s !! l0 = Some (OList xs) → xs !! i = Some x →
  for_list (S n) l0 i body acc s
  = (let! acc' := body i x acc in for_list n l0 (S i) body acc') s.
Proof. intros Hl0 Hx. cbn. by rewrite Hl0, Hx. Qed.

Lemma last_array_cons h field e rest :
  last_array h field (e :: rest) =
  match last_array h field rest with
  | Some xs => Some xs
  | None => snd <$> transform_array h field e
  end.
Proof.
  unfold last_array. cbn.
  destruct (transform_array h field e) as [[la xs]|]; cbn.
  - apply last_cons.
  - by destruct (last _).
Qed.

Lemma transform_scale_loop c l0 rest : ∀ done metadata s,
  st_heap s !! l0 = Some (OList (done ++ rest)) →
  Forall (well_formed_transform (st_heap s) c) rest →
  (is_Some c → NoDup (l0 :: array_locs (st_heap s) rest)) →
  (∀ k v, dict_get k metadata = Some v →
     ∃ t ys, v = VRef t ∧ st_heap s !! t = Some (OTuple ys)) →
  ∃ metadata' s',
    for_list (length rest) l0 (length done) (λ _, transform_scale_step c) metadata s
    = (Ok metadata', s')
    ∧ ∀ field target,
        (field, target) ∈ [("scale", "scale"); ("translation", "translate")] →
        match last_array (st_heap s) field rest with
        | Some xs =>
            tuple_at (st_heap s') metadata' target = Some (drop_channel c xs)
        | None =>
            dict_get (KStr target) metadata' = dict_get (KStr target) metadata
            ∧ tuple_at (st_heap s') metadata' target
              = tuple_at (st_heap s) metadata target
        end.
Proof.
  induction rest as [|e rest IH]; intros done metadata s Hl0 Hwf Hdisj Hmd.
  { exists metadata, s. split; [done|]. by intros field target _. }
  apply Forall_cons in Hwf as [Hwe Hwf].
  set (P := match c with Some _ => entry_arrays (st_heap s) e | None => [] end).
  assert (HPlist : ∀ l, l ∈ P → ∃ xs, st_heap s !! l = Some (OList xs)).
  { unfold P. destruct c; [apply entry_arrays_list|].
    intros l Hl. by apply elem_of_nil in Hl. }
  assert (Hnd_e : is_Some c → NoDup (entry_arrays (st_heap s) e)).
  { intros Hc. specialize (Hdisj Hc). apply NoDup_cons in Hdisj as [_ Hnd].
    unfold array_locs in Hnd. rewrite bind_cons in Hnd.
    by apply NoDup_app in Hnd as [? _]. }
  destruct (transform_scale_step_run c e metadata s Hwe Hnd_e)
    as (md1 & s1 & Hrun1 & Hframe & Hother & Hout).
  fold P in Hframe.
  assert (Hl0P : l0 ∉ P).
  { unfold P. destruct c; [|apply not_elem_of_nil].
    specialize (Hdisj (ltac:(eauto))). apply NoDup_cons in Hdisj as [Hnot _].
    intros Hin. apply Hnot. unfold array_locs. rewrite bind_cons.
    apply elem_of_app. by left. }
  assert (Hrest : ∀ e', e' ∈ rest → ∀ l, l ∈ entry_arrays (st_heap s) e' → l ∉ P).
  { intros e' He' l Hl. unfold P. destruct c; [|apply not_elem_of_nil].
    specialize (Hdisj (ltac:(eauto))). apply NoDup_cons in Hdisj as [_ Hnd].
    unfold array_locs in Hnd. rewrite bind_cons in Hnd.
    apply NoDup_app in Hnd as (_ & Hdis & _).
    intros Hin. apply (Hdis l Hin). apply list_elem_of_bind. by exists e'. }
  assert (Hkept : ∀ e', e' ∈ rest →
            well_formed_transform (st_heap s1) c e'
            ∧ ∀ field, field ∈ ["scale"; "translation"] →
                transform_array (st_heap s1) field e'
                = transform_array (st_heap s) field e').
  { intros e' He'. eapply transform_kept; [done| |done|by apply Hrest].
    by eapply Forall_forall in Hwf. }
  assert (Harrays : ∀ e', e' ∈ rest →
            entry_arrays (st_heap s1) e' = entry_arrays (st_heap s) e').
  { intros e' He'. unfold entry_arrays. apply omap_ext_in.
    intros field Hfield. by rewrite (proj2 (Hkept e' He') field Hfield). }
  assert (Hlast : ∀ field, field ∈ ["scale"; "translation"] →
            last_array (st_heap s1) field rest = last_array (st_heap s) field rest).
  { intros field Hfield. unfold last_array. f_equal. apply omap_ext_in.
    intros e' He'. by rewrite (proj2 (Hkept e' He') field Hfield). }
  assert (Htuples : ∀ t ys, st_heap s !! t = Some (OTuple ys) →
            st_heap s1 !! t = Some (OTuple ys)).
  { intros t ys Ht. eapply frame_lookup; [done..|].
    intros [xs Hxs]%HPlist. congruence. }
  assert (Hfields : ∀ field target,
            (field, target) ∈ [("scale", "scale"); ("translation", "translate")] →
            field ∈ ["scale"; "translation"]
            ∧ (target = "scale" ∨ target = "translate")).
  { intros field target Hin.
    apply elem_of_cons in Hin as [[= -> ->]|Hin]; [split; [by left | by left]|].
    apply list_elem_of_singleton in Hin as [= -> ->].
    split; [right; by left | by right]. }
  destruct (IH (done ++ [e]) md1 s1) as (md' & s' & Hrun & Hfinal).
  { rewrite <- app_assoc. by eapply frame_lookup. }
  { apply Forall_forall. intros e' He'. by apply Hkept. }
  { intros Hc. specialize (Hdisj Hc).
    apply NoDup_cons in Hdisj as [Hnot Hnd]. apply NoDup_cons.
    unfold array_locs in *. rewrite bind_cons in Hnot, Hnd.
    rewrite (Forall_bind_ext _ (entry_arrays (st_heap s)) rest)
      by (apply Forall_forall; intros; by apply Harrays).
    split.
    - intros Hin. apply Hnot, elem_of_app. by right.
    - by apply NoDup_app in Hnd as (_ & _ & ?). }
  { intros k v Hv.
    destruct (decide (k = KStr "scale")) as [->|Hk1];
      [|destruct (decide (k = KStr "translate")) as [->|Hk2]].
    - specialize (Hout "scale" "scale" ltac:(by left)).
      destruct (transform_array (st_heap s) "scale" e) as [[la xs]|].
      + apply tuple_at_Some in Hout as (t & Ht & Htup).
        rewrite Ht in Hv. injection Hv as <-. eauto.
      + rewrite Hout in Hv. destruct (Hmd _ _ Hv) as (t & ys & -> & Ht). eauto.
    - specialize (Hout "translation" "translate" ltac:(right; by left)).
      destruct (transform_array (st_heap s) "translation" e) as [[la xs]|].
      + apply tuple_at_Some in Hout as (t & Ht & Htup).
        rewrite Ht in Hv. injection Hv as <-. eauto.
      + rewrite Hout in Hv. destruct (Hmd _ _ Hv) as (t & ys & -> & Ht). eauto.
    - rewrite Hother in Hv by done.
      destruct (Hmd _ _ Hv) as (t & ys & -> & Ht). eauto. }
  exists md', s'. split.
  { cbn [length].
    rewrite (for_list_cons _ _ _ _ _ _ (done ++ e :: rest) e Hl0)
      by (by rewrite list_lookup_middle).
    rewrite (bind_run _ _ _ _ _ Hrun1).
    by rewrite length_app, Nat.add_1_r in Hrun. }
  intros field target Hin. destruct (Hfields _ _ Hin) as [Hfield Htarget].
  specialize (Hfinal field target Hin). specialize (Hout field target Hin).
  rewrite (Hlast field Hfield) in Hfinal. rewrite last_array_cons.
  destruct (last_array (st_heap s) field rest) as [xs|]; [done|].
  destruct Hfinal as [Hget Htup].
  destruct (transform_array (st_heap s) field e) as [[la xs]|]; cbn.
  - by rewrite Htup.
  - split; [congruence|]. rewrite Htup. unfold tuple_at. rewrite Hout.
    destruct (dict_get (KStr target) metadata) as [v|] eqn:Hv; [|done].
    destruct (Hmd _ _ Hv) as (t & ys & -> & Ht).
    by rewrite Ht, (Htuples _ _ Ht).
Qed.

(** C4: for node metadata whose coordinateTransformations hold, at the
    first level, transforms with a 'scale' (respectively 'translation')
    array, [transform_scale] stores that array (of the last transform that
    has one) as a tuple, without the entry at the channel axis when a
    channel axis is given; without coordinateTransformations, or without
    scale (translation) in them, the output has no scale (translate) and
    nothing is raised. *)
Theorem transform_scale_extracts s md d c :
  st_heap s !! md = Some (ODict d) →
  (dict_get (KStr "coordinateTransformations") d = None →
     transform_scale (VRef md) [] c s = (Ok [], s))
  ∧ ∀ cts l0 others entries,
      dict_get (KStr "coordinateTransformations") d = Some (VRef cts) →
      st_heap s !! cts = Some (OList (VRef l0 :: others)) →
      st_heap s !! l0 = Some (OList entries) →
      Forall (well_formed_transform (st_heap s) c) entries →
      (is_Some c → NoDup (l0 :: array_locs (st_heap s) entries)) →
      ∃ metadata s',
        transform_scale (VRef md) [] c s = (Ok metadata, s')
        ∧ ∀ field target,
            (field, target) ∈ [("scale", "scale"); ("translation", "translate")] →
            match last_array (st_heap s) field entries with
            | Some xs =>
                tuple_at (st_heap s') metadata target = Some (drop_channel c xs)
            | None => dict_get (KStr target) metadata = None
            end.
Proof.
  intros Hmd. split.
  - intros Habsent. unfold transform_scale.
    rewrite (bind_run _ _ s false s); [done|].
    unfold read. by rewrite (contains_dict _ _ _ _ Hmd), dict_has_get, Habsent.
  - intros cts l0 others entries Hcts Hlevels Hl0 Hwf Hdisj.
    destruct (transform_scale_loop c l0 entries [] [] s Hl0 Hwf Hdisj)
      as (metadata & s' & Hrun & Hout); [done|].
    exists metadata, s'. split.
    + unfold transform_scale.
      rewrite (bind_run _ _ s true s)
        by (unfold read; by rewrite (contains_dict _ _ _ _ Hmd), dict_has_get, Hcts).
      rewrite (bind_run _ _ s (VRef cts) s)
        by (unfold read; by rewrite (subscript_dict _ _ _ _ Hmd), Hcts).
      rewrite (bind_run _ _ s (VRef l0) s)
        by (unfold read, subscript; by rewrite Hlevels).
      unfold for_each. by rewrite Hl0.
    + intros field target Hin. specialize (Hout field target Hin).
      destruct (last_array (st_heap s) field entries); [done|].
      by destruct Hout as [-> _].
Qed.

(** ** What the reader leaves as it was *)





Lemma keeps_log h0 lvl msg : keeps h0 (log_msg lvl msg) (λ _, True).
Proof. intros s Hs. by split. Qed.



















(** * Further properties of the reader *)

(** ** The axes *)

Lemma str_eq_true s v : str_eq s v = true ↔ v = VStr s.
Proof.
  destruct v; cbn; try (split; [done | discriminate]).
  rewrite bool_decide_eq_true. split; [by intros -> | by intros [= ->]].
Qed.

Lemma rmapM_Forall2 {A B} (f : A → heap → outcome B) xs ys h :
  Forall2 (λ x y, f x h = Ok y) xs ys → rmapM f xs h = Ok ys.
Proof.
  induction 1 as [|x y xs ys Hx _ IH]; [done|].
  cbn. unfold rbind. by rewrite Hx, IH.
Qed.

(** The channel axis is the first axis of type "channel": later ones are
    not looked at. *)
Theorem channel_axis_is_first_channel h md d axes descs ch_types :
  h !! md = Some (ODict d) →
  dict_get (KStr "axes") d = Some (VRef axes) →
  h !! axes = Some (OList descs) →
  Forall2 (λ desc t, subscript desc (KStr "type") h = Ok t) descs ch_types →
  ∃ r, read_channel_axis (VRef md) h = Ok r
       ∧ match r with
         | Some c =>
             ch_types !! c = Some (VStr "channel")
             ∧ ∀ j t, j < c → ch_types !! j = Some t → t ≠ VStr "channel"
         | None => ∀ t, t ∈ ch_types → t ≠ VStr "channel"
         end.
Proof.
  intros Hmd Haxes Hdescs Htypes.
  unfold read_channel_axis, rbind. rewrite (subscript_dict _ _ _ _ Hmd), Haxes.
  unfold iterate. rewrite Hdescs.
  rewrite (rmapM_Forall2 _ _ _ _ Htypes).
  destruct (list_find (λ t, str_eq "channel" t = true) ch_types) as [[c t]|] eqn:Hfind.
  - apply list_find_Some in Hfind as (Hc & Ht & Hfirst).
    apply str_eq_true in Ht as ->.
    assert (existsb (str_eq "channel") ch_types = true) as ->.
    { apply existsb_exists. exists (VStr "channel"). split; [|by apply str_eq_true].
      apply list_elem_of_In. by eapply list_elem_of_lookup_2. }
    exists (Some c). split; [done|]. split; [done|].
    intros j t Hj Ht ->. by apply (Hfirst j (VStr "channel") Ht Hj), str_eq_true.
  - assert (∀ t, t ∈ ch_types → t ≠ VStr "channel") as Hnone.
    { intros t Ht ->. apply list_find_None in Hfind.
      eapply Forall_forall in Hfind; [|done]. by apply Hfind, str_eq_true. }
    assert (existsb (str_eq "channel") ch_types = false) as ->.
    { apply not_true_is_false. intros (t & Hin & Ht)%existsb_exists.
      apply str_eq_true in Ht as ->. apply list_elem_of_In in Hin. by apply (Hnone (VStr "channel")). }
    by exists None.
Qed.

Lemma get_axis_dict h l dd :
  h !! l = Some (ODict dd) →
  get_axis (VRef l) h =
  match dict_get (KStr "name") dd with
  | None => Raise (KeyError (KStr "name"))
  | Some name =>
      Ok (if str_eq "time" (descriptor_type dd)
          then Some (TimeAxis name (TimeUnits_from_name (descriptor_unit dd)))
          else if negb (is_channel dd)
          then Some (SpaceAxis name (SpaceUnits_from_name (descriptor_unit dd)))
          else None)
  end.
Proof.
  intros Hl. unfold get_axis, rbind. rewrite (subscript_dict _ _ _ _ Hl).
  destruct (dict_get (KStr "name") dd) as [name|]; [|done].
  unfold method_get, rbind, as_dict, rret. rewrite Hl.
  unfold is_channel, descriptor_type, descriptor_unit. unfold default.
  destruct (str_eq "time" _); [done|]. by destruct (str_eq "channel" _).
Qed.

Lemma classify_loop h descs dds : ∀ acc,
  descriptors h descs dds →
  Forall (λ dd, is_Some (dict_get (KStr "name") dd)) dds →
  ∃ axes,
    rfoldM (λ a axes,
              let? axis := get_axis a in
              rret (match axis with Some axis => axes ++ [axis] | None => axes end))
           descs acc h = Ok (acc ++ axes)
    ∧ Forall2 axis_of (filter (λ dd, is_channel dd = false) dds) axes.
Proof.
  intros acc Hdescs. revert acc.
  induction Hdescs as [|v dd descs dds (l & -> & Hl) _ IH]; intros acc Hnames.
  - exists []. split; [by rewrite app_nil_r | constructor].
  - apply Forall_cons in Hnames as [[name Hname] Hnames].
    cbn [rfoldM]. unfold rbind at 1 2. rewrite (get_axis_dict _ _ _ Hl), Hname.
    unfold rret at 1.
    destruct (str_eq "time" (descriptor_type dd)) eqn:Htime.
    + assert (is_channel dd = false) as Hch.
      { apply str_eq_true in Htime. unfold is_channel. by rewrite Htime. }
      destruct (IH (acc ++ [TimeAxis name (TimeUnits_from_name (descriptor_unit dd))])
                  Hnames) as (axes & Hrun & Haxes).
      eexists (_ :: axes). split; [by rewrite Hrun, <- app_assoc|].
      rewrite filter_cons_True by done. constructor; [|done].
      exists name. by rewrite Htime.
    + destruct (is_channel dd) eqn:Hch; cbn [negb].
      * destruct (IH acc Hnames) as (axes & Hrun & Haxes).
        exists axes. split; [done|]. by rewrite filter_cons_False by congruence.
      * destruct (IH (acc ++ [SpaceAxis name (SpaceUnits_from_name (descriptor_unit dd))])
                    Hnames) as (axes & Hrun & Haxes).
        eexists (_ :: axes). split; [by rewrite Hrun, <- app_assoc|].
        rewrite filter_cons_True by done. constructor; [|done].
        exists name. by rewrite Htime.
Qed.

(** [get_axes] builds one axis per descriptor that is not of type
    "channel", in the order of the descriptors: a time axis for type
    "time", a space axis for every other type or none, each with the name
    of its descriptor and the unit resolved from its unit, "none" when it
    has no unit. *)
Theorem classify_axes_in_order h md d axes_loc descs dds :
  h !! md = Some (ODict d) →
  dict_get (KStr "axes") d = Some (VRef axes_loc) →
  h !! axes_loc = Some (OList descs) →
  descriptors h descs dds →
  Forall (λ dd, is_Some (dict_get (KStr "name") dd)) dds →
  ∃ axes,
    classify_axes (VRef md) h = Ok axes
    ∧ Forall2 axis_of (filter (λ dd, is_channel dd = false) dds) axes
    ∧ length axes + length (filter (λ dd, is_channel dd = true) dds) = length descs.
Proof.
  intros Hmd Haxes Hdescs Hdds Hnames.
  destruct (classify_loop h descs dds [] Hdds Hnames) as (axes & Hrun & Hof).
  exists axes. split; [|split; [done|]].
  - unfold classify_axes, rbind. rewrite (subscript_dict _ _ _ _ Hmd), Haxes.
    unfold iterate. by rewrite Hdescs.
  - rewrite <- (Forall2_length _ _ _ Hof), (Forall2_length _ _ _ Hdds).
    clear. induction dds as [|dd dds IH]; [done|].
    destruct (is_channel dd) eqn:Hch.
    + rewrite filter_cons_False, filter_cons_True by congruence. cbn. lia.
    + rewrite filter_cons_True, filter_cons_False by congruence. cbn. lia.
Qed.

Lemma classify_loop_nameless h descs dds i dd : ∀ acc,
  descriptors h descs dds →
  dds !! i = Some dd →
  dict_get (KStr "name") dd = None →
  (∀ j dd', j < i → dds !! j = Some dd' → is_Some (dict_get (KStr "name") dd')) →
  rfoldM (λ a axes,
            let? axis := get_axis a in
            rret (match axis with Some axis => axes ++ [axis] | None => axes end))
         descs acc h = Raise (KeyError (KStr "name")).
Proof.
  intros acc Hdescs. revert i acc.
  induction Hdescs as [|v dd0 descs dds (l & -> & Hl) _ IH]; intros i acc Hi Hname Hbefore.
  - done.
  - cbn [rfoldM]. unfold rbind at 1 2. rewrite (get_axis_dict _ _ _ Hl).
    destruct i as [|i]; cbn in Hi.
    + injection Hi as ->. by rewrite Hname.
    + destruct (Hbefore 0 dd0 ltac:(lia) eq_refl) as [name ->].
      unfold rret at 1.
      eapply IH; [done..|]. intros j dd' Hj. apply (Hbefore (S j)). lia.
Qed.

(** A descriptor without a name makes [get_axes] raise KeyError('name');
    nothing is logged and no warning is given for it. *)
Theorem nameless_axis_raises s md d axes_loc descs dds i dd :
  st_heap s !! md = Some (ODict d) →
  dict_get (KStr "axes") d = Some (VRef axes_loc) →
  st_heap s !! axes_loc = Some (OList descs) →
  descriptors (st_heap s) descs dds →
  dds !! i = Some dd →
  dict_get (KStr "name") dd = None →
  (∀ j dd', j < i → dds !! j = Some dd' → is_Some (dict_get (KStr "name") dd')) →
  get_axes (VRef md) s = (Raise (KeyError (KStr "name")), s).
Proof.
  intros Hmd Haxes Hdescs Hdds Hi Hname Hbefore.
  unfold get_axes, bind, read, classify_axes, rbind.
  rewrite (subscript_dict _ _ _ _ Hmd), Haxes. unfold iterate. rewrite Hdescs.
  by rewrite (classify_loop_nameless _ _ _ _ _ _ Hdds Hi Hname Hbefore).
Qed.

(** ** The order of the columns *)

Lemma blank_lists_order ks : ∀ acc : dict (list val),
  dict_keys (foldl (λ p key, dict_set key [] p) acc ks)
  = foldl (λ seen k, if decide (k ∈ seen) then seen else seen ++ [k])
          (dict_keys acc) ks.
Proof.
  induction ks as [|k ks IH]; intros acc; [done|].
  cbn [foldl]. by rewrite IH, dict_keys_set.
Qed.

Lemma create_lists_order h items rows : ∀ acc : dict (list val),
  label_rows h items rows →
  ∃ t, rfoldM create_lists items acc h = Ok t
       ∧ dict_keys t
         = foldl (λ seen k, if decide (k ∈ seen) then seen else seen ++ [k])
                 (dict_keys acc) (rows ≫= λ row, dict_keys row.2).
Proof.
  intros acc Hrows. revert acc.
  induction Hrows as [|item row items rows [_ Hrow] _ IH]; intros acc.
  - by exists acc.
  - cbn [rfoldM]. unfold rbind at 1, create_lists at 1, rbind, rret. rewrite Hrow.
    destruct (IH (foldl (λ p key, dict_set key [] p) acc (dict_keys row.2)))
      as (t & Hrun & Hkeys).
    exists t. split; [done|].
    by rewrite Hkeys, blank_lists_order, bind_cons, foldl_app.
Qed.

Lemma append_values_keys h ks items rows : ∀ t : dict (list val),
  label_rows h items rows →
  NoDup ks →
  (∀ k, k ∈ ks → k ∈ dict_keys t) →
  KStr "index" ∈ dict_keys t →
  ∃ t', rfoldM (append_values ks) items t h = Ok t' ∧ dict_keys t' = dict_keys t.
Proof.
  intros t Hrows Hnd. revert t.
  induction Hrows as [|item row items rows [_ Hrow] _ IH]; intros t Hsub Hin.
  - by exists t.
  - pose proof Hin as [index Hidx]%dict_keys_get.
    cbn [rfoldM]. unfold rbind at 1, append_values at 1, rbind, rlift, local_get.
    rewrite Hidx.
    set (t1 := dict_set (KStr "index") (index ++ [key_val item.1]) t).
    assert (dict_keys t1 = dict_keys t) as Hkeys1.
    { unfold t1. rewrite dict_keys_set. by rewrite decide_True. }
    destruct (append_value_loop h item.2 row.2 ks t1 Hrow Hnd)
      as (t2 & Hrun2 & Hkeys2 & _).
    { intros k Hk. rewrite Hkeys1. by apply Hsub. }
    rewrite Hrun2.
    destruct (IH t2) as (t' & Hrun & Hkeys).
    { intros k Hk. rewrite Hkeys2, Hkeys1. by apply Hsub. }
    { by rewrite Hkeys2, Hkeys1. }
    exists t'. split; [done | congruence].
Qed.

(** The pivot returns a table for every properties mapping whose labels
    map to mappings, also when a property is named 'index'.  Its columns
    stand in the order in which the property names are first seen going
    through the labels, with 'index' after them unless a property has
    that name, and no column appears twice. *)
Theorem pivot_columns_in_order_of_first_use h p items rows :
  h !! p = Some (ODict items) →
  label_rows h items rows →
  ∃ table,
    transform_properties (VRef p) h = Ok (Some table)
    ∧ dict_keys table
      = first_seen ((rows ≫= λ row, dict_keys row.2) ++ [KStr "index"])
    ∧ NoDup (dict_keys table).
Proof.
  intros Hp Hrows.
  destruct (create_lists_loop h items rows [] Hrows) as (t & Hrun1 & Hnd & _).
  { apply NoDup_nil_2. }
  { intros k v. done. }
  destruct (create_lists_order h items rows [] Hrows) as (t' & Hrun1' & Hkeys).
  assert (t' = t) as -> by congruence.
  set (t0 := dict_set (KStr "index") [] t).
  destruct (append_values_keys h (dict_keys t) items rows t0 Hrows Hnd)
    as (table & Hrun2 & Hkeys2).
  { intros k Hk. apply dict_keys_set_elem. by right. }
  { apply dict_keys_set_elem. by left. }
  exists table. split.
  { unfold transform_properties, rbind, as_dict. rewrite Hp, Hrun1.
    fold t0. by rewrite Hrun2. }
  split.
  - rewrite Hkeys2. unfold t0, first_seen.
    by rewrite dict_keys_set, foldl_app, Hkeys.
  - rewrite Hkeys2. by apply dict_keys_set_NoDup.
Qed.

(** ** The extra metadata *)

Lemma make_extras_run s metadata axes name :
  tuple_or_absent (st_heap s) metadata "scale" →
  tuple_or_absent (st_heap s) metadata "translate" →
  let n := length (st_heap s) in
  make_extras metadata axes name s
  = (Ok (VRef (n + 3)),
     set_heap (st_heap s
               ++ [OAxes axes;
                   OOriginal n name
                     (default VNone (dict_get (KStr "scale") metadata))
                     (default VNone (dict_get (KStr "translate") metadata));
                   OAxes axes;
                   OExtra (n + 2) (n + 1)]) s).
Proof.
  intros Hscale Htranslate n. unfold make_extras.
  assert (∀ k, tuple_or_absent (st_heap s) metadata k →
    (if dict_has (KStr k) metadata
     then let! v := read (rlift (local_get (KStr k) metadata)) in py_tuple v
     else ret VNone) s
    = (Ok (default VNone (dict_get (KStr k) metadata)), s)) as Hfield.
  { intros k Hk. unfold dict_has, tuple_or_absent in *.
    destruct (dict_get (KStr k) metadata) as [v|] eqn:Hget; cbn; [|done].
    destruct (Hk v eq_refl) as (l & xs & -> & Hl).
    unfold bind, read, rlift, local_get. rewrite Hget.
    unfold py_tuple. by rewrite Hl. }
  rewrite (bind_run _ _ _ _ _ (Hfield "scale" Hscale)).
  rewrite (bind_run _ _ _ _ _ (Hfield "translate" Htranslate)).
  unfold bind, alloc, ret, set_heap. cbn.
  rewrite !length_app. cbn. fold n.
  replace (n + 1 + 1) with (n + 2) by lia.
  replace (n + 2 + 1) with (n + 3) by lia.
  by rewrite <- !app_assoc.
Qed.

(** [make_extras] leaves every object of the store as it is and adds four
    new ones: the axes twice, as two objects with the same contents, the
    original metadata with the name it was given and the scale and
    translate of the output metadata, the same tuple objects, or None for
    one that the metadata lacks, and the extra metadata, which is the
    result and refers to the second axes and to the original metadata.
    Nothing is logged and no warning is given. *)
Theorem make_extras_allocates_four s metadata axes name :
  tuple_or_absent (st_heap s) metadata "scale" →
  tuple_or_absent (st_heap s) metadata "translate" →
  ∃ s' extra original axes1 axes2,
    make_extras metadata axes name s = (Ok (VRef extra), s')
    ∧ st_heap s `prefix_of` st_heap s'
    ∧ length (st_heap s') = length (st_heap s) + 4
    ∧ st_log s' = st_log s ∧ st_warnings s' = st_warnings s
    ∧ length (st_heap s) ≤ axes1 ∧ length (st_heap s) ≤ axes2 ∧ axes1 ≠ axes2
    ∧ st_heap s' !! extra = Some (OExtra axes2 original)
    ∧ st_heap s' !! original
      = Some (OOriginal axes1 name
                (default VNone (dict_get (KStr "scale") metadata))
                (default VNone (dict_get (KStr "translate") metadata)))
    ∧ st_heap s' !! axes1 = Some (OAxes axes)
    ∧ st_heap s' !! axes2 = Some (OAxes axes).
Proof.
  intros Hscale Htranslate.
  pose proof (make_extras_run s metadata axes name Hscale Htranslate) as Hrun.
  cbv zeta in Hrun.
  eexists _, (length (st_heap s) + 3), (length (st_heap s) + 1),
          (length (st_heap s)), (length (st_heap s) + 2).
  split; [exact Hrun|]. cbn [st_heap st_log st_warnings set_heap].
  split; [by apply prefix_app_r|].
  split; [by rewrite length_app|].
  split; [done|]. split; [done|]. split; [lia|]. split; [lia|]. split; [lia|].
  rewrite !lookup_app_r by lia.
  replace (length (st_heap s) + 3 - length (st_heap s)) with 3 by lia.
  replace (length (st_heap s) + 1 - length (st_heap s)) with 1 by lia.
  replace (length (st_heap s) + 2 - length (st_heap s)) with 2 by lia.
  by rewrite Nat.sub_diag.
Qed.

(** ** The keys of the output metadata *)

Lemma returns_ret {A} (a : A) (Q : A → Prop) : Q a → returns (ret a) Q.
Proof. intros Ha s a' s' [= <- _]. exact Ha. Qed.

Lemma returns_bind {A B} (m : M A) (k : A → M B) (Q : A → Prop) (R : B → Prop) :
  returns m Q → (∀ a, Q a → returns (k a) R) → returns (bind m k) R.
Proof.
  intros Hm Hk s b s' Hrun.
  apply bind_Ok in Hrun as (a & s1 & Hrun1 & Hrun2).
  eapply Hk; [by eapply Hm | done].
Qed.

Lemma returns_any {A} (m : M A) : returns m (λ _, True).
Proof. by intros s a s' _. Qed.

Lemma returns_read {A} (r : heap → outcome A) (Q : A → Prop) :
  (∀ h a, r h = Ok a → Q a) → returns (read r) Q.
Proof. intros Hr s a s' [Hrun _]%read_Ok. by eapply Hr. Qed.

Lemma returns_foldM {A T} (body : A → T → M T) (I : T → Prop) xs : ∀ acc,
  (∀ x acc, I acc → returns (body x acc) I) →
  I acc → returns (foldM body xs acc) I.
Proof.
  induction xs as [|x xs IH]; intros acc Hbody Hacc.
  - by apply returns_ret.
  - cbn [foldM]. eapply returns_bind; [by apply Hbody|].
    intros acc' Hacc'. by apply IH.
Qed.

Lemma returns_for_list {T} (body : nat → val → T → M T) (I : T → Prop) l fuel :
  ∀ i acc,
  (∀ i x acc, I acc → returns (body i x acc) I) →
  I acc → returns (for_list fuel l i body acc) I.
Proof.
  induction fuel as [|fuel IH]; intros i acc Hbody Hacc.
  - by apply returns_ret.
  - intros s a s'. cbn [for_list].
    destruct (st_heap s !! l) as [[| xs | | | | |]|]; try (by intros [= <- _]).
    destruct (xs !! i) as [x|]; [|by intros [= <- _]].
    apply returns_bind with (Q := I); [by apply Hbody|].
    intros acc' Hacc'. by apply IH.
Qed.

Lemma returns_for_each {T} (body : nat → val → T → M T) (I : T → Prop) v acc :
  (∀ i x acc, I acc → returns (body i x acc) I) →
  I acc → returns (for_each v body acc) I.
Proof.
  intros Hbody Hacc.
  assert (returns (let! xs := read (iterate v) in
                   foldM (λ ix, body ix.1 ix.2) (enumerate xs) acc) I) as Hother.
  { eapply returns_bind; [apply returns_any|]. intros xs _.
    apply returns_foldM; [|done]. intros ix acc'. apply Hbody. }
  intros s a s'. unfold for_each.
  destruct v as [| | | | |l]; try apply Hother.
  destruct (st_heap s !! l) as [[| xs | | | | |]|]; try apply Hother.
  by apply returns_for_list.
Qed.

Lemma rfoldM_invariant {A T} (body : A → T → heap → outcome T) (I : T → Prop)
    h xs : ∀ acc acc',
  (∀ x acc acc', I acc → body x acc h = Ok acc' → I acc') →
  I acc → rfoldM body xs acc h = Ok acc' → I acc'.
Proof.
  induction xs as [|x xs IH]; intros acc acc' Hbody Hacc.
  - by intros [= <-].
  - cbn [rfoldM]. unfold rbind at 1.
    destruct (body x acc h) as [acc1|e] eqn:Hstep; [|done].
    apply IH; [done|]. by eapply Hbody.
Qed.

Lemma only_changes_refl ks metadata : only_changes ks metadata metadata.
Proof. by intros k _. Qed.

Lemma only_changes_trans ks ks' m1 m2 m3 :
  only_changes ks m1 m2 → only_changes ks' m2 m3 →
  only_changes (ks ++ ks') m1 m3.
Proof.
  intros H12 H23 k Hk. rewrite fmap_app, not_elem_of_app in Hk.
  rewrite H23, H12; tauto.
Qed.

Lemma only_changes_set ks m1 m2 k v :
  k ∈ ks → only_changes ks m1 m2 → only_changes ks m1 (dict_set (KStr k) v m2).
Proof.
  intros Hk H12 k' Hk'. rewrite dict_get_set.
  destruct (decide (k' = KStr k)) as [->|]; [|by apply H12].
  destruct Hk'. by apply list_elem_of_fmap_2.
Qed.

Lemma returns_transform_scale_field field target c transf metadata0 metadata :
  target ∈ ["scale"; "translate"] →
  only_changes ["scale"; "translate"] metadata0 metadata →
  returns (transform_scale_field field target c transf metadata)
          (only_changes ["scale"; "translate"] metadata0).
Proof.
  intros Htarget Hmd. unfold transform_scale_field.
  eapply returns_bind; [apply returns_any|]. intros [] _.
  - eapply returns_bind; [apply returns_any|]. intros arr _.
    eapply returns_bind; [apply returns_any|]. intros _ _.
    eapply returns_bind; [apply returns_any|]. intros t _.
    apply returns_ret. by apply only_changes_set.
  - by apply returns_ret.
Qed.

Lemma returns_transform_scale node_metadata metadata c :
  returns (transform_scale node_metadata metadata c)
          (only_changes ["scale"; "translate"] metadata).
Proof.
  unfold transform_scale.
  eapply returns_bind; [apply returns_any|]. intros [] _.
  - eapply returns_bind; [apply returns_any|]. intros cts _.
    eapply returns_bind; [apply returns_any|]. intros transforms _.
    apply returns_for_each; [|apply only_changes_refl].
    intros _ transf acc Hacc. unfold transform_scale_step.
    eapply returns_bind.
    + apply returns_transform_scale_field; [|done].
      apply elem_of_cons. by left.
    + intros acc' Hacc'. apply returns_transform_scale_field; [|done].
      apply elem_of_cons. right. apply elem_of_cons. by left.
  - apply returns_ret, only_changes_refl.
Qed.

Lemma copy_fields_changes node_metadata metadata metadata' h :
  copy_fields node_metadata metadata h = Ok metadata' →
  only_changes METADATA_KEYS metadata metadata'.
Proof.
  unfold copy_fields.
  assert (∀ keys, keys ⊆ METADATA_KEYS →
    rfoldM (copy_field node_metadata) keys metadata h = Ok metadata' →
    only_changes METADATA_KEYS metadata metadata') as Hloop; [|by apply Hloop].
  intros keys. revert metadata.
  induction keys as [|x keys IH]; intros metadata Hsub.
  - intros [= <-]. apply only_changes_refl.
  - cbn [rfoldM]. unfold rbind at 1.
    destruct (copy_field node_metadata x metadata h) as [md1|e] eqn:Hstep; [|done].
    intros Hrest. apply IH in Hrest; [|intros k Hk; apply Hsub; by right].
    assert (only_changes METADATA_KEYS metadata md1) as Hfirst.
    { unfold copy_field, rbind in Hstep.
      destruct (contains x node_metadata h) as [[]|]; [| |done].
      - destruct (subscript node_metadata (KStr x) h); [|done].
        injection Hstep as <-. apply only_changes_set; [|apply only_changes_refl].
        apply Hsub. by left.
      - injection Hstep as <-. apply only_changes_refl. }
    intros k Hk. by rewrite Hrest, Hfirst.
Qed.

Lemma copy_first_items_changes node_metadata metadata metadata' h :
  copy_first_items node_metadata metadata h = Ok metadata' →
  only_changes METADATA_KEYS metadata metadata'.
Proof.
  unfold copy_first_items.
  assert (∀ keys, keys ⊆ METADATA_KEYS →
    rfoldM (copy_first_item node_metadata) keys metadata h = Ok metadata' →
    only_changes METADATA_KEYS metadata metadata') as Hloop; [|by apply Hloop].
  intros keys. revert metadata.
  induction keys as [|x keys IH]; intros metadata Hsub.
  - intros [= <-]. apply only_changes_refl.
  - cbn [rfoldM]. unfold rbind at 1.
    destruct (copy_first_item node_metadata x metadata h) as [md1|e] eqn:Hstep; [|done].
    intros Hrest. apply IH in Hrest; [|intros k Hk; apply Hsub; by right].
    assert (only_changes METADATA_KEYS metadata md1) as Hfirst.
    { unfold copy_first_item, rbind, rtry, rret in Hstep.
      destruct (contains x node_metadata h) as [[]|]; [| |done].
      - destruct (subscript node_metadata (KStr x) h) as [v|].
        + destruct (subscript v (KInt 0) h).
          * injection Hstep as <-. apply only_changes_set; [|apply only_changes_refl].
            apply Hsub. by left.
          * injection Hstep as <-. apply only_changes_refl.
        + injection Hstep as <-. apply only_changes_refl.
      - injection Hstep as <-. apply only_changes_refl. }
    intros k Hk. by rewrite Hrest, Hfirst.
Qed.

Lemma only_changes_mono ks ks' m1 m2 :
  ks ⊆ ks' → only_changes ks m1 m2 → only_changes ks' m1 m2.
Proof.
  intros Hsub H12 k Hk. apply H12. intros (x & -> & Hx)%list_elem_of_fmap.
  apply Hk, list_elem_of_fmap_2. by apply Hsub.
Qed.

Lemma returns_attach_extras_single metadata axes :
  returns (attach_extras_single metadata axes)
          (λ metadata', only_changes ["metadata"] metadata metadata'
                        ∧ is_Some (dict_get (KStr "metadata") metadata')).
Proof.
  unfold attach_extras_single.
  eapply returns_bind
    with (Q := λ metadata', only_changes ["metadata"] metadata metadata'
                            ∧ is_Some (dict_get (KStr "metadata") metadata')).
  - rewrite dict_has_get.
    destruct (dict_get (KStr "metadata") metadata) as [m|] eqn:Hm.
    + apply returns_ret. split; [apply only_changes_refl | by rewrite Hm].
    + eapply returns_bind; [apply returns_any|]. intros d _.
      apply returns_ret. split.
      * apply only_changes_set; [|apply only_changes_refl].
        apply elem_of_cons. by left.
      * rewrite dict_get_set. by rewrite decide_True.
  - intros metadata1 Hmd.
    eapply returns_bind; [apply returns_any|]. intros extras _.
    eapply returns_bind; [apply returns_any|]. intros m _.
    eapply returns_bind; [apply returns_any|]. intros _ _.
    by apply returns_ret.
Qed.

Lemma returns_attach_extras_multi data metadata axes c :
  returns (attach_extras_multi data metadata axes c)
          (λ metadata', only_changes ["metadata"] metadata metadata'
                        ∧ is_Some (dict_get (KStr "metadata") metadata')).
Proof.
  unfold attach_extras_multi.
  eapply returns_bind; [apply returns_any|]. intros n_channels _.
  eapply returns_bind; [apply returns_any|]. intros meta _.
  eapply returns_bind with (Q := only_changes ["metadata"] metadata).
  - intros s a s'. destruct (is_list (st_heap s) meta).
    + intros [= <- _]. apply only_changes_refl.
    + revert s a s'.
      eapply returns_bind; [apply returns_any|]. intros copy _.
      eapply returns_bind; [apply returns_any|]. intros l _.
      apply returns_ret, only_changes_set; [|apply only_changes_refl].
      apply elem_of_cons. by left.
  - intros metadata1 Hmd.
    eapply returns_bind; [apply returns_any|]. intros names _.
    eapply returns_bind
      with (Q := λ _, is_Some (dict_get (KStr "metadata") metadata1)).
    + apply returns_read. intros h ms. unfold rbind, rlift, local_get.
      destruct (dict_get (KStr "metadata") metadata1); [eauto | done].
    + intros ms Hsome.
      eapply returns_bind; [apply returns_any|]. intros _ _.
      by apply returns_ret.
Qed.

Lemma detect_channel_axis_Ok node_metadata s c s' :
  detect_channel_axis node_metadata s = (Ok c, s') →
  read_channel_axis node_metadata (st_heap s) = Ok c.
Proof.
  unfold detect_channel_axis, try_except, read.
  destruct (read_channel_axis node_metadata (st_heap s)) as [c'|e].
  - by intros [= -> _].
  - unfold bind, log_msg, raise. discriminate.
Qed.

(** The output metadata of a layer has no other keys than 'scale',
    'translate', 'channel_axis', 'properties' and the display fields, and
    it always has 'metadata'.  It has 'channel_axis' only for an image with
    a channel axis, where it is the position of that axis; a labels layer
    never has it, and an image never has 'properties'.  The layer is a
    labels layer for a node that carries labels and an image otherwise. *)
Theorem output_metadata_fields node levels s data metadata kind s' :
  transform_node node levels s = (Ok (data, metadata, kind), s') →
  (∀ k, k ∈ dict_keys metadata → k ∈ KStr <$> output_keys)
  ∧ is_Some (dict_get (KStr "metadata") metadata)
  ∧ kind = (if node_is_label node then labels else image)
  ∧ (∃ c, read_channel_axis (VRef (node_metadata node)) (st_heap s) = Ok c
          ∧ dict_get (KStr "channel_axis") metadata
            = if node_is_label node then None
              else (λ c, VInt (Z.of_nat c)) <$> c)
  ∧ (node_is_label node = false →
     dict_get (KStr "properties") metadata = None).
Proof.
  intros Hrun. unfold transform_node in Hrun.
  apply bind_Ok in Hrun as ([] & s1 & Hlog1 & Hrun).
  apply bind_Ok in Hrun as ([] & s2 & Hlog2 & Hrun).
  apply bind_Ok in Hrun as (channel_axis & s3 & Hdetect & Hrun).
  apply bind_Ok in Hrun as (md1 & s4 & Hscale & Hrun).
  apply bind_Ok in Hrun as (_ & s5 & _ & Hrun).
  apply bind_Ok in Hrun as ([[data2 md2] kind2] & s6 & Hbranch & Hrun).
  apply bind_Ok in Hrun as (axes & s7 & _ & Hrun).
  apply bind_Ok in Hrun as (md3 & s8 & Hattach & Hrun).
  injection Hrun as -> -> -> _.
  apply detect_channel_axis_Ok in Hdetect.
  injection Hlog1 as <-. injection Hlog2 as <-. cbn [st_heap] in Hdetect.
  apply returns_transform_scale in Hscale.
  assert (only_changes ["metadata"] md2 metadata
          ∧ is_Some (dict_get (KStr "metadata") metadata)) as [H23 Hmeta].
  { destruct channel_axis as [c|].
    - by apply returns_attach_extras_multi in Hattach.
    - by apply returns_attach_extras_single in Hattach. }
  assert (kind = (if node_is_label node then labels else image)
          ∧ only_changes (["channel_axis"; "properties"] ++ METADATA_KEYS) md1 md2
          ∧ dict_get (KStr "channel_axis") md2
            = (if node_is_label node then None
               else (λ c, VInt (Z.of_nat c)) <$> channel_axis)
          ∧ (node_is_label node = false →
             dict_get (KStr "properties") md2 = None))
    as (Hkind & H12 & Hchannel & Hprops).
  { assert (∀ k, dict_get k (@nil (key * val)) = None) as Hnil by done.
    assert (KStr "channel_axis" ∉ KStr <$> ["scale"; "translate"]) as Hc1.
    { apply (bool_decide_unpack _). by vm_compute. }
    assert (KStr "channel_axis" ∉ KStr <$> METADATA_KEYS) as Hc2.
    { apply (bool_decide_unpack _). by vm_compute. }
    assert (KStr "properties" ∉ KStr <$> ["scale"; "translate"]) as Hp1.
    { apply (bool_decide_unpack _). by vm_compute. }
    assert (KStr "properties" ∉ KStr <$> METADATA_KEYS) as Hp2.
    { apply (bool_decide_unpack _). by vm_compute. }
    destruct (node_is_label node).
    - apply bind_Ok in Hbranch as (mdc & t1 & Hcopy & Hbranch).
      apply bind_Ok in Hbranch as (data1 & t2 & _ & Hbranch).
      apply bind_Ok in Hbranch as (props & t3 & _ & Hbranch).
      apply bind_Ok in Hbranch as (properties & t4 & _ & Hbranch).
      apply bind_Ok in Hbranch as (mdp & t5 & Hstore & Hbranch).
      injection Hbranch as _ <- <- _.
      apply read_Ok in Hcopy as [Hcopy%copy_fields_changes _].
      assert (only_changes ["properties"] mdc mdp) as Hcp.
      { destruct properties as [p|].
        - apply bind_Ok in Hstore as (v & t6 & _ & Hstore).
          injection Hstore as <- _.
          apply only_changes_set; [|apply only_changes_refl].
          apply elem_of_cons. by left.
        - injection Hstore as <- _. apply only_changes_refl. }
      split; [done|]. split; [|split; [|done]].
      + eapply only_changes_mono; [|by eapply only_changes_trans].
        apply (bool_decide_unpack _). by vm_compute.
      + rewrite Hcp, Hcopy, Hscale by (done || (apply (bool_decide_unpack _); by vm_compute)).
        done.
    - apply bind_Ok in Hbranch as (_ & t1 & _ & Hbranch).
      apply bind_Ok in Hbranch as (mdc & t2 & Hcopy & Hbranch).
      injection Hbranch as _ <- <- _.
      split; [done|].
      destruct channel_axis as [c|].
      + apply read_Ok in Hcopy as [Hcopy%copy_fields_changes _].
        split; [|split].
        * eapply only_changes_mono;
            [|eapply only_changes_trans;
               [apply (only_changes_set ["channel_axis"] md1 md1 "channel_axis");
                [apply elem_of_cons; by left | apply only_changes_refl]
               |exact Hcopy]].
          apply (bool_decide_unpack _). by vm_compute.
        * rewrite Hcopy by done. rewrite dict_get_set. by rewrite decide_True.
        * intros _. rewrite Hcopy by done. rewrite dict_get_set.
          rewrite decide_False by done. by rewrite Hscale.
      + apply read_Ok in Hcopy as [Hcopy%copy_first_items_changes _].
        split; [|split].
        * eapply only_changes_mono; [|exact Hcopy].
          apply (bool_decide_unpack _). by vm_compute.
        * rewrite Hcopy by done. by rewrite Hscale.
        * intros _. rewrite Hcopy by done. by rewrite Hscale. }
  assert (KStr "channel_axis" ∉ KStr <$> ["metadata"]) as Hc3.
  { apply (bool_decide_unpack _). by vm_compute. }
  assert (KStr "properties" ∉ KStr <$> ["metadata"]) as Hp3.
  { apply (bool_decide_unpack _). by vm_compute. }
  split; [|split; [done|split; [done|split]]].
  - intros k [v Hk]%dict_keys_get.
    destruct (decide (k ∈ KStr <$> output_keys)) as [|Hout]; [done|].
    assert (only_changes output_keys [] metadata) as Hall.
    { eapply only_changes_mono;
        [|eapply only_changes_trans;
           [eapply only_changes_trans; [exact Hscale | exact H12] | exact H23]].
      apply (bool_decide_unpack _). by vm_compute. }
    by rewrite (Hall k Hout) in Hk.
  - exists channel_axis. split; [done|]. by rewrite H23.
  - intros Himage. rewrite H23 by done. by apply Hprops.
Qed.

(** ** The name of a single-channel layer *)

Lemma method_get_dict h md d k v0 :
  h !! md = Some (ODict d) →
  method_get (VRef md) k v0 h = Ok (default v0 (dict_get k d)).
Proof. intros Hmd. unfold method_get, rbind, as_dict, rret. by rewrite Hmd. Qed.

(** A name that is a string that is not empty, of a node without channel
    axis, is put in a new list of one element that takes its place in the
    node's metadata; the copy of the first items then gives the layer the
    string with all its characters. *)
Theorem wrapped_name_round_trip s md d n metadata :
  st_heap s !! md = Some (ODict d) →
  dict_get (KStr "name") d = Some (VStr n) →
  n ≠ "" →
  ∃ s1 out,
    wrap_name (VRef md) None s = (Ok tt, s1)
    ∧ st_heap s1 !! md
      = Some (ODict (dict_set (KStr "name") (VRef (length (st_heap s))) d))
    ∧ st_heap s1 !! length (st_heap s) = Some (OList [VStr n])
    ∧ copy_first_items (VRef md) metadata (st_heap s1) = Ok out
    ∧ dict_get (KStr "name") out = Some (VStr n).
Proof.
  intros Hmd Hname Hne.
  pose proof (lookup_lt_Some _ _ _ Hmd) as Hlt.
  set (l := length (st_heap s)).
  set (d' := dict_set (KStr "name") (VRef l) d).
  set (s1 := set_heap (<[md := ODict d']> (st_heap s ++ [OList [VStr n]])) s).
  assert (st_heap s1 !! md = Some (ODict d')) as Hmd1.
  { cbn. apply list_lookup_insert_eq. rewrite length_app. lia. }
  assert (st_heap s1 !! l = Some (OList [VStr n])) as Hl1.
  { cbn. rewrite list_lookup_insert_ne by (unfold l; lia).
    rewrite lookup_app_r by (unfold l; lia).
    by replace (l - length (st_heap s)) with 0 by (unfold l; lia). }
  destruct (copy_first_item_loop (st_heap s1) md d' METADATA_KEYS metadata
              Hmd1 METADATA_KEYS_NoDup) as (out & Hcopy & Hget).
  exists s1, out. split; [|split; [done|split; [done|split; [done|]]]].
  - unfold wrap_name.
    rewrite (bind_run _ _ _ (VStr n) s)
      by (unfold read; by rewrite (method_get_dict _ _ _ _ _ Hmd), Hname).
    cbn [truthy is_str]. rewrite bool_decide_eq_false_2 by done.
    rewrite bool_decide_eq_true_2 by done. cbn [negb andb].
    unfold bind, alloc, setitem. cbn [st_heap set_heap].
    rewrite lookup_app_l by done. rewrite Hmd. done.
  - rewrite Hget. rewrite decide_True by (apply elem_of_cons; by left).
    unfold d'. rewrite dict_get_set, decide_True by done.
    unfold subscript. by rewrite Hl1.
Qed.

(** An empty string as the name of a node without channel axis is left as
    it is, and the copy of the first items, finding no first character,
    gives the layer no name. *)
Theorem empty_name_is_dropped s md d metadata :
  st_heap s !! md = Some (ODict d) →
  dict_get (KStr "name") d = Some (VStr "") →
  ∃ out,
    wrap_name (VRef md) None s = (Ok tt, s)
    ∧ copy_first_items (VRef md) metadata (st_heap s) = Ok out
    ∧ dict_get (KStr "name") out = dict_get (KStr "name") metadata.
Proof.
  intros Hmd Hname.
  destruct (copy_first_item_loop (st_heap s) md d METADATA_KEYS metadata
              Hmd METADATA_KEYS_NoDup) as (out & Hcopy & Hget).
  exists out. split; [|split; [done|]].
  - unfold wrap_name.
    rewrite (bind_run _ _ _ (VStr "") s)
      by (unfold read; by rewrite (method_get_dict _ _ _ _ _ Hmd), Hname).
    done.
  - rewrite Hget. rewrite decide_True by (apply elem_of_cons; by left).
    by rewrite Hname.
Qed.

(** ** The colormaps *)

Lemma Forall2_impl_Forall {A B} (P : A → Prop) (R R' : A → B → Prop) xs ys :
  Forall P xs → Forall2 R xs ys →
  (∀ x y, P x → R x y → R' x y) → Forall2 R' xs ys.
Proof.
  intros HP HR Himpl. induction HR as [|x y xs ys Hxy _ IH]; [constructor|].
  apply Forall_cons in HP as [Hx HP]. constructor; [by apply Himpl | by apply IH].
Qed.

Lemma colormap_list_loop cl rest : ∀ done s,
  st_heap s !! cl = Some (OList (done ++ rest)) →
  Forall (in_store (st_heap s)) rest →
  ∃ s' new,
    for_list (length rest) cl (length done) (colormap_step (VRef cl)) tt s
    = (Ok tt, s')
    ∧ st_heap s' !! cl = Some (OList (done ++ new))
    ∧ Forall2 (shimmed (st_heap s) (st_heap s')) rest new
    ∧ length (st_heap s) ≤ length (st_heap s')
    ∧ (∀ l o, l ≠ cl → st_heap s !! l = Some o → st_heap s' !! l = Some o)
    ∧ st_log s' = st_log s ∧ st_warnings s' = st_warnings s.
Proof.
  induction rest as [|cm rest IH]; intros done s Hcl Hstore.
  - exists s, []. split; [done|]. split; [done|]. split; [constructor|]. done.
  - apply Forall_cons in Hstore as [Hcm Hstore].
    pose proof (lookup_lt_Some _ _ _ Hcl) as Hlt.
    cbn [length].
    rewrite (for_list_cons _ _ _ _ _ _ _ cm Hcl) by apply list_lookup_middle, eq_refl.
    destruct (is_colormap (st_heap s) cm) eqn:Hiscm.
    + rewrite (bind_run _ _ _ tt s) by (unfold colormap_step; by rewrite Hiscm).
      destruct (IH (done ++ [cm]) s) as (s' & new & Hrun & Hcl' & Hnew & Hlen & Hkeep & Hlog);
        [by rewrite <- app_assoc | done |].
      rewrite length_app in Hrun. cbn in Hrun.
      replace (length done + 1) with (S (length done)) in Hrun by lia.
      exists s', (cm :: new). split; [done|]. split; [by rewrite <- app_assoc in Hcl'|].
      split; [|done]. constructor; [|done]. unfold shimmed. by rewrite Hiscm.
    + set (c := length (st_heap s)).
      set (s1 := set_heap (<[cl := OList (done ++ VRef c :: rest)]>
                             (st_heap s ++ [OColormap cm])) s).
      assert (colormap_step (VRef cl) (length done) cm tt s = (Ok tt, s1)) as Hstep.
      { unfold colormap_step. rewrite Hiscm.
        unfold Colormap, bind, alloc, ret, setitem. cbn [st_heap set_heap].
        rewrite lookup_app_l by done. rewrite Hcl.
        assert ((0 <=? Z.of_nat (length done))%Z
                && (Z.of_nat (length done) <? Z.of_nat (length (done ++ cm :: rest)))%Z
                = true) as ->.
        { rewrite length_app. cbn. apply andb_true_intro. split.
          - apply Z.leb_le. lia.
          - apply Z.ltb_lt. lia. }
        rewrite Nat2Z.id. unfold store. cbn [st_heap set_heap].
        replace (length done) with (length done + 0) at 1 by lia.
        by rewrite insert_app_r. }
      rewrite (bind_run _ _ _ _ _ Hstep).
      assert (st_heap s1 !! cl = Some (OList ((done ++ [VRef c]) ++ rest))) as Hcl1.
      { cbn. rewrite <- app_assoc. apply list_lookup_insert_eq.
        rewrite length_app. lia. }
      assert (length (st_heap s1) = S (length (st_heap s))) as Hlen1.
      { cbn. rewrite length_insert, length_app. cbn. lia. }
      destruct (IH (done ++ [VRef c]) s1 Hcl1) as (s' & new & Hrun & Hcl' & Hnew & Hlen & Hkeep & Hlog).
      { eapply Forall_impl; [exact Hstore|]. intros v Hv l ->.
        rewrite Hlen1. specialize (Hv l eq_refl). lia. }
      rewrite length_app in Hrun. cbn in Hrun.
      replace (length done + 1) with (S (length done)) in Hrun by lia.
      exists s', (VRef c :: new). split; [done|].
      split; [by rewrite <- app_assoc in Hcl'|].
      split; [|split; [lia|split; [|done]]].
      * constructor.
        -- unfold shimmed. rewrite Hiscm. exists c. split; [done|]. split; [done|].
           apply Hkeep; [unfold c; lia|]. cbn.
           rewrite list_lookup_insert_ne by (unfold c; lia).
           rewrite lookup_app_r by (unfold c; lia).
           by replace (c - length (st_heap s)) with 0 by (unfold c; lia).
        -- eapply Forall2_impl_Forall; [exact Hstore | exact Hnew |].
           intros v w Hv. unfold shimmed.
           assert (is_colormap (st_heap s1) v = is_colormap (st_heap s) v) as ->.
           { destruct v as [| | | | |l]; try done. specialize (Hv l eq_refl).
             cbn. destruct (decide (l = cl)) as [->|Hne].
             - rewrite list_lookup_insert_eq by (rewrite length_app; lia).
               by rewrite Hcl.
             - rewrite list_lookup_insert_ne by done. by rewrite lookup_app_l. }
           destruct (is_colormap (st_heap s) v); [done|].
           intros (l & -> & Hl & Hobj). exists l. split; [done|]. split; [lia | done].
      * intros l o Hne Hl. apply Hkeep; [done|]. cbn.
        rewrite list_lookup_insert_ne by done.
        rewrite lookup_app_l by (by eapply lookup_lt_Some). done.
Qed.

(** The colormaps of an image node given as a list, [Colormap] accepting
    every entry that it is given: the shim ends without an error, the list
    keeps its place in the store and its length, an entry that is a
    Colormap stays, and every other entry is replaced by a new Colormap
    built from it, so that all entries are Colormaps afterwards.  Nothing
    else in the store changes, nothing is logged and no warning is
    given. *)
Theorem colormap_list_is_converted s md d cl cms :
  st_heap s !! md = Some (ODict d) →
  dict_get (KStr "colormap") d = Some (VRef cl) →
  st_heap s !! cl = Some (OList cms) →
  Forall (in_store (st_heap s)) cms →
  ∃ s' cms',
    shim_colormaps (VRef md) s = (Ok tt, s')
    ∧ st_heap s' !! cl = Some (OList cms')
    ∧ Forall2 (shimmed (st_heap s) (st_heap s')) cms cms'
    ∧ Forall (λ c, is_colormap (st_heap s') c = true) cms'
    ∧ (∀ l o, l ≠ cl → st_heap s !! l = Some o → st_heap s' !! l = Some o)
    ∧ st_log s' = st_log s ∧ st_warnings s' = st_warnings s.
Proof.
  intros Hmd Hcm Hcl Hstore.
  destruct (colormap_list_loop cl cms [] s Hcl Hstore)
    as (s' & cms' & Hrun & Hcl' & Hnew & Hlen & Hkeep & Hlog).
  exists s', cms'. split; [|split; [done|split; [done|split; [|done]]]].
  - unfold shim_colormaps.
    rewrite (bind_run _ _ _ d s) by (unfold read, as_dict; by rewrite Hmd).
    rewrite Hcm. unfold colormap_loop, as_dict, for_each. by rewrite Hcl.
  - pose proof (lookup_lt_Some _ _ _ Hcl) as Hlt.
    eapply Forall2_Forall_r; [exact Hnew|].
    apply Forall_forall. intros cm Hin c. unfold shimmed.
    eapply Forall_forall in Hstore; [|done].
    destruct (is_colormap (st_heap s) cm) eqn:Hiscm.
    + intros ->. destruct cm as [| | | | |l]; try done.
      cbn in Hiscm |- *.
      destruct (st_heap s !! l) as [o|] eqn:Hl; [|done].
      assert (l ≠ cl) as Hne by (intros ->; rewrite Hcl in Hl; by injection Hl as <-).
      by rewrite (Hkeep l o Hne Hl).
    + intros (l & -> & _ & Hobj). cbn. by rewrite Hobj.
Qed.

(** ** The extra metadata of the channels *)

Lemma foldM_app {A T} (body : A → T → M T) xs ys : ∀ acc s,
  foldM body (xs ++ ys) acc s = bind (foldM body xs acc) (foldM body ys) s.
Proof.
  induction xs as [|x xs IH]; intros acc s; [done|].
  cbn [foldM app]. rewrite bind_assoc. unfold bind at 1.
  unfold bind at 1. destruct (body x acc s) as [[acc'|e] s1]; [apply IH | done].
Qed.

Lemma extras_loop metadata axes s pairs :
  tuple_or_absent (st_heap s) metadata "scale" →
  tuple_or_absent (st_heap s) metadata "translate" →
  Forall (λ p, ∃ l d, p.2 = VRef l ∧ st_heap s !! l = Some (ODict d)) pairs →
  ∃ s',
    foldM (λ nm _, let! extras := make_extras metadata axes nm.1 in
                   setitem nm.2 (KStr EXTRA_METADATA_KEY) extras)
          pairs tt s = (Ok tt, s')
    ∧ length (st_heap s) ≤ length (st_heap s')
    ∧ (∀ l o, st_heap s !! l = Some o → (∀ d, o ≠ ODict d) →
              st_heap s' !! l = Some o)
    ∧ (∀ l d, st_heap s !! l = Some (ODict d) →
              ∃ d', st_heap s' !! l = Some (ODict d'))
    ∧ (∀ l d, st_heap s !! l = Some (ODict d) →
              (∀ p, p ∈ pairs → p.2 ≠ VRef l) →
              st_heap s' !! l = Some (ODict d))
    ∧ (∀ j name l, pairs !! j = Some (name, VRef l) →
         (∀ j' p, j < j' → pairs !! j' = Some p → p.2 ≠ VRef l) →
         ∃ d' e a o a' sc tr,
           st_heap s' !! l = Some (ODict d')
           ∧ dict_get (KStr EXTRA_METADATA_KEY) d' = Some (VRef e)
           ∧ st_heap s' !! e = Some (OExtra a o)
           ∧ st_heap s' !! o = Some (OOriginal a' name sc tr)
           ∧ length (st_heap s) ≤ e ∧ length (st_heap s) ≤ o).
Proof.
  intros Hscale Htranslate.
  induction pairs as [|[nm v] pairs IH] using rev_ind; intros Hpairs.
  - exists s. split; [done|]. split; [done|]. split; [done|].
    split; [eauto|]. split; [done|]. intros j name l Hj. by destruct j.
  - apply Forall_app in Hpairs as [Hpairs Hlast].
    apply Forall_singleton in Hlast as (l & d0 & Hv & Hl0). cbn in Hv. subst v.
    destruct (IH Hpairs) as (s1 & Hrun1 & Hlen1 & Hother1 & Hdict1 & Hsame1 & Hlast1).
    destruct (Hdict1 l d0 Hl0) as (d1 & Hl1).
    pose proof (lookup_lt_Some _ _ _ Hl0) as Hlt0.
    pose proof (lookup_lt_Some _ _ _ Hl1) as Hlt1.
    assert (∀ k, tuple_or_absent (st_heap s) metadata k →
                 tuple_or_absent (st_heap s1) metadata k) as Htuples.
    { intros k Hk x Hx. destruct (Hk x Hx) as (t & xs & -> & Ht).
      exists t, xs. split; [done|]. by apply Hother1. }
    set (sc := default VNone (dict_get (KStr "scale") metadata)).
    set (tr := default VNone (dict_get (KStr "translate") metadata)).
    set (d' := dict_set (KStr EXTRA_METADATA_KEY)
                 (VRef (length (st_heap s1) + 3)) d1).
    set (new := [OAxes axes; OOriginal (length (st_heap s1)) nm sc tr;
                 OAxes axes;
                 OExtra (length (st_heap s1) + 2) (length (st_heap s1) + 1)]).
    set (s' := set_heap (<[l := ODict d']> (st_heap s1 ++ new)) s1).
    assert (st_heap s' !! l = Some (ODict d')) as Hl'.
    { cbn. apply list_lookup_insert_eq. rewrite length_app. lia. }
    assert (∀ l0, l0 ≠ l → l0 < length (st_heap s1) →
                  st_heap s' !! l0 = st_heap s1 !! l0) as Hold.
    { intros l0 Hne Hlt. cbn. rewrite list_lookup_insert_ne by done.
      by rewrite lookup_app_l. }
    assert (st_heap s' !! (length (st_heap s1) + 1)
            = Some (OOriginal (length (st_heap s1)) nm sc tr)) as Horiginal.
    { cbn. rewrite list_lookup_insert_ne by lia. rewrite lookup_app_r by lia.
      by replace (length (st_heap s1) + 1 - length (st_heap s1)) with 1 by lia. }
    assert (st_heap s' !! (length (st_heap s1) + 3)
            = Some (OExtra (length (st_heap s1) + 2) (length (st_heap s1) + 1)))
      as Hextra.
    { cbn. rewrite list_lookup_insert_ne by lia. rewrite lookup_app_r by lia.
      by replace (length (st_heap s1) + 3 - length (st_heap s1)) with 3 by lia. }
    exists s'. split; [|split; [|split; [|split; [|split]]]].
    + rewrite foldM_app, (bind_run _ _ _ _ _ Hrun1). cbn [foldM fst snd].
      rewrite bind_assoc.
      rewrite (bind_run _ _ _ _ _
                 (make_extras_run s1 metadata axes nm
                    (Htuples _ Hscale) (Htuples _ Htranslate))).
      unfold bind, setitem. cbn [st_heap set_heap].
      rewrite lookup_app_l by done. rewrite Hl1. done.
    + cbn. rewrite length_insert, length_app. lia.
    + intros l0 o Hl Ho. rewrite Hold.
      * by apply Hother1.
      * intros ->. rewrite Hl0 in Hl. injection Hl as <-. by apply (Ho d0).
      * apply lookup_lt_Some in Hl. lia.
    + intros l0 d Hl. destruct (decide (l0 = l)) as [->|Hne]; [eauto|].
      rewrite Hold; [by eapply Hdict1 | done |].
      apply lookup_lt_Some in Hl. lia.
    + intros l0 d Hl Hnot.
      assert (l0 ≠ l) as Hne.
      { intros ->. apply (Hnot (nm, VRef l)); [|done].
        apply elem_of_app. right. by apply list_elem_of_singleton. }
      rewrite Hold; [|done|apply lookup_lt_Some in Hl; lia].
      apply (Hsame1 _ _ Hl). intros p Hp. apply Hnot, elem_of_app. by left.
    + intros j name l0 Hj Hlater.
      destruct (decide (j < length pairs)) as [Hin|Hend].
      * rewrite lookup_app_l in Hj by done.
        assert (l0 ≠ l) as Hne.
        { intros ->. apply (Hlater (length pairs) (nm, VRef l)); [done| |done].
          by rewrite list_lookup_middle. }
        destruct (Hlast1 j name l0 Hj) as (d2 & e & a & o & a' & sc' & tr' & H);
          [|destruct H as (Hd2 & Hget & He & Ho & Hle & Hlo)].
        { intros j' p Hj' Hp. apply (Hlater j' p Hj').
          by rewrite lookup_app_l by (by eapply lookup_lt_Some). }
        exists d2, e, a, o, a', sc', tr'.
        pose proof (lookup_lt_Some _ _ _ Hd2). pose proof (lookup_lt_Some _ _ _ He).
        pose proof (lookup_lt_Some _ _ _ Ho).
        rewrite !Hold by (done || lia). done.
      * assert (j = length pairs) as ->.
        { apply lookup_lt_Some in Hj. rewrite length_app in Hj. cbn in Hj. lia. }
        rewrite list_lookup_middle in Hj by done. injection Hj as <- <-.
        exists d', (length (st_heap s1) + 3), (length (st_heap s1) + 2),
               (length (st_heap s1) + 1), (length (st_heap s1)), sc, tr.
        split; [done|]. split.
        { unfold d'. rewrite dict_get_set. by rewrite decide_True. }
        split; [done|]. split; [done|]. lia.
Qed.

(** The extra metadata of a layer with a channel axis whose metadata is
    already a list of mappings, one per channel: the output metadata is
    returned as it is, and the loop writes the extras of the j-th name into
    the j-th mapping.  A channel therefore ends with the extras of the last
    name whose mapping is the mapping of that channel: its own name when
    the mappings are different objects, the last name when they are one
    object.  A mapping that the loop does not reach, the names being fewer
    than the mappings, is left as it was. *)
Theorem channel_extras_are_the_last_written s data metadata axes c n ml locs :
  channel_count data c = Ok n →
  dict_get (KStr "metadata") metadata = Some (VRef ml) →
  st_heap s !! ml = Some (OList (VRef <$> locs)) →
  Forall (λ l, ∃ d, st_heap s !! l = Some (ODict d)) locs →
  tuple_or_absent (st_heap s) metadata "scale" →
  tuple_or_absent (st_heap s) metadata "translate" →
  let names := channel_names (st_heap s) metadata n in
  ∃ s',
    attach_extras_multi data metadata axes c s = (Ok metadata, s')
    ∧ (∀ i j l name,
         locs !! i = Some l → locs !! j = Some l → names !! j = Some name →
         (∀ j', j < j' → j' < length names → locs !! j' ≠ Some l) →
         channel_extra_name (st_heap s') metadata i = Some name)
    ∧ (∀ l d, l ∈ locs → st_heap s !! l = Some (ODict d) →
         (∀ j, j < length names → locs !! j ≠ Some l) →
         st_heap s' !! l = Some (ODict d)).
Proof.
  intros Hcount Hmeta Hml Hlocs Hscale Htranslate names.
  destruct (extras_loop metadata axes s (zip names (VRef <$> locs)) Hscale Htranslate)
    as (s' & Hrun & Hlen & Hother & Hdict & Hsame & Hlast).
  { apply Forall_forall. intros [nm v] Hin.
    apply elem_of_zip_r in Hin. cbn in Hin.
    apply list_elem_of_fmap in Hin as (l & -> & Hl).
    eapply Forall_forall in Hlocs as [d Hd]; [|done]. by exists l, d. }
  exists s'. split; [|split].
  - unfold attach_extras_multi.
    rewrite (bind_run _ _ _ n s) by (unfold read, rlift; by rewrite Hcount).
    rewrite Hmeta. rewrite (bind_run _ _ _ (VRef ml) s) by done.
    rewrite (bind_run _ _ _ metadata s) by (unfold is_list; by rewrite Hml).
    rewrite (bind_run _ _ _ names s).
    2: { unfold names, channel_names, is_list, read, iterate.
         destruct (default VNone (dict_get (KStr "name") metadata))
           as [| | | | |nl]; try done.
         by destruct (st_heap s !! nl) as [[]|]. }
    rewrite (bind_run _ _ _ (VRef <$> locs) s).
    2: { unfold read, rbind, rlift, local_get, iterate. by rewrite Hmeta, Hml. }
    by rewrite (bind_run _ _ _ _ _ Hrun).
  - intros i j l name Hi Hj Hname Hlater.
    destruct (Hlast j name l) as (d' & e & a & o & a' & sc & tr & Hl & Hget & He & Ho & _).
    { rewrite lookup_zip_with, Hname, list_lookup_fmap, Hj. done. }
    { intros j' [nm v] Hj' Hp Hv. cbn in Hv. subst v.
      apply lookup_zip_with_Some in Hp as (x & y & [= <- <-] & Hx & Hy).
      rewrite list_lookup_fmap in Hy.
      destruct (locs !! j') as [l'|] eqn:Hl'; [|done]. injection Hy as ->.
      apply (Hlater j'); [done | by eapply lookup_lt_Some | done]. }
    unfold channel_extra_name, channel_metadata, extra_metadata.
    rewrite Hmeta, (Hother _ _ Hml) by done.
    rewrite list_lookup_fmap, Hi. cbn. by rewrite Hl, Hget, He, Ho.
  - intros l d _ Hl Hnot. apply (Hsame _ _ Hl).
    intros [nm v] Hin Hv. cbn in Hv. subst v.
    apply list_elem_of_lookup in Hin as [j Hj].
    apply lookup_zip_with_Some in Hj as (x & y & [= <- <-] & Hx & Hy).
    rewrite list_lookup_fmap in Hy.
    destruct (locs !! j) as [l'|] eqn:Hl'; [|done]. injection Hy as ->.
    apply (Hnot j); [by eapply lookup_lt_Some | done].
Qed.

(** ** The data of a layer *)

Lemma squeeze_levels_squeezed levels c : ∀ squeezed,
  squeeze_levels levels c = Ok squeezed →
  Forall2 (squeezed_at c) levels squeezed.
Proof.
  induction levels as [|a levels IH]; intros squeezed.
  - intros [= <-]. constructor.
  - cbn [squeeze_levels]. unfold squeeze at 1.
    destruct (arr_shape a !! c) as [[|[|n]]|] eqn:Hc; try done.
    destruct (squeeze_levels levels c) as [rest|]; [|done].
    intros [= <-]. constructor; [done | by apply IH].
Qed.

(** The levels of a node are passed on as they are, the single level of a
    node with one level without the list around it, except for a labels
    node with a channel axis: its data is always a list, also for one
    level, of the levels without the channel axis, and that axis has
    length one in every level. *)
Theorem label_levels_lose_the_channel_axis node levels s data metadata kind s' :
  transform_node node levels s = (Ok (data, metadata, kind), s') →
  ∃ channel_axis,
    read_channel_axis (VRef (node_metadata node)) (st_heap s) = Ok channel_axis
    ∧ match channel_axis with
      | Some c =>
          if node_is_label node
          then ∃ squeezed, data = DList squeezed
                           ∧ Forall2 (squeezed_at c) levels squeezed
          else data = levels_as_data levels
      | None => data = levels_as_data levels
      end.
Proof.
  intros Hrun. unfold transform_node in Hrun.
  apply bind_Ok in Hrun as ([] & s1 & Hlog1 & Hrun).
  apply bind_Ok in Hrun as ([] & s2 & Hlog2 & Hrun).
  apply bind_Ok in Hrun as (channel_axis & s3 & Hdetect & Hrun).
  apply bind_Ok in Hrun as (md1 & s4 & _ & Hrun).
  apply bind_Ok in Hrun as (_ & s5 & _ & Hrun).
  apply bind_Ok in Hrun as ([[data2 md2] kind2] & s6 & Hbranch & Hrun).
  apply bind_Ok in Hrun as (axes & s7 & _ & Hrun).
  apply bind_Ok in Hrun as (md3 & s8 & _ & Hrun).
  injection Hrun as -> _ _ _.
  apply detect_channel_axis_Ok in Hdetect.
  injection Hlog1 as <-. injection Hlog2 as <-. cbn [st_heap] in Hdetect.
  exists channel_axis. split; [done|].
  fold (levels_as_data levels) in Hbranch.
  destruct (node_is_label node).
  - apply bind_Ok in Hbranch as (mdc & t1 & _ & Hbranch).
    apply bind_Ok in Hbranch as (data1 & t2 & Hdata & Hbranch).
    apply bind_Ok in Hbranch as (props & t3 & _ & Hbranch).
    apply bind_Ok in Hbranch as (properties & t4 & _ & Hbranch).
    apply bind_Ok in Hbranch as (mdp & t5 & _ & Hbranch).
    injection Hbranch as <- _ _ _.
    destruct channel_axis as [c|].
    + apply bind_Ok in Hdata as (squeezed & t6 & Hsq & Hdata).
      injection Hdata as <- _. apply read_Ok in Hsq as [Hsq _].
      exists squeezed. split; [done|]. by apply squeeze_levels_squeezed.
    + by injection Hdata as <- _.
  - apply bind_Ok in Hbranch as (_ & t1 & _ & Hbranch).
    apply bind_Ok in Hbranch as (mdc & t2 & _ & Hbranch).
    injection Hbranch as <- _ _ _. by destruct channel_axis.
Qed.

(** ** The entry point *)

(** A list of paths is read as its first path, with a warning exactly when
    it has more than one; a single path gives no warning, and an empty
    list raises IndexError.  A path that ome-zarr does not resolve gives no
    reader.  For one that it resolves the result is a reader function, and
    a run of it that returns gives one layer for every node with data that
    ome-zarr's reader yields, in their order. *)
Theorem entry_point_reads_the_first_path {Location}
    (parse_url : string → option Location) (Reader : Location → list Node)
    p ps :
  napari_get_reader Location parse_url Reader (Paths (p :: ps))
  = (if bool_decide (ps = []) then [] else [MoreThanOnePath],
     (napari_get_reader Location parse_url Reader (Path p)).2)
  ∧ (napari_get_reader Location parse_url Reader (Path p)).1 = []
  ∧ napari_get_reader Location parse_url Reader (Paths [])
    = ([], Raise IndexError)
  ∧ (parse_url p = None →
     (napari_get_reader Location parse_url Reader (Path p)).2 = Ok None)
  ∧ (∀ zarr, parse_url p = Some zarr →
     ∃ f, (napari_get_reader Location parse_url Reader (Path p)).2 = Ok (Some f)
          ∧ ∀ s results s',
              f s = (Ok results, s') →
              Forall2 layer_of
                (filter (λ n, has_data n = true) (Reader zarr)) results).
Proof.
  split; [|split; [done|split; [done|split]]].
  - unfold napari_get_reader. cbn [lookup list_lookup length]. f_equal.
    destruct ps as [|p' ps]; [done|].
    rewrite bool_decide_eq_true_2 by (cbn; lia).
    by rewrite bool_decide_eq_false_2.
  - intros Hnone. cbn. unfold open_path. by rewrite Hnone.
  - intros zarr Hzarr. exists (transform (Reader zarr)). split.
    + cbn. unfold open_path. by rewrite Hzarr.
    + intros s results s' Hrun. unfold transform in Hrun.
      by apply f_loop_layers in Hrun as (new & -> & Hnew).
Qed.

(** ** The log of a run *)

Lemma quiet_run {A} (m : M A) s a s' :
  m s = (Ok a, s') → quiet m → st_log s' = st_log s.
Proof. intros Hrun Hm. by eapply Hm. Qed.

Lemma quiet_ret {A} (a : A) : quiet (ret a).
Proof. by intros s a' s' [= _ <-]. Qed.

Lemma quiet_raise {A} e : quiet (raise (A := A) e).
Proof. by intros s a s'. Qed.

Lemma quiet_bind {A B} (m : M A) (k : A → M B) :
  quiet m → (∀ a, quiet (k a)) → quiet (bind m k).
Proof.
  intros Hm Hk s b s' Hrun.
  apply bind_Ok in Hrun as (a & s1 & Hrun1 & Hrun2).
  rewrite (Hk _ _ _ _ Hrun2). by eapply Hm.
Qed.

Lemma quiet_read {A} (r : heap → outcome A) : quiet (read r).
Proof. by intros s a s' [_ ->]%read_Ok. Qed.

Lemma quiet_alloc o : quiet (alloc o).
Proof. by intros s a s' [= _ <-]. Qed.

Lemma quiet_store l o : quiet (store l o).
Proof. by intros s a s' [= _ <-]. Qed.

Lemma quiet_warn w : quiet (warn w).
Proof. by intros s a s' [= _ <-]. Qed.

Create HintDb quiet.
#[local] Hint Resolve quiet_ret quiet_raise quiet_read quiet_alloc quiet_store
  quiet_warn : quiet.

(** The rules for the sequence and for the branches of a computation. *)
Ltac quiet_step :=
  first
    [ assumption
    | solve [auto with quiet]
    | apply quiet_bind; [|intros ?]
    | progress cbn beta
    | progress case_match ].

Ltac quiet_branches :=
  let s := fresh "s" in
  let a := fresh "a" in
  let s' := fresh "s'" in
  let Hrun := fresh "Hrun" in
  intros s a s'; repeat case_match;
  try (by intros [= _ <-]); try (by intros);
  intros Hrun; apply (quiet_run _ _ _ _ Hrun); repeat quiet_step.

Lemma quiet_setitem v k x : quiet (setitem v k x).
Proof. unfold setitem. quiet_branches. Qed.

Lemma quiet_method_pop v i : quiet (method_pop v i).
Proof. unfold method_pop. quiet_branches. Qed.

Lemma quiet_py_tuple v : quiet (py_tuple v).
Proof. unfold py_tuple. quiet_branches. Qed.

Lemma quiet_list_append l x : quiet (list_append l x).
Proof. unfold list_append. quiet_branches. Qed.

Lemma quiet_ref_loc v : quiet (ref_loc v).
Proof. unfold ref_loc. repeat quiet_step. Qed.

#[local] Hint Resolve quiet_setitem quiet_method_pop quiet_py_tuple
  quiet_list_append quiet_ref_loc : quiet.

Lemma quiet_foldM {A T} (body : A → T → M T) xs : ∀ acc,
  (∀ x acc, quiet (body x acc)) → quiet (foldM body xs acc).
Proof.
  induction xs as [|x xs IH]; intros acc Hbody; cbn [foldM].
  - apply quiet_ret.
  - apply quiet_bind; [apply Hbody|]. intros acc'. by apply IH.
Qed.

Lemma quiet_for_list {T} (body : nat → val → T → M T) l fuel : ∀ i acc,
  (∀ i x acc, quiet (body i x acc)) → quiet (for_list fuel l i body acc).
Proof.
  induction fuel as [|fuel IH]; intros i acc Hbody; cbn [for_list].
  - apply quiet_ret.
  - intros s a s'. repeat case_match; try (by intros [= _ <-]).
    intros Hrun. apply (quiet_run _ _ _ _ Hrun).
    apply quiet_bind; [apply Hbody|]. intros acc'. by apply IH.
Qed.

Lemma quiet_for_each {T} (body : nat → val → T → M T) v acc :
  (∀ i x acc, quiet (body i x acc)) → quiet (for_each v body acc).
Proof.
  intros Hbody.
  assert (quiet (let! xs := read (iterate v) in
                 foldM (λ ix, body ix.1 ix.2) (enumerate xs) acc)) as Hother.
  { apply quiet_bind; [apply quiet_read|]. intros xs.
    apply quiet_foldM. intros ix acc'. apply Hbody. }
  intros s a s'. unfold for_each.
  destruct v as [| | | | |l]; try apply Hother.
  destruct (st_heap s !! l) as [[| xs | | | | |]|]; try apply Hother.
  by apply quiet_for_list.
Qed.

Lemma quiet_deepcopy_rec fuel : ∀ v mm, quiet (deepcopy_rec fuel v mm).
Proof.
  induction fuel as [|fuel IH]; intros v mm; cbn [deepcopy_rec].
  - apply quiet_raise.
  - destruct v as [| | | | |l]; try apply quiet_ret.
    destruct (memo_get l mm); [apply quiet_ret|].
    intros s a s'. repeat case_match; try (by intros);
      intros Hrun; apply (quiet_run _ _ _ _ Hrun);
      repeat first [ apply IH | apply quiet_foldM; intros ? ? | quiet_step ].
Qed.

Lemma quiet_deepcopy v : quiet (deepcopy v).
Proof.
  intros s a s' Hrun. unfold deepcopy in Hrun.
  apply (quiet_run _ _ _ _ Hrun).
  apply quiet_bind; [apply quiet_deepcopy_rec | intros r; apply quiet_ret].
Qed.

#[local] Hint Resolve quiet_deepcopy : quiet.

Lemma quiet_detect_channel_axis node_metadata :
  quiet (detect_channel_axis node_metadata).
Proof.
  intros s c s'. unfold detect_channel_axis, try_except, read.
  destruct (read_channel_axis node_metadata (st_heap s)).
  - by intros [= _ <-].
  - unfold bind, log_msg, raise. discriminate.
Qed.

Lemma quiet_transform_scale node_metadata metadata c :
  quiet (transform_scale node_metadata metadata c).
Proof.
  unfold transform_scale. repeat quiet_step.
  apply quiet_for_each. intros i transf acc.
  unfold transform_scale_step, transform_scale_field. repeat quiet_step.
Qed.

Lemma quiet_wrap_name node_metadata c : quiet (wrap_name node_metadata c).
Proof.
  unfold wrap_name. apply quiet_bind; [apply quiet_read|]. intros name.
  quiet_branches.
Qed.

Lemma quiet_store_properties p : quiet (store_properties p).
Proof.
  unfold store_properties. apply quiet_bind; [|intros d; repeat quiet_step].
  apply quiet_foldM. intros kc d. repeat quiet_step.
Qed.

Lemma quiet_colormap_step cms idx cm u : quiet (colormap_step cms idx cm u).
Proof. unfold colormap_step, Colormap. quiet_branches. Qed.

Lemma quiet_shim_colormaps node_metadata : quiet (shim_colormaps node_metadata).
Proof.
  unfold shim_colormaps. apply quiet_bind; [apply quiet_read|]. intros d.
  destruct (dict_get (KStr "colormap") d) as [cms|]; [|apply quiet_ret].
  assert (∀ keys idx, quiet (colormap_dict_loop cms idx keys)) as Hdict.
  { induction keys as [|k keys IH]; intros idx; cbn [colormap_dict_loop].
    - apply quiet_ret.
    - apply quiet_bind; [apply quiet_read|]. intros d'.
      apply quiet_bind; [apply quiet_colormap_step|]. intros _.
      destruct (dict_has _ _); [apply IH | apply quiet_raise]. }
  intros s a s'. unfold colormap_loop.
  destruct (as_dict cms (st_heap s)); [apply Hdict|].
  apply quiet_for_each. intros i x acc. apply quiet_colormap_step.
Qed.

Lemma quiet_get_axes metadata : quiet (get_axes metadata).
Proof. unfold get_axes. repeat quiet_step. Qed.

Lemma quiet_make_extras metadata axes name :
  quiet (make_extras metadata axes name).
Proof. unfold make_extras. repeat quiet_step. Qed.

#[local] Hint Resolve quiet_detect_channel_axis quiet_transform_scale
  quiet_wrap_name quiet_store_properties quiet_shim_colormaps quiet_get_axes
  quiet_make_extras : quiet.

Lemma quiet_attach_extras_single metadata axes :
  quiet (attach_extras_single metadata axes).
Proof. unfold attach_extras_single. repeat quiet_step. Qed.

Lemma quiet_attach_extras_multi data metadata axes c :
  quiet (attach_extras_multi data metadata axes c).
Proof.
  unfold attach_extras_multi.
  apply quiet_bind; [apply quiet_read|]. intros n_channels.
  apply quiet_bind; [repeat quiet_step|]. intros meta.
  apply quiet_bind; [quiet_branches|]. intros metadata1.
  apply quiet_bind; [quiet_branches|]. intros names.
  apply quiet_bind; [apply quiet_read|]. intros ms.
  apply quiet_bind; [|intros _; apply quiet_ret].
  apply quiet_foldM. intros nm _. repeat quiet_step.
Qed.

#[local] Hint Resolve quiet_attach_extras_single quiet_attach_extras_multi
  : quiet.

Lemma transform_node_log node levels s rv s' :
  transform_node node levels s = (Ok rv, s') →
  st_log s' = st_log s ++ [(DEBUG, Transforming node);
                           (DEBUG, NodeMetadata (node_metadata node))].
Proof.
  intros Hrun. unfold transform_node in Hrun.
  apply bind_Ok in Hrun as ([] & s1 & Hlog1 & Hrun).
  apply bind_Ok in Hrun as ([] & s2 & Hlog2 & Hrun).
  injection Hlog1 as <-. injection Hlog2 as <-.
  rewrite (quiet_run _ _ _ _ Hrun); [cbn; by rewrite <- app_assoc|].
  repeat quiet_step.
Qed.

Lemma f_loop_log nodes : ∀ results s out s',
  f_loop nodes results s = (Ok out, s') →
  ∃ new, out = results ++ new ∧ st_log s' = st_log s ++ run_log nodes new.
Proof.
  induction nodes as [|node rest IH]; intros results s out s' Hrun.
  - injection Hrun as <- <-. exists []. by rewrite !app_nil_r.
  - cbn [run_log]. destruct (has_data node) eqn:Hd.
    + destruct (has_data_levels _ Hd) as (levels & Hdata & Hlen).
      rewrite (f_loop_data _ levels) in Hrun by done.
      apply bind_Ok in Hrun as (rv & s1 & Hnode & Hrun).
      apply bind_Ok in Hrun as ([] & s2 & Hlog & Hrun).
      injection Hlog as <-.
      apply transform_node_log in Hnode.
      apply IH in Hrun as (new & -> & Hnew).
      exists (rv :: new). split; [by rewrite <- app_assoc|].
      rewrite Hnew. cbn [st_log]. rewrite Hnode. by rewrite <- !app_assoc.
    + rewrite f_loop_skip in Hrun by done.
      apply IH in Hrun as (new & -> & Hnew).
      exists new. split; [done|]. rewrite Hnew. cbn. by rewrite <- app_assoc.
Qed.

(** A run of the reader function that returns has added to the log, in
    the order of the nodes, one message for every node without data and
    three for every node with data: that it is transformed, its metadata,
    and the layer made of it.  All of them have the level of debugging:
    nothing is logged as an error in a run that returns. *)
Theorem run_log_is_debug_only nodes s results s' :
  transform nodes s = (Ok results, s') →
  st_log s' = st_log s ++ run_log nodes results
  ∧ Forall (λ entry, entry.1 = DEBUG) (run_log nodes results)
  ∧ length (run_log nodes results)
    = length (filter (λ n, has_data n = false) nodes) + 3 * length results.
Proof.
  intros Hrun. pose proof Hrun as Hlayers.
  apply f_loop_log in Hrun as (new & -> & Hlog). cbn [app] in *.
  apply f_loop_layers in Hlayers as (new' & [= <-] & Hlayers).
  split; [done|]. clear Hlog. split.
  - clear Hlayers. revert new.
    induction nodes as [|node rest IH]; intros new; cbn [run_log]; [constructor|].
    destruct (has_data node).
    + destruct new as [|rv new]; [constructor|].
      repeat (apply Forall_cons; split; [done|]). apply IH.
    + apply Forall_cons. split; [done | apply IH].
  - revert new Hlayers.
    induction nodes as [|node rest IH]; intros new Hlayers; cbn [run_log].
    + apply Forall2_nil_inv_l in Hlayers as ->. done.
    + destruct (has_data node) eqn:Hd.
      * rewrite filter_cons_True in Hlayers by done.
        rewrite filter_cons_False by congruence.
        apply Forall2_cons_inv_l in Hlayers as (rv & new' & _ & Hrest & ->).
        cbn. rewrite (IH _ Hrest). lia.
      * rewrite filter_cons_False in Hlayers by congruence.
        rewrite filter_cons_True by done. cbn. by rewrite (IH _ Hlayers).
Qed.

(** ** The extras of a layer without channel axis *)

(** For a layer without channel axis the extras are written into the
    mapping that the output metadata has under 'metadata', an object that
    may come from the node, or into a new mapping that is put there when
    it has none; nothing else of the output metadata changes.  The mapping
    keeps its other entries, and the extras carry the name of the output
    metadata, None when it has no name. *)
Theorem single_channel_extras_go_into_metadata s metadata axes prior :
  metadata_mapping (st_heap s) metadata = Some prior →
  tuple_or_absent (st_heap s) metadata "scale" →
  tuple_or_absent (st_heap s) metadata "translate" →
  ∃ metadata' s' m e a o a' sc tr,
    attach_extras_single metadata axes s = (Ok metadata', s')
    ∧ only_changes ["metadata"] metadata metadata'
    ∧ dict_get (KStr "metadata") metadata' = Some (VRef m)
    ∧ (is_Some (dict_get (KStr "metadata") metadata) → metadata' = metadata)
    ∧ st_heap s' !! m
      = Some (ODict (dict_set (KStr EXTRA_METADATA_KEY) (VRef e) prior))
    ∧ st_heap s' !! e = Some (OExtra a o)
    ∧ st_heap s' !! o
      = Some (OOriginal a' (default VNone (dict_get (KStr "name") metadata))
                sc tr).
Proof.
  intros Hprior Hscale Htranslate.
  assert (∀ s1 metadata1 m,
    dict_get (KStr "metadata") metadata1 = Some (VRef m) →
    st_heap s1 !! m = Some (ODict prior) →
    tuple_or_absent (st_heap s1) metadata1 "scale" →
    tuple_or_absent (st_heap s1) metadata1 "translate" →
    ∃ s' e a o a' sc tr,
      (let name := default VNone (dict_get (KStr "name") metadata1) in
       let! extras := make_extras metadata1 axes name in
       let! m := read (rlift (local_get (KStr "metadata") metadata1)) in
       let! _ := setitem m (KStr EXTRA_METADATA_KEY) extras in
       ret metadata1) s1 = (Ok metadata1, s')
      ∧ st_heap s' !! m
        = Some (ODict (dict_set (KStr EXTRA_METADATA_KEY) (VRef e) prior))
      ∧ st_heap s' !! e = Some (OExtra a o)
      ∧ st_heap s' !! o
        = Some (OOriginal a' (default VNone (dict_get (KStr "name") metadata1))
                  sc tr)) as Hrest.
  { intros s1 metadata1 m Hm Hmap Hsc Htr.
    pose proof (lookup_lt_Some _ _ _ Hmap) as Hlt.
    eexists _, (length (st_heap s1) + 3), (length (st_heap s1) + 2),
            (length (st_heap s1) + 1), (length (st_heap s1)), _, _.
    split; [|split; [|split]].
    - cbv zeta.
      assert (∀ s0, read (rlift (local_get (KStr "metadata") metadata1)) s0
                    = (Ok (VRef m), s0)) as Hread
        by (intros s0; unfold read, rlift, local_get; by rewrite Hm).
      rewrite (bind_run _ _ _ _ _ (make_extras_run s1 metadata1 axes _ Hsc Htr)).
      rewrite (bind_run _ _ _ _ _ (Hread _)).
      unfold bind, setitem. cbn [st_heap set_heap].
      rewrite lookup_app_l by done. rewrite Hmap. reflexivity.
    - cbn. apply list_lookup_insert_eq. rewrite length_app. lia.
    - cbn. rewrite list_lookup_insert_ne by lia. rewrite lookup_app_r by lia.
      by replace (length (st_heap s1) + 3 - length (st_heap s1)) with 3 by lia.
    - cbn. rewrite list_lookup_insert_ne by lia. rewrite lookup_app_r by lia.
      by replace (length (st_heap s1) + 1 - length (st_heap s1)) with 1 by lia. }
  unfold metadata_mapping in Hprior. unfold attach_extras_single.
  rewrite dict_has_get.
  destruct (dict_get (KStr "metadata") metadata) as [v|] eqn:Hmeta.
  - destruct v as [| | | | |m]; try done.
    destruct (st_heap s !! m) as [[d| | | | | |]|] eqn:Hm; try done.
    injection Hprior as ->.
    destruct (Hrest s metadata m Hmeta Hm Hscale Htranslate)
      as (s' & e & a & o & a' & sc & tr & Hrun & Hmap & He & Ho).
    exists metadata, s', m, e, a, o, a', sc, tr.
    split; [by rewrite (bind_run _ _ _ metadata s)|].
    split; [apply only_changes_refl|]. done.
  - injection Hprior as <-.
    set (m := length (st_heap s)).
    set (metadata1 := dict_set (KStr "metadata") (VRef m) metadata).
    set (s1 := set_heap (st_heap s ++ [ODict []]) s).
    assert (∀ k, k ≠ "metadata" →
              tuple_or_absent (st_heap s) metadata k →
              tuple_or_absent (st_heap s1) metadata1 k) as Htuples.
    { intros k Hk Htuple v. unfold metadata1. rewrite dict_get_set.
      rewrite decide_False by congruence. intros Hv.
      destruct (Htuple v Hv) as (t & xs & -> & Ht).
      exists t, xs. split; [done|]. cbn.
      by rewrite lookup_app_l by (by eapply lookup_lt_Some). }
    destruct (Hrest s1 metadata1 m) as (s' & e & a & o & a' & sc & tr & Hrun & Hmap & He & Ho).
    { unfold metadata1. rewrite dict_get_set. by rewrite decide_True. }
    { cbn. rewrite lookup_app_r by (unfold m; lia).
      by replace (m - length (st_heap s)) with 0 by (unfold m; lia). }
    { by apply Htuples. }
    { by apply Htuples. }
    assert (dict_get (KStr "name") metadata1 = dict_get (KStr "name") metadata)
      as Hname.
    { unfold metadata1. rewrite dict_get_set. by rewrite decide_False. }
    rewrite Hname in Ho, Hrun.
    exists metadata1, s', m, e, a, o, a', sc, tr.
    split; [|split; [|split; [|split; [|done]]]].
    + rewrite (bind_run _ _ _ metadata1 s1) by done.
      cbv zeta. by rewrite Hname.
    + apply only_changes_set; [|apply only_changes_refl].
      apply elem_of_cons. by left.
    + unfold metadata1. rewrite dict_get_set. by rewrite decide_True.
    + by intros [? ?].
Qed.

(** When the output metadata of a layer without channel axis has a list
    under 'metadata', as a labels node with a list there gives it, the
    extras are built and their assignment under the reserved key raises
    TypeError: a list takes no string as an index. *)
Theorem metadata_list_without_channel_axis_raises s metadata axes m ms :
  dict_get (KStr "metadata") metadata = Some (VRef m) →
  st_heap s !! m = Some (OList ms) →
  tuple_or_absent (st_heap s) metadata "scale" →
  tuple_or_absent (st_heap s) metadata "translate" →
  ∃ s', attach_extras_single metadata axes s = (Raise TypeError, s')
        ∧ st_heap s `prefix_of` st_heap s'
        ∧ st_log s' = st_log s ∧ st_warnings s' = st_warnings s.
Proof.
  intros Hmeta Hm Hscale Htranslate. unfold attach_extras_single.
  rewrite dict_has_get, Hmeta.
  rewrite (bind_run _ _ _ metadata s) by done. cbv zeta.
  assert (∀ s0, read (rlift (local_get (KStr "metadata") metadata)) s0
                = (Ok (VRef m), s0)) as Hread
    by (intros s0; unfold read, rlift, local_get; by rewrite Hmeta).
  rewrite (bind_run _ _ _ _ _ (make_extras_run s metadata axes _ Hscale Htranslate)).
  rewrite (bind_run _ _ _ _ _ (Hread _)).
  unfold bind, setitem. cbn [st_heap set_heap].
  rewrite lookup_app_l by (by eapply lookup_lt_Some). rewrite Hm.
  eexists. split; [reflexivity|]. cbn. split; [by apply prefix_app_r | done].
Qed.

(** ** The channel entry of the scale *)

Lemma scale_only_run s md la xs i :
  scale_only_node (st_heap s) md la xs → i < length xs →
  transform_scale (VRef md) [] (Some i) s
  = (Ok [(KStr "scale", VRef (length (st_heap s)))],
     set_heap (<[la := OList (delete i xs)]> (st_heap s)
               ++ [OTuple (delete i xs)]) s).
Proof.
  intros (d & cts & others & l0 & le & de & Hmd & Hcts & Hlist & Hl0 & Hle
          & Hsc & Htr & Hla & Hne1 & Hne2) Hi.
  unfold transform_scale.
  rewrite (bind_run _ _ s true s)
    by (unfold read; by rewrite (contains_dict _ _ _ _ Hmd), dict_has_get, Hcts).
  rewrite (bind_run _ _ s (VRef cts) s)
    by (unfold read; by rewrite (subscript_dict _ _ _ _ Hmd), Hcts).
  rewrite (bind_run _ _ s (VRef l0) s)
    by (unfold read, subscript; by rewrite Hlist).
  unfold for_each. rewrite Hl0. cbn [length].
  rewrite (for_list_cons _ _ _ _ _ _ _ (VRef le) Hl0) by done.
  unfold transform_scale_step. rewrite bind_assoc.
  set (s1 := set_heap (<[la := OList (delete i xs)]> (st_heap s)) s).
  set (s2 := set_heap (st_heap s1 ++ [OTuple (delete i xs)]) s1).
  assert (st_heap s1 !! la = Some (OList (delete i xs))) as Hla1.
  { cbn. apply list_lookup_insert_eq. by eapply lookup_lt_Some. }
  assert (length (st_heap s1) = length (st_heap s)) as Hlen1.
  { cbn. apply length_insert. }
  assert (transform_scale_field "scale" "scale" (Some i) (VRef le) [] s
          = (Ok [(KStr "scale", VRef (length (st_heap s)))], s2)) as Hfield.
  { unfold transform_scale_field.
    rewrite (bind_run _ _ s true s)
      by (unfold read; by rewrite (contains_dict _ _ _ _ Hle), dict_has_get, Hsc).
    rewrite (bind_run _ _ s (VRef la) s)
      by (unfold read; by rewrite (subscript_dict _ _ _ _ Hle), Hsc).
    rewrite (bind_run _ _ _ _ _ (method_pop_list _ _ _ _ Hla Hi)).
    fold s1. rewrite (bind_run _ _ _ _ _ (py_tuple_list _ _ _ Hla1)).
    by rewrite Hlen1. }
  rewrite (bind_run _ _ _ _ _ Hfield).
  assert (st_heap s2 !! le = Some (ODict de)) as Hle2.
  { cbn. rewrite lookup_app_l
      by (rewrite length_insert; by eapply lookup_lt_Some).
    rewrite list_lookup_insert_ne; [done|].
    intros ->. rewrite Hla in Hle. discriminate. }
  assert (transform_scale_field "translation" "translate" (Some i) (VRef le)
            [(KStr "scale", VRef (length (st_heap s)))] s2
          = (Ok [(KStr "scale", VRef (length (st_heap s)))], s2)) as Hfield2.
  { unfold transform_scale_field.
    by rewrite (bind_run _ _ s2 false s2)
      by (unfold read; by rewrite (contains_dict _ _ _ _ Hle2), dict_has_get, Htr). }
  by rewrite (bind_run _ _ _ _ _ Hfield2).
Qed.

Lemma scale_only_kept s md la xs ys :
  scale_only_node (st_heap s) md la xs →
  scale_only_node (<[la := OList ys]> (st_heap s) ++ [OTuple ys]) md la ys.
Proof.
  intros (d & cts & others & l0 & le & de & Hmd & Hcts & Hlist & Hl0 & Hle
          & Hsc & Htr & Hla & Hne1 & Hne2).
  assert (∀ l o, l ≠ la → st_heap s !! l = Some o →
            (<[la := OList ys]> (st_heap s) ++ [OTuple ys]) !! l = Some o)
    as Hkeep.
  { intros l o Hne Hl.
    rewrite lookup_app_l by (rewrite length_insert; by eapply lookup_lt_Some).
    by rewrite list_lookup_insert_ne. }
  exists d, cts, others, l0, le, de.
  split. { apply Hkeep; [|done]. intros ->. rewrite Hla in Hmd. discriminate. }
  split; [done|].
  split. { by apply Hkeep. }
  split. { by apply Hkeep. }
  split. { apply Hkeep; [|done]. intros ->. rewrite Hla in Hle. discriminate. }
  split; [done|]. split; [done|]. split; [|done].
  rewrite lookup_app_l by (rewrite length_insert; by eapply lookup_lt_Some).
  apply list_lookup_insert_eq. by eapply lookup_lt_Some.
Qed.

Lemma scale_only_exhausted s md la xs i :
  scale_only_node (st_heap s) md la xs → length xs ≤ i →
  transform_scale (VRef md) [] (Some i) s = (Raise IndexError, s).
Proof.
  intros (d & cts & others & l0 & le & de & Hmd & Hcts & Hlist & Hl0 & Hle
          & Hsc & Htr & Hla & Hne1 & Hne2) Hi.
  unfold transform_scale.
  rewrite (bind_run _ _ s true s)
    by (unfold read; by rewrite (contains_dict _ _ _ _ Hmd), dict_has_get, Hcts).
  rewrite (bind_run _ _ s (VRef cts) s)
    by (unfold read; by rewrite (subscript_dict _ _ _ _ Hmd), Hcts).
  rewrite (bind_run _ _ s (VRef l0) s)
    by (unfold read, subscript; by rewrite Hlist).
  unfold for_each. rewrite Hl0. cbn [length].
  rewrite (for_list_cons _ _ _ _ _ _ _ (VRef le) Hl0) by done.
  unfold transform_scale_step, transform_scale_field.
  rewrite !bind_assoc.
  rewrite (bind_run _ _ s true s)
    by (unfold read; by rewrite (contains_dict _ _ _ _ Hle), dict_has_get, Hsc).
  rewrite bind_assoc.
  rewrite (bind_run _ _ s (VRef la) s)
    by (unfold read; by rewrite (subscript_dict _ _ _ _ Hle), Hsc).
  unfold bind, method_pop. rewrite Hla.
  by rewrite bool_decide_eq_false_2 by lia.
Qed.

(** With a channel axis, [transform_scale] takes the entry at that axis
    out of the scale array of the node itself: the output scale and the
    node's array are both the array without it.  A second run on the same
    node therefore takes out one more entry, and raises IndexError when
    no entry is left at the channel axis. *)
Theorem channel_entry_is_popped_in_place s md la xs i :
  scale_only_node (st_heap s) md la xs →
  i < length xs →
  ∃ metadata s',
    transform_scale (VRef md) [] (Some i) s = (Ok metadata, s')
    ∧ tuple_at (st_heap s') metadata "scale" = Some (delete i xs)
    ∧ st_heap s' !! la = Some (OList (delete i xs))
    ∧ (S i < length xs →
       ∃ metadata2 s2,
         transform_scale (VRef md) [] (Some i) s' = (Ok metadata2, s2)
         ∧ tuple_at (st_heap s2) metadata2 "scale"
           = Some (delete i (delete i xs)))
    ∧ (length xs = S i →
       transform_scale (VRef md) [] (Some i) s' = (Raise IndexError, s')).
Proof.
  intros Hnode Hi.
  pose proof Hnode as (d & cts & others & l0 & le & de & Hmd & Hcts & Hlist
                       & Hl0 & Hle & Hsc & Htr & Hla & Hne1 & Hne2).
  pose proof (lookup_lt_Some _ _ _ Hla) as Hlt.
  pose proof (scale_only_kept s md la xs (delete i xs) Hnode) as Hnode'.
  assert (∀ (h : heap) ys, (h ++ [OTuple ys]) !! length h = Some (OTuple ys))
    as Hnew.
  { intros h ys. rewrite lookup_app_r by lia. by rewrite Nat.sub_diag. }
  assert (length (delete i xs) = length xs - 1) as Hlen.
  { rewrite length_delete; [done|]. by apply lookup_lt_is_Some. }
  eexists _, _. split; [by apply scale_only_run|].
  cbn [st_heap set_heap]. split; [|split; [|split]].
  - unfold tuple_at. cbn [dict_get]. rewrite decide_True by done.
    rewrite <- (length_insert (st_heap s) la (OList (delete i xs))).
    by rewrite Hnew.
  - rewrite lookup_app_l by (by rewrite length_insert).
    by apply list_lookup_insert_eq.
  - intros Hmore. eexists _, _.
    split; [apply (scale_only_run _ md la (delete i xs)); [exact Hnode' | lia]|].
    cbn [st_heap set_heap]. unfold tuple_at. cbn [dict_get].
    rewrite decide_True by done.
    match goal with |- context [(<[la := ?o]> ?h ++ ?t) !! length ?h'] =>
      rewrite <- (length_insert h' la o) end.
    by rewrite Hnew.
  - intros Hlast. apply (scale_only_exhausted _ md la (delete i xs)).
    + exact Hnode'.
    + lia.
Qed.

(** ** The channels of a labels layer *)

(** For a labels node with a channel axis the number of channels is read
    from the first level after the channel axis has been removed from it:
    it is the length of the axis that follows the channel axis in the
    node's level, and IndexError is raised when the channel axis is the
    last. *)
Theorem label_channel_count_reads_the_next_axis a levels c squeezed :
  squeeze_levels (a :: levels) c = Ok squeezed →
  arr_shape a !! c = Some 1
  ∧ channel_count (DList squeezed) c
    = match arr_shape a !! S c with
      | Some n => Ok n
      | None => Raise IndexError
      end.
Proof.
  intros Hsq. apply squeeze_levels_squeezed in Hsq.
  apply Forall2_cons_inv_l in Hsq as (a' & rest & (_ & Hone & Hshape) & _ & ->).
  split; [done|]. unfold channel_count. rewrite Hshape.
  by rewrite list_lookup_delete_ge.
Qed.

(** ** Properties that are not mappings *)

Lemma as_dict_raises v h e : as_dict v h = Raise e → e = AttributeError.
Proof.
  unfold as_dict. destruct v as [| | | | |l]; try (by intros [= <-]).
  destruct (h !! l) as [[]|]; by intros [= <-].
Qed.

Lemma create_lists_non_mapping h items : ∀ i item (acc : dict (list val)),
  items !! i = Some item →
  (∀ d, as_dict item.2 h ≠ Ok d) →
  rfoldM create_lists items acc h = Raise AttributeError.
Proof.
  induction items as [|item0 items IH]; intros i item acc Hi Hitem; [done|].
  cbn [rfoldM]. unfold rbind at 1, create_lists at 1, rbind, rret.
  destruct (as_dict item0.2 h) as [d|e] eqn:Hd.
  - destruct i as [|i]; cbn in Hi.
    + injection Hi as ->. by destruct (Hitem d).
    + by eapply IH.
  - by rewrite (as_dict_raises _ _ _ Hd).
Qed.

(** The pivot raises AttributeError for properties that are neither None
    nor a mapping, and for a properties mapping in which some label does
    not map to a mapping, wherever that label stands. *)
Theorem pivot_of_a_non_mapping_raises h :
  (∀ props, props ≠ VNone → (∀ d, as_dict props h ≠ Ok d) →
     transform_properties props h = Raise AttributeError)
  ∧ (∀ p items i item,
       h !! p = Some (ODict items) →
       items !! i = Some item →
       (∀ d, as_dict item.2 h ≠ Ok d) →
       transform_properties (VRef p) h = Raise AttributeError).
Proof.
  split.
  - intros props Hnone Hprops. unfold transform_properties.
    destruct props; [done|..]; unfold rbind;
      (destruct (as_dict _ h) as [d|err] eqn:Hd;
         [by destruct (Hprops d) | by rewrite (as_dict_raises _ _ _ Hd)]).
  - intros p items i item Hp Hi Hitem.
    unfold transform_properties, rbind, as_dict. rewrite Hp.
    by rewrite (create_lists_non_mapping h items i item [] Hi Hitem).
Qed.

End Facts.

(** * The reader on the sample datasets *)

#[local] Existing Instance demo_imports.

(** C1: on the image with channels named "a" and "b" and no per-channel
    metadata list, the reader stores under the reserved key of channel 0
    an ExtraMetadata constructed with the name "b": the metadata mapping is
    one object repeated for every channel, and every channel ends with the
    extras of the last name. *)
Theorem channel_extras_carry_last_name :
  ∃ data metadata s',
    transform [two_channel_node] (initial two_channel_store)
    = (Ok [(data, metadata, image)], s')
    ∧ dict_get (KStr "name") metadata = Some (VRef 9)
    ∧ st_heap s' !! 9 = Some (OList [VStr "a"; VStr "b"])
    ∧ channel_extra_name (st_heap s') metadata 0 = Some (VStr "b")
    ∧ channel_extra_name (st_heap s') metadata 1 = Some (VStr "b").
Proof.
  eexists _, _, _. split; [vm_compute; reflexivity|]. by vm_compute.
Qed.

(** With a per-channel list of two distinct mappings the same loop gives
    every channel the ExtraMetadata of its own name. *)
Example per_channel_list_keeps_names :
  ∃ data metadata s',
    transform [two_channel_node] (initial per_channel_store)
    = (Ok [(data, metadata, image)], s')
    ∧ channel_extra_name (st_heap s') metadata 0 = Some (VStr "a")
    ∧ channel_extra_name (st_heap s') metadata 1 = Some (VStr "b").
Proof.
  eexists _, _, _. split; [vm_compute; reflexivity|]. by vm_compute.
Qed.

(** C2: on the image with three channels and a single metadata mapping,
    the per-channel list that the reader builds holds one copy three
    times: the three channels have the same mapping and the same
    ExtraMetadata, and an entry written through channel 0 is read through
    channel 1. *)
Theorem channel_metadata_is_one_object :
  ∃ data metadata s' m extra s'',
    transform [three_channel_node] (initial three_channel_store)
    = (Ok [(data, metadata, image)], s')
    ∧ channel_metadata (st_heap s') metadata 0 = Some m
    ∧ channel_metadata (st_heap s') metadata 1 = Some m
    ∧ channel_metadata (st_heap s') metadata 2 = Some m
    ∧ extra_metadata (st_heap s') m = Some extra
    ∧ subscript m (KStr "seen") (st_heap s') = Raise (KeyError (KStr "seen"))
    ∧ setitem m (KStr "seen") (VBool true) s' = (Ok tt, s'')
    ∧ ∃ m1, channel_metadata (st_heap s'') metadata 1 = Some m1
            ∧ subscript m1 (KStr "seen") (st_heap s'') = Ok (VBool true).
Proof.
  eexists _, _, _, _, _, _. split; [vm_compute; reflexivity|].
  do 4 (split; [vm_compute; reflexivity|]).
  split; [by vm_compute|]. split; [vm_compute; reflexivity|].
  eexists. split; [vm_compute; reflexivity|]. by vm_compute.
Qed.


(** C6 as written does not hold for a label with a property named
    "index": the column of the synthetic key receives the label identifier
    and the value of the property. *)
Lemma index_property_collides :
  label_rows index_property_store
    [(KInt 1, VRef 1)] [(KInt 1, [(KStr "index", VInt 5)])]
  ∧ transform_properties (VRef 0) index_property_store
    = Ok (Some [(KStr "index", [VInt 1; VInt 5])])
  ∧ [VInt 1; VInt 5] ≠ key_val <$> [KInt 1].
Proof.
  split; [|split].
  - by repeat constructor.
  - by vm_compute.
  - discriminate.
Qed.


(** Three nodes, the middle one with data: one layer comes out. *)
Lemma reader_one_layer_per_data_node_witness :
  ∃ results s',
    transform [no_data_node; two_channel_node; empty_data_node]
              (initial two_channel_store) = (Ok results, s')
    ∧ Forall2 layer_of [two_channel_node] results
    ∧ length results = 1.
Proof.
  eexists _, _. split; [vm_compute; reflexivity|].
  refine (let Hthm := reader_one_layer_per_data_node
            [no_data_node; two_channel_node; empty_data_node]
            (initial two_channel_store) _ _ _ in _).
  Unshelve. 4: { vm_compute. reflexivity. }
  destruct Hthm as (Hlayers & Hlen & _). split; [exact Hlayers | exact Hlen].
Defined.

(** The node with the untyped axis, followed by a node without data: the
    KeyError of the read comes out of the run. *)
Lemma axis_schema_error_is_fatal_witness :
  ∃ s2,
    transform ([] ++ untyped_axis_node :: [no_data_node]) (initial untyped_axis_store)
    = (Raise (KeyError (KStr "type")), s2)
    ∧ last (st_log s2) = Some (ERROR, ErrorReadingAxes)
    ∧ st_heap s2 = untyped_axis_store.
Proof.
  apply (axis_schema_error_is_fatal [] untyped_axis_node
           [{| arr_id := 1; arr_shape := [4] |}] [no_data_node]
           (initial untyped_axis_store) [] (initial untyped_axis_store)).
  - reflexivity.
  - reflexivity.
  - simpl. lia.
  - vm_compute. reflexivity.
Defined.

(** The same run, and what the classifier makes of the descriptor. *)
Lemma untyped_axis_is_fatal_witness :
  (∃ e s2,
     transform ([] ++ untyped_axis_node :: [no_data_node]) (initial untyped_axis_store)
     = (Raise e, s2)
     ∧ last (st_log s2) = Some (ERROR, ErrorReadingAxes))
  ∧ get_axis (VRef 2) untyped_axis_store = Ok (Some (SpaceAxis (VStr "x") D_NONE)).
Proof.
  destruct (untyped_axis_is_fatal [] untyped_axis_node
              [{| arr_id := 1; arr_shape := [4] |}] [no_data_node]
              (initial untyped_axis_store) [] (initial untyped_axis_store)
              [(KStr "axes", VRef 1)] 1 [VRef 2] 0 2 [(KStr "name", VStr "x")])
    as [Hraise Haxis].
  - reflexivity.
  - reflexivity.
  - simpl. lia.
  - reflexivity.
  - reflexivity.
  - reflexivity.
  - reflexivity.
  - reflexivity.
  - reflexivity.
  - split; [exact Hraise|]. exact (Haxis (VStr "x") eq_refl).
Defined.

(** Micrometer against millimeter: both axes come out without unit. *)
Lemma get_axes_reconciles_units_witness :
  ∃ names,
    get_axes (VRef 0) (initial mixed_units_store)
    = (Ok [SpaceAxis (VStr "y") D_NONE; SpaceAxis (VStr "x") D_NONE],
       warned names (initial mixed_units_store))
    ∧ ∀ n, n ∈ names ↔ ∃ u, u ∈ [D_MICROMETER; D_MILLIMETER] ∧ n = demo_space_str u.
Proof.
  destruct (get_axes_reconciles_units (VRef 0) (initial mixed_units_store) mixed_axes)
    as [Hmixed _].
  - vm_compute. reflexivity.
  - destruct Hmixed as (names & Hrun & _ & _ & Hnames).
    + exists D_MICROMETER, D_MILLIMETER. split; [by left|]. split; [|done].
      right. by left.
    + exists names. split; [exact Hrun | exact Hnames].
Defined.

(** The pivot of [{1: {"roiId": 10}, 2: {"roiId": 11, "shapeId": 99}}]. *)
Lemma properties_pivot_witness :
  ∃ table,
    transform_properties (VRef 5) label_store = Ok (Some table)
    ∧ dict_get (KStr "roiId") table = Some [VInt 10; VInt 11]
    ∧ dict_get (KStr "shapeId") table = Some [VNone; VInt 99]
    ∧ dict_get (KStr "index") table = Some [VInt 1; VInt 2].
Proof.
  destruct (properties_pivot label_store 5
              [(KInt 1, VRef 6); (KInt 2, VRef 7)]
              [(KInt 1, [(KStr "roiId", VInt 10)]);
               (KInt 2, [(KStr "roiId", VInt 11); (KStr "shapeId", VInt 99)])])
    as (_ & table & Hrun & _ & Hkeys & Hcols & Hindex).
  - reflexivity.
  - by repeat constructor.
  - intros row Hrow Hin.
    apply elem_of_cons in Hrow as [->|Hrow].
    { apply list_elem_of_singleton in Hin. discriminate. }
    apply list_elem_of_singleton in Hrow as ->.
    apply elem_of_cons in Hin as [?|Hin]; [discriminate|].
    apply list_elem_of_singleton in Hin. discriminate.
  - exists table. split; [exact Hrun|]. split; [|split; [|exact Hindex]].
    + apply Hcols; [discriminate|]. apply Hkeys. right.
      exists (KInt 1, [(KStr "roiId", VInt 10)]). split; by left.
    + apply Hcols; [discriminate|]. apply Hkeys. right.
      exists (KInt 2, [(KStr "roiId", VInt 11); (KStr "shapeId", VInt 99)]).
      split; right; by left.
Defined.


(** Axes [c, y, x] and scale [1, 0.2, 0.2]: the output scale is
    (0.2, 0.2) and there is no translate. *)
Lemma transform_scale_extracts_witness :
  ∃ metadata s',
    transform_scale (VRef 0) [] (Some 0) (initial two_channel_store)
    = (Ok metadata, s')
    ∧ tuple_at (st_heap s') metadata "scale" = Some [VFloat 2 (-1); VFloat 2 (-1)]
    ∧ dict_get (KStr "translate") metadata = None.
Proof.
  destruct (transform_scale_extracts (initial two_channel_store) 0
              [(KStr "axes", VRef 1); (KStr "coordinateTransformations", VRef 5);
               (KStr "name", VRef 9)] (Some 0))
    as [_ Hpresent].
  - reflexivity.
  - destruct (Hpresent 5 6 [] [VRef 7]) as (metadata & s' & Hrun & Hout).
    + reflexivity.
    + reflexivity.
    + reflexivity.
    + constructor; [|constructor].
      exists 7, [(KStr "scale", VRef 8)]. split; [done|]. split; [done|].
      intros field v Hfield Hv.
      apply elem_of_cons in Hfield as [->|Hfield].
      * injection Hv as <-.
        exists 8, [VInt 1; VFloat 2 (-1); VFloat 2 (-1)].
        split; [done|]. split; [done|]. intros i [= <-]. simpl. lia.
      * apply list_elem_of_singleton in Hfield as ->. discriminate.
    + intros _. apply (bool_decide_unpack _). by vm_compute.
    + exists metadata, s'. split; [exact Hrun|]. split.
      * exact (Hout "scale" "scale" ltac:(by left)).
      * exact (Hout "translation" "translate" ltac:(right; by left)).
Defined.


(** * Further properties on the sample datasets *)

(** Axes [t, c, y]: the channel axis is at 1. *)
Lemma channel_axis_is_first_channel_witness :
  ∃ r, read_channel_axis (VRef 0) time_axes_store = Ok r
       ∧ match r with
         | Some c =>
             [VStr "time"; VStr "channel"; VStr "space"] !! c
             = Some (VStr "channel")
             ∧ ∀ j t, j < c →
                 [VStr "time"; VStr "channel"; VStr "space"] !! j = Some t →
                 t ≠ VStr "channel"
         | None =>
             ∀ t, t ∈ [VStr "time"; VStr "channel"; VStr "space"] →
                  t ≠ VStr "channel"
         end.
Proof.
  apply (channel_axis_is_first_channel time_axes_store 0
           [(KStr "axes", VRef 1)] 1 [VRef 2; VRef 3; VRef 4]).
  - reflexivity.
  - reflexivity.
  - reflexivity.
  - repeat constructor.
Defined.

(** Axes [t, c, y]: a time axis in seconds and a space axis in
    micrometers, the channel axis left out. *)
Lemma classify_axes_in_order_witness :
  classify_axes (VRef 0) time_axes_store
  = Ok [TimeAxis (VStr "t") D_SECOND; SpaceAxis (VStr "y") D_MICROMETER].
Proof.
  destruct (classify_axes_in_order time_axes_store 0
              [(KStr "axes", VRef 1)] 1 [VRef 2; VRef 3; VRef 4]
              [[(KStr "name", VStr "t"); (KStr "type", VStr "time");
                (KStr "unit", VStr "second")];
               [(KStr "name", VStr "c"); (KStr "type", VStr "channel")];
               [(KStr "name", VStr "y"); (KStr "type", VStr "space");
                (KStr "unit", VStr "micrometer")]])
    as (axes & Hrun & _ & _).
  - reflexivity.
  - reflexivity.
  - reflexivity.
  - repeat (constructor; [eexists; split; reflexivity|]). constructor.
  - repeat (constructor; [eexists; reflexivity|]). constructor.
  - rewrite Hrun. vm_compute in Hrun. injection Hrun as <-. reflexivity.
Defined.

(** Axes [y, ?]: the descriptor without a name ends [get_axes]. *)
Lemma nameless_axis_raises_witness :
  get_axes (VRef 0) (initial nameless_axis_store)
  = (Raise (KeyError (KStr "name")), initial nameless_axis_store).
Proof.
  apply (nameless_axis_raises (initial nameless_axis_store) 0
           [(KStr "axes", VRef 1)] 1 [VRef 2; VRef 3]
           [[(KStr "name", VStr "y"); (KStr "type", VStr "space");
             (KStr "unit", VStr "micrometer")];
            [(KStr "type", VStr "space")]]
           1 [(KStr "type", VStr "space")]).
  - reflexivity.
  - reflexivity.
  - reflexivity.
  - repeat (constructor; [eexists; split; reflexivity|]). constructor.
  - reflexivity.
  - reflexivity.
  - intros [|j] dd' Hj Hdd; [|lia]. injection Hdd as <-. eexists. reflexivity.
Defined.

(** The columns of [{1: {"roiId": 10}, 2: {"roiId": 11, "shapeId": 99}}]. *)
Lemma pivot_columns_in_order_of_first_use_witness :
  ∃ table,
    transform_properties (VRef 5) label_store = Ok (Some table)
    ∧ dict_keys table = [KStr "roiId"; KStr "shapeId"; KStr "index"].
Proof.
  destruct (pivot_columns_in_order_of_first_use label_store 5
              [(KInt 1, VRef 6); (KInt 2, VRef 7)]
              [(KInt 1, [(KStr "roiId", VInt 10)]);
               (KInt 2, [(KStr "roiId", VInt 11); (KStr "shapeId", VInt 99)])])
    as (table & Hrun & Hkeys & _).
  - reflexivity.
  - by repeat constructor.
  - exists table. split; [exact Hrun | exact Hkeys].
Defined.

(** Extras for the name "a" over a scale that is a tuple. *)
Lemma make_extras_allocates_four_witness :
  ∃ s' extra original axes1 axes2,
    make_extras [(KStr "scale", VRef 0)] [] (VStr "a") (initial scale_tuple_store)
    = (Ok (VRef extra), s')
    ∧ axes1 ≠ axes2
    ∧ st_heap s' !! extra = Some (OExtra axes2 original)
    ∧ st_heap s' !! original = Some (OOriginal axes1 (VStr "a") (VRef 0) VNone)
    ∧ st_heap s' !! axes1 = Some (OAxes [])
    ∧ st_heap s' !! axes2 = Some (OAxes []).
Proof.
  destruct (make_extras_allocates_four (initial scale_tuple_store)
              [(KStr "scale", VRef 0)] [] (VStr "a"))
    as (s' & extra & original & axes1 & axes2 & Hrun & _ & _ & _ & _ & _ & _
        & Hne & Hextra & Horiginal & Haxes1 & Haxes2).
  - intros v Hv. injection Hv as <-.
    exists 0, [VFloat 2 (-1); VFloat 2 (-1)]. split; reflexivity.
  - intros v Hv. discriminate.
  - exists s', extra, original, axes1, axes2.
    split; [exact Hrun|]. split; [exact Hne|]. split; [exact Hextra|].
    split; [exact Horiginal|]. split; [exact Haxes1 | exact Haxes2].
Defined.

(** The two-channel image: an image layer with the channel axis 0. *)
Lemma output_metadata_fields_witness :
  ∃ data metadata kind s',
    transform_node two_channel_node [{| arr_id := 0; arr_shape := [2; 4; 4] |}]
                   (initial two_channel_store)
    = (Ok (data, metadata, kind), s')
    ∧ is_Some (dict_get (KStr "metadata") metadata)
    ∧ kind = image
    ∧ dict_get (KStr "channel_axis") metadata = Some (VInt 0)
    ∧ dict_get (KStr "properties") metadata = None.
Proof.
  eexists _, _, _, _. split; [vm_compute; reflexivity|].
  refine (let Hthm := output_metadata_fields two_channel_node
            [{| arr_id := 0; arr_shape := [2; 4; 4] |}]
            (initial two_channel_store) _ _ _ _ _ in _).
  Unshelve. 6: { vm_compute. reflexivity. }
  destruct Hthm as (_ & Hmeta & Hkind & (c & Hc & Hchannel) & Hprops).
  split; [exact Hmeta|]. split; [exact Hkind|]. split.
  - vm_compute in Hc. injection Hc as <-. exact Hchannel.
  - apply Hprops. reflexivity.
Defined.

(** The image named "nuclei" keeps its name. *)
Lemma wrapped_name_round_trip_witness :
  ∃ s1 out,
    wrap_name (VRef 0) None (initial named_image_store) = (Ok tt, s1)
    ∧ st_heap s1 !! 0
      = Some (ODict (dict_set (KStr "name") (VRef 4)
                       [(KStr "axes", VRef 1); (KStr "name", VStr "nuclei")]))
    ∧ st_heap s1 !! 4 = Some (OList [VStr "nuclei"])
    ∧ copy_first_items (VRef 0) [] (st_heap s1) = Ok out
    ∧ dict_get (KStr "name") out = Some (VStr "nuclei").
Proof.
  apply (wrapped_name_round_trip (initial named_image_store) 0
           [(KStr "axes", VRef 1); (KStr "name", VStr "nuclei")] "nuclei" []).
  - reflexivity.
  - reflexivity.
  - discriminate.
Defined.

(** The image with the empty name gets no name. *)
Lemma empty_name_is_dropped_witness :
  ∃ out,
    wrap_name (VRef 0) None (initial unnamed_image_store)
    = (Ok tt, initial unnamed_image_store)
    ∧ copy_first_items (VRef 0) [] unnamed_image_store = Ok out
    ∧ dict_get (KStr "name") out = None.
Proof.
  apply (empty_name_is_dropped (initial unnamed_image_store) 0
           [(KStr "axes", VRef 1); (KStr "name", VStr "")] []).
  - reflexivity.
  - reflexivity.
Defined.

(** The colormaps [[Colormap("red"), [0, 1]]]: the second becomes a
    Colormap. *)
Lemma colormap_list_is_converted_witness :
  ∃ s' cms',
    shim_colormaps (VRef 0) (initial colormap_store) = (Ok tt, s')
    ∧ st_heap s' !! 3 = Some (OList cms')
    ∧ Forall (λ c, is_colormap (st_heap s') c = true) cms'.
Proof.
  destruct (colormap_list_is_converted (initial colormap_store) 0
              [(KStr "axes", VRef 1); (KStr "colormap", VRef 3)] 3
              [VRef 4; VRef 5])
    as (s' & cms' & Hrun & Hlist & _ & Hall & _).
  - reflexivity.
  - reflexivity.
  - reflexivity.
  - repeat (constructor; [intros l Hl; injection Hl as <-; cbn; lia|]).
    constructor.
  - exists s', cms'. split; [exact Hrun|]. split; [exact Hlist | exact Hall].
Defined.

(** Two channels named "a" and "b" with a mapping each: every channel has
    the extras of its own name. *)
Lemma channel_extras_are_the_last_written_witness :
  ∃ s',
    attach_extras_multi (DArray {| arr_id := 0; arr_shape := [2; 4; 4] |})
      [(KStr "name", VRef 5); (KStr "metadata", VRef 6)] [] 0
      (initial per_channel_store)
    = (Ok [(KStr "name", VRef 5); (KStr "metadata", VRef 6)], s')
    ∧ channel_extra_name (st_heap s')
        [(KStr "name", VRef 5); (KStr "metadata", VRef 6)] 0
      = Some (VStr "a")
    ∧ channel_extra_name (st_heap s')
        [(KStr "name", VRef 5); (KStr "metadata", VRef 6)] 1
      = Some (VStr "b").
Proof.
  destruct (channel_extras_are_the_last_written (initial per_channel_store)
              (DArray {| arr_id := 0; arr_shape := [2; 4; 4] |})
              [(KStr "name", VRef 5); (KStr "metadata", VRef 6)] [] 0 2 6 [7; 8])
    as (s' & Hrun & Hlast & _).
  - reflexivity.
  - reflexivity.
  - reflexivity.
  - repeat (constructor; [eexists; reflexivity|]). constructor.
  - intros v Hv. discriminate.
  - intros v Hv. discriminate.
  - exists s'. split; [exact Hrun|]. split.
    + apply (Hlast 0 0 7 (VStr "a")); [reflexivity..|].
      intros [|[|j']] Hj Hlt; [lia | discriminate | vm_compute in Hlt; lia].
    + apply (Hlast 1 1 8 (VStr "b")); [reflexivity..|].
      intros [|[|j']] Hj Hlt; [lia | lia | vm_compute in Hlt; lia].
Defined.

(** The labels node with a channel axis: its one level comes out in a
    list, without the channel axis. *)
Lemma label_levels_lose_the_channel_axis_witness :
  ∃ data metadata kind s' squeezed,
    transform_node label_channel_node [{| arr_id := 5; arr_shape := [1; 4; 4] |}]
                   (initial two_channel_store)
    = (Ok (data, metadata, kind), s')
    ∧ data = DList squeezed
    ∧ Forall2 (squeezed_at 0) [{| arr_id := 5; arr_shape := [1; 4; 4] |}] squeezed.
Proof.
  refine (let Hthm := label_levels_lose_the_channel_axis label_channel_node
            [{| arr_id := 5; arr_shape := [1; 4; 4] |}]
            (initial two_channel_store) _ _ _ _ _ in _).
  Unshelve. 6: { vm_compute. reflexivity. }
  destruct Hthm as (c & Hc & Hdata).
  vm_compute in Hc. injection Hc as <-.
  destruct Hdata as (squeezed & Hdata & Hsqueezed).
  eexists _, _, _, _, squeezed. split; [vm_compute; reflexivity|].
  split; [exact Hdata | exact Hsqueezed].
Defined.

(** Two paths that ome-zarr does not resolve: a warning and no reader. *)
Lemma entry_point_reads_the_first_path_witness :
  napari_get_reader unit (λ _, None) (λ _, []) (Paths ["a.zarr"; "b.zarr"])
  = ([MoreThanOnePath], Ok None).
Proof.
  destruct (entry_point_reads_the_first_path (Location := unit)
              (λ _, None) (λ _, []) "a.zarr" ["b.zarr"])
    as (Hfirst & _ & _ & Hnone & _).
  rewrite Hfirst. rewrite (Hnone eq_refl). reflexivity.
Defined.

(** A node without data, the two-channel image and a node with empty
    data: four messages, the last of them for the skipped node. *)
Lemma run_log_is_debug_only_witness :
  ∃ results s',
    transform [no_data_node; two_channel_node; empty_data_node]
              (initial two_channel_store) = (Ok results, s')
    ∧ st_log s'
      = run_log [no_data_node; two_channel_node; empty_data_node] results
    ∧ length (st_log s') = 5.
Proof.
  eexists _, _. split; [vm_compute; reflexivity|].
  refine (let Hthm := run_log_is_debug_only
            [no_data_node; two_channel_node; empty_data_node]
            (initial two_channel_store) _ _ _ in _).
  Unshelve. 4: { vm_compute. reflexivity. }
  destruct Hthm as (Hlog & _ & Hlen). split; [exact Hlog|].
  rewrite Hlog. exact Hlen.
Defined.

(** A layer named "a" without a metadata mapping: a new mapping holds its
    extras. *)
Lemma single_channel_extras_go_into_metadata_witness :
  ∃ metadata' s' m e a o a' sc tr,
    attach_extras_single [(KStr "name", VStr "a")] [] (initial scale_tuple_store)
    = (Ok metadata', s')
    ∧ dict_get (KStr "metadata") metadata' = Some (VRef m)
    ∧ st_heap s' !! m
      = Some (ODict [(KStr "napari-metadata-plugin", VRef e)])
    ∧ st_heap s' !! e = Some (OExtra a o)
    ∧ st_heap s' !! o = Some (OOriginal a' (VStr "a") sc tr).
Proof.
  destruct (single_channel_extras_go_into_metadata (initial scale_tuple_store)
              [(KStr "name", VStr "a")] [] [])
    as (metadata' & s' & m & e & a & o & a' & sc & tr
        & Hrun & _ & Hmeta & _ & Hm & He & Ho).
  - reflexivity.
  - intros v Hv. discriminate.
  - intros v Hv. discriminate.
  - exists metadata', s', m, e, a, o, a', sc, tr.
    split; [exact Hrun|]. split; [exact Hmeta|]. split; [exact Hm|].
    split; [exact He | exact Ho].
Defined.

(** A list under 'metadata' and no channel axis: TypeError. *)
Lemma metadata_list_without_channel_axis_raises_witness :
  ∃ s',
    attach_extras_single [(KStr "metadata", VRef 0)] []
                         (initial metadata_list_store)
    = (Raise TypeError, s')
    ∧ st_heap (initial metadata_list_store) `prefix_of` st_heap s'
    ∧ st_log s' = [] ∧ st_warnings s' = [].
Proof.
  apply (metadata_list_without_channel_axis_raises (initial metadata_list_store)
           [(KStr "metadata", VRef 0)] [] 0 [VRef 1]).
  - reflexivity.
  - reflexivity.
  - intros v Hv. discriminate.
  - intros v Hv. discriminate.
Defined.

(** The scale [1, 0.2, 0.2] of the two-channel image: (0.2, 0.2) at the
    first run and (0.2,) at the second. *)
Lemma channel_entry_is_popped_in_place_witness :
  ∃ metadata s' metadata2 s2,
    transform_scale (VRef 0) [] (Some 0) (initial two_channel_store)
    = (Ok metadata, s')
    ∧ st_heap s' !! 8 = Some (OList [VFloat 2 (-1); VFloat 2 (-1)])
    ∧ transform_scale (VRef 0) [] (Some 0) s' = (Ok metadata2, s2)
    ∧ tuple_at (st_heap s2) metadata2 "scale" = Some [VFloat 2 (-1)].
Proof.
  destruct (channel_entry_is_popped_in_place (initial two_channel_store) 0 8
              [VInt 1; VFloat 2 (-1); VFloat 2 (-1)] 0)
    as (metadata & s' & Hrun & _ & Harray & Hagain & _).
  - exists [(KStr "axes", VRef 1); (KStr "coordinateTransformations", VRef 5);
            (KStr "name", VRef 9)], 5, [], 6, 7, [(KStr "scale", VRef 8)].
    repeat (split; [reflexivity|]). split; [lia | lia].
  - cbn. lia.
  - destruct Hagain as (metadata2 & s2 & Hrun2 & Hscale2); [cbn; lia|].
    exists metadata, s', metadata2, s2.
    split; [exact Hrun|]. split; [exact Harray|].
    split; [exact Hrun2 | exact Hscale2].
Defined.

(** One level of shape (1, 4, 4) with the channel axis 0: four channels. *)
Lemma label_channel_count_reads_the_next_axis_witness :
  channel_count (DList [{| arr_id := 5; arr_shape := [4; 4] |}]) 0 = Ok 4.
Proof.
  destruct (label_channel_count_reads_the_next_axis
              {| arr_id := 5; arr_shape := [1; 4; 4] |} [] 0
              [{| arr_id := 5; arr_shape := [4; 4] |}])
    as [_ Hcount].
  - reflexivity.
  - exact Hcount.
Defined.

(** The properties [{1: {"roiId": 10}, 2: 5}]: AttributeError. *)
Lemma pivot_of_a_non_mapping_raises_witness :
  transform_properties (VRef 0) scalar_property_store = Raise AttributeError.
Proof.
  destruct (pivot_of_a_non_mapping_raises scalar_property_store) as [_ Hlabel].
  apply (Hlabel 0 [(KInt 1, VRef 1); (KInt 2, VInt 5)] 1 (KInt 2, VInt 5)).
  - reflexivity.
  - reflexivity.
  - intros d Hd. discriminate.
Defined.
